(** * Workflow security scanner (workflows-scanner.ts): model and properties

    A shallow embedding of the [WorkflowsScanner] class: the rule table
    [securityRules] with its four regular expressions, the line scanner
    [analyzeWorkflow], the repository scan [scanRepository] and the Markdown
    renderer [generateReport] / [formatIssues].

    - JavaScript strings are sequences of UTF-16 code units ([list N]).
    - Regular expressions are a small syntax tree interpreted by a
      backtracking matcher written in the continuation style of ECMA-262
      (22.2.2): greedy quantifiers, ordered alternatives, negative lookahead.
    - [RegExp.prototype.test] is modelled with the [lastIndex] slot and the
      [g]/[y] flags, and the rule table is threaded as a store through the
      scan, since the table is one module-level array shared by all scans.
    - The Octokit client is a parameter: a function from request to response
      or thrown value.  Exceptions and the store live in a small monad.
    - The callers in index.ts and cli.ts that only use the scanner, the
      console and the organization listing ([scanAllRepositories],
      [listRepositories], the configuration defaults) are modelled over a
      world made of the rule table and the console. *)

From Stdlib Require Import String Ascii DecimalString.
From Stdlib Require Import List NArith Arith Bool Lia Sorted Permutation.
Import ListNotations.

(** ** JavaScript strings *)

Definition codeunit := N.
Definition jsstring := list codeunit.

(** A source literal made of ASCII characters. *)
Definition js (s : string) : jsstring :=
  map N_of_ascii (list_ascii_of_string s).

Definition LF : codeunit := 10%N.
Definition CR : codeunit := 13%N.
Definition DQUOTE : codeunit := 34%N.
Definition SQUOTE : codeunit := 39%N.
Definition BACKTICK : codeunit := 96%N.

Definition jsstring_eqb (a b : jsstring) : bool :=
  if list_eq_dec N.eq_dec a b then true else false.

(** [WhiteSpace] and [LineTerminator] of ECMA-262: the set behind both the
    [\s] class escape and [String.prototype.trim]. *)
Definition isWhiteSpace (c : codeunit) : bool :=
  ((c =? 9) || (c =? 10) || (c =? 11) || (c =? 12) || (c =? 13) || (c =? 32)
   || (c =? 160) || (c =? 5760) || ((8192 <=? c) && (c <=? 8202))
   || (c =? 8232) || (c =? 8233) || (c =? 8239) || (c =? 8287)
   || (c =? 12288) || (c =? 65279))%N.

Fixpoint trimStart (s : jsstring) : jsstring :=
  match s with
  | c :: s' => if isWhiteSpace c then trimStart s' else s
  | [] => []
  end.

Definition trimEnd (s : jsstring) : jsstring := rev (trimStart (rev s)).

(** [String.prototype.trim] *)
Definition trim (s : jsstring) : jsstring := trimStart (trimEnd s).

(** [s.split("\n")]: the pieces between line feeds; always at least one. *)
Fixpoint split_lf (s : jsstring) : list jsstring :=
  match s with
  | [] => [[]]
  | c :: s' =>
      if (c =? LF)%N then [] :: split_lf s'
      else match split_lf s' with
           | l :: ls => (c :: l) :: ls
           | [] => [[c]]
           end
  end.

Fixpoint startsWith (s p : jsstring) {struct p} : bool :=
  match p, s with
  | [], _ => true
  | a :: p', b :: s' => (a =? b)%N && startsWith s' p'
  | _ :: _, [] => false
  end.

(** [String.prototype.endsWith] *)
Definition endsWith (s p : jsstring) : bool := startsWith (rev s) (rev p).

(** Template-literal rendering of a non-negative integer. *)
Definition decimal (n : nat) : jsstring :=
  js (NilZero.string_of_uint (Nat.to_uint n)).

(** ** Regular expressions *)

Inductive charclass : Type :=
| ClassSpace                       (* \s *)
| ClassDigit                       (* \d *)
| ClassOneOf (cs : list codeunit)  (* [...] *)
| ClassNoneOf (cs : list codeunit) (* [^...] *).

Inductive regex : Type :=
| Empty
| Char (c : codeunit)
| Class (cl : charclass)
| Seq (a b : regex)
| Alt (a b : regex)
| Star (a : regex)           (* a*, greedy *)
| Group (a : regex)          (* ( a ) *)
| NegLookahead (a : regex)   (* (?! a ) *).

(** a+ *)
Definition Plus (a : regex) : regex := Seq a (Star a).

(** A run of literal pattern characters. *)
Definition chars (l : jsstring) : regex :=
  fold_right (fun c r => Seq (Char c) r) Empty l.

Definition lit (s : string) : regex := chars (js s).

Declare Scope regex_scope.
Delimit Scope regex_scope with re.
Infix "+>" := Seq (at level 60, right associativity) : regex_scope.
Infix "<|>" := Alt (at level 65, right associativity) : regex_scope.

(** [Canonicalize] without the [u] flag.  Only the ASCII letters are folded
    here.  ECMA-262 never lets a code unit of 128 or more canonicalize to one
    below 128, and every character written in the patterns of this program is
    ASCII, so comparing canonical forms against pattern characters agrees
    with the full upper-casing table. *)
Definition canonicalize (ignoreCase : bool) (c : codeunit) : codeunit :=
  if ignoreCase && (97 <=? c)%N && (c <=? 122)%N then (c - 32)%N else c.

Definition char_matches (ignoreCase : bool) (p c : codeunit) : bool :=
  (canonicalize ignoreCase p =? canonicalize ignoreCase c)%N.

Definition isDigit (c : codeunit) : bool := ((48 <=? c) && (c <=? 57))%N.

Definition class_matches (ignoreCase : bool) (cl : charclass) (c : codeunit)
  : bool :=
  match cl with
  | ClassSpace => isWhiteSpace c
  | ClassDigit => isDigit c
  | ClassOneOf cs => existsb (fun a => char_matches ignoreCase a c) cs
  | ClassNoneOf cs => negb (existsb (fun a => char_matches ignoreCase a c) cs)
  end.

(** [RepeatMatcher] for a star: try one more iteration of the body [m]
    first, refuse an iteration that consumes nothing, and fall back to the
    continuation [k].  An iteration consumes at least one unit, so the
    length of the input bounds their number. *)
Definition repeat_loop
    (m : jsstring -> (jsstring -> option jsstring) -> option jsstring)
    (k : jsstring -> option jsstring)
  : nat -> jsstring -> option jsstring :=
  fix repeat (fuel : nat) (x : jsstring) {struct fuel} : option jsstring :=
    match fuel with
    | O => k x
    | S fuel' =>
        match m x (fun y => if length y <? length x then repeat fuel' y
                            else None) with
        | Some e => Some e
        | None => k x
        end
    end.

(** The matcher.  [x] is the input from the current position on, [k] the
    continuation; the result is the input left after the whole match.  No
    pattern here has anchors, back-references or lookbehind, so the text
    before the current position is never consulted. *)
Fixpoint matcher (ic : bool) (r : regex) (x : jsstring)
         (k : jsstring -> option jsstring) {struct r} : option jsstring :=
  match r with
  | Empty => k x
  | Char p =>
      match x with
      | c :: x' => if char_matches ic p c then k x' else None
      | [] => None
      end
  | Class cl =>
      match x with
      | c :: x' => if class_matches ic cl c then k x' else None
      | [] => None
      end
  | Seq a b => matcher ic a x (fun y => matcher ic b y k)
  | Alt a b =>
      match matcher ic a x k with
      | Some e => Some e
      | None => matcher ic b x k
      end
  | Star a => repeat_loop (matcher ic a) k (length x) x
  | Group a => matcher ic a x k
  | NegLookahead a =>
      match matcher ic a x (fun y => Some y) with
      | Some _ => None
      | None => k x
      end
  end.

(** The loop of [RegExpBuiltinExec] over start positions: the first position
    from which the pattern matches wins; a sticky expression tries only the
    first. *)
Fixpoint search (ic : bool) (r : regex) (sticky : bool) (x : jsstring)
  : option jsstring :=
  match matcher ic r x (fun y => Some y) with
  | Some rest => Some rest
  | None =>
      if sticky then None
      else match x with
           | [] => None
           | _ :: x' => search ic r sticky x'
           end
  end.

(** A RegExp object: the pattern, its flags and the mutable [lastIndex]. *)
Module RegExp.
Record t : Type := mk {
  source : regex;
  ignoreCase : bool;
  global : bool;
  sticky : bool;
  lastIndex : nat
}.

Definition set_lastIndex (R : t) (n : nat) : t :=
  mk (source R) (ignoreCase R) (global R) (sticky R) n.

(** [R.test(S)]: the answer and the object after the call. *)
Definition test (R : t) (S : jsstring) : bool * t :=
  let stateful := global R || sticky R in
  let start := if stateful then lastIndex R else 0 in
  if length S <? start then
    (false, if stateful then set_lastIndex R 0 else R)
  else
    match search (ignoreCase R) (source R) (sticky R) (skipn start S) with
    | Some rest =>
        (true,
         if stateful then set_lastIndex R (length S - length rest) else R)
    | None => (false, if stateful then set_lastIndex R 0 else R)
    end.

(** A regular-expression literal [/source/] or [/source/i]. *)
Definition literal (r : regex) (i : bool) : t := mk r i false false 0.
End RegExp.

(** ** The rule table *)

Inductive SecuritySeverity : Type := critical | high | medium | low.

Definition severity_eqb (a b : SecuritySeverity) : bool :=
  match a, b with
  | critical, critical | high, high | medium, medium | low, low => true
  | _, _ => false
  end.

Module Rule.
Record t : Type := mk {
  id : jsstring;
  description : jsstring;
  pattern : RegExp.t;
  severity : SecuritySeverity;
  remediation : jsstring
}.

Definition with_pattern (r : t) (p : RegExp.t) : t :=
  mk (id r) (description r) p (severity r) (remediation r).
End Rule.

Local Open Scope regex_scope.

(** /(password|token|key|secret):\s*[Q][^Q]+[Q]/i, where Q stands for the
    two quote characters, single and double. *)
Definition re_plaintext_secrets : regex :=
  Group (lit "password" <|> lit "token" <|> lit "key" <|> lit "secret")
  +> lit ":" +> Star (Class ClassSpace)
  +> Class (ClassOneOf [SQUOTE; DQUOTE])
  +> Plus (Class (ClassNoneOf [SQUOTE; DQUOTE]))
  +> Class (ClassOneOf [SQUOTE; DQUOTE]).

(** /uses:\s*([^@]+)@(main|master|latest|\d+)/i *)
Definition re_pin_actions : regex :=
  lit "uses:" +> Star (Class ClassSpace)
  +> Group (Plus (Class (ClassNoneOf (js "@"))))
  +> lit "@"
  +> Group (lit "main" <|> lit "master" <|> lit "latest"
            <|> Plus (Class ClassDigit)).

(** /uses:\s*(?!actions\/|\.\/)/ *)
Definition re_third_party : regex :=
  lit "uses:" +> Star (Class ClassSpace)
  +> NegLookahead (lit "actions/" <|> lit "./").

(** /\$\{\{\s*github\.event\.issue\.title\s*\}\}/ *)
Definition re_script_injection : regex :=
  lit "${{" +> Star (Class ClassSpace)
  +> lit "github.event.issue.title"
  +> Star (Class ClassSpace) +> lit "}}".

Local Close Scope regex_scope.

Definition rule_plaintext_secrets : Rule.t :=
  Rule.mk (js "no-plaintext-secrets")
    (js "Avoid hardcoded secrets in workflows")
    (RegExp.literal re_plaintext_secrets true)
    critical
    (js "Use GitHub Secrets (secrets.*) instead of hardcoded values").

Definition rule_pin_actions : Rule.t :=
  Rule.mk (js "pin-actions-versions")
    (js "Pin actions to a specific SHA")
    (RegExp.literal re_pin_actions true)
    high
    (js "Pin actions to a full length commit SHA instead of using branch names or version tags").

Definition rule_third_party : Rule.t :=
  Rule.mk (js "third-party-action-review")
    (js "Review third-party actions")
    (RegExp.literal re_third_party false)
    medium
    (js "Review third-party actions before using them or consider creating internal actions").

Definition rule_script_injection : Rule.t :=
  Rule.mk (js "script-injection")
    (js "Potential script injection via user inputs")
    (RegExp.literal re_script_injection false)
    high
    (js "Sanitize user inputs before using them in scripts").

(** The module-level array, as it is when the module has just been loaded. *)
Definition securityRules : list Rule.t :=
  [rule_plaintext_secrets; rule_pin_actions; rule_third_party;
   rule_script_injection].

(** ** Issues and scan results *)

Record WorkflowSecurityIssue : Type := mkIssue {
  file : jsstring;
  line : nat;
  rule : jsstring;
  description : jsstring;
  severity : SecuritySeverity;
  remediation : jsstring;
  content : jsstring
}.

Record WorkflowScanResult : Type := mkResult {
  repository : jsstring;
  success : bool;
  message : jsstring;
  issues : list WorkflowSecurityIssue
}.

(** ** Store, exceptions and the monad of the scan *)

(** The mutable state a scan can touch: the shared rule table, whose RegExp
    objects carry [lastIndex]. *)
Definition Store := list Rule.t.

(** A thrown value, as the handler of [scanRepository] reads it: an [Error]
    with its [message], or anything else with the text [String(error)]
    gives for it. *)
Inductive Thrown : Type :=
| ThrownError (msg : jsstring)
| ThrownOther (text : jsstring).

Inductive Completion (A : Type) : Type :=
| Normal (a : A)
| Abrupt (e : Thrown).
Arguments Normal {A} a.
Arguments Abrupt {A} e.

Definition M (A : Type) : Type := Store -> Completion A * Store.

Definition ret {A} (a : A) : M A := fun st => (Normal a, st).

Definition bind {A B} (m : M A) (f : A -> M B) : M B :=
  fun st =>
    match m st with
    | (Normal a, st') => f a st'
    | (Abrupt e, st') => (Abrupt e, st')
    end.

Definition try_catch {A} (body : M A) (handler : Thrown -> M A) : M A :=
  fun st =>
    match body st with
    | (Normal a, st') => (Normal a, st')
    | (Abrupt e, st') => handler e st'
    end.

(** A call that does not touch the store and may throw. *)
Definition await {A} (c : Completion A) : M A := fun st => (c, st).

(** A synchronous computation on the store that cannot throw. *)
Definition lift {A} (f : Store -> A * Store) : M A :=
  fun st => let (a, st') := f st in (Normal a, st').

Declare Scope scan_scope.
Delimit Scope scan_scope with scan.
Notation "x <- m ;; k" := (bind m (fun x => k))
  (at level 61, m at next level, right associativity) : scan_scope.

(** ** analyzeWorkflow *)

(** The inner loop [for (const rule of securityRules)] over one line: every
    rule's pattern is tested in table order, a hit pushes one issue; the
    table comes back with the RegExp objects as [test] left them. *)
Fixpoint for_rules (filename line : jsstring) (lineNumber : nat)
         (rules : list Rule.t) (issues : list WorkflowSecurityIssue)
  : list WorkflowSecurityIssue * list Rule.t :=
  match rules with
  | [] => (issues, [])
  | rule :: rest =>
      let (hit, pattern') := RegExp.test (Rule.pattern rule) line in
      let issues1 :=
        if hit then
          issues ++ [ {| file := filename;
                         line := lineNumber;
                         rule := Rule.id rule;
                         description := Rule.description rule;
                         severity := Rule.severity rule;
                         remediation := Rule.remediation rule;
                         content := trim line |} ]
        else issues in
      let (issues2, rest') := for_rules filename line lineNumber rest issues1 in
      (issues2, Rule.with_pattern rule pattern' :: rest')
  end.

(** The outer loop [for (let i = 0; i < lines.length; i++)]; [lines] is what
    is left from index [i] on. *)
Fixpoint for_lines (filename : jsstring) (lines : list jsstring) (i : nat)
         (issues : list WorkflowSecurityIssue) (st : Store)
  : list WorkflowSecurityIssue * Store :=
  match lines with
  | [] => (issues, st)
  | line :: rest =>
      let lineNumber := i + 1 in
      let (issues', st') := for_rules filename line lineNumber st issues in
      for_lines filename rest (i + 1) issues' st'
  end.

Definition analyzeWorkflow (filename content : jsstring) (st : Store)
  : list WorkflowSecurityIssue * Store :=
  let issues := [] in
  let lines := split_lf content in
  for_lines filename lines 0 issues st.

(** ** The Octokit client *)

(** An entry of a directory listing. *)
Record DirEntry : Type := mkEntry {
  type : jsstring;
  name : jsstring;
  path : jsstring
}.

(** The [data] of a [repos.getContent] response: an array for a directory,
    otherwise one object, which has a [content] property (base64 text) or
    has none. *)
Inductive ContentData : Type :=
| DataArray (entries : list DirEntry)
| DataObject (content : option jsstring).

Record Request : Type := mkRequest {
  req_owner : jsstring;
  req_repo : jsstring;
  req_path : jsstring
}.

Record WorkflowsScanner : Type := mkScanner {
  octokit_getContent : Request -> Completion ContentData;
  owner : jsstring
}.

(** ** scanRepository *)

Section Scan.

(** [Buffer.from(text, "base64").toString()] of Node: a total function on
    strings, supplied by the platform. *)
Variable base64_decode : jsstring -> jsstring.

(** The engine's limit on spread calls.  [target.push(...items)] passes the
    items as the arguments of one call, and an engine refuses a call with
    more arguments than its stack takes: it throws a [RangeError] before
    anything is pushed.  [spread_overflow n] is what the engine throws for
    [n] spread arguments, [None] when the call goes through. *)
Variable spread_overflow : nat -> option Thrown.

Variable this : WorkflowsScanner.

Local Open Scope scan_scope.

(** [issues.push(...items)] *)
Definition push_spread (issues items : list WorkflowSecurityIssue)
  : M (list WorkflowSecurityIssue) :=
  match spread_overflow (length items) with
  | Some e => await (Abrupt e)
  | None => ret (issues ++ items)
  end.

(** [file.type !== "file" || (!file.name.endsWith(".yml") &&
    !file.name.endsWith(".yaml"))] *)
Definition skipped (f : DirEntry) : bool :=
  negb (jsstring_eqb (type f) (js "file"))
  || (negb (endsWith (name f) (js ".yml"))
      && negb (endsWith (name f) (js ".yaml"))).

(** The loop [for (const file of workflowFiles)]. *)
Fixpoint for_files (repo : jsstring) (workflowFiles : list DirEntry)
         (issues : list WorkflowSecurityIssue)
  : M (list WorkflowSecurityIssue) :=
  match workflowFiles with
  | [] => ret issues
  | file :: rest =>
      if skipped file then for_files repo rest issues
      else
        content <- await (octokit_getContent this
                            (mkRequest (owner this) repo (path file)));;
        match content with
        | DataObject (Some text) =>
            let decodedContent := base64_decode text in
            fileIssues <- lift (analyzeWorkflow (name file) decodedContent);;
            issues <- push_spread issues fileIssues;;
            for_files repo rest issues
        | _ => for_files repo rest issues
        end
  end.

Definition scanRepository (repo : jsstring) : M WorkflowScanResult :=
  try_catch
    (workflowFiles <- await (octokit_getContent this
                               (mkRequest (owner this) repo
                                          (js ".github/workflows")));;
     match workflowFiles with
     | DataObject _ =>
         ret {| repository := repo;
                success := false;
                message := js "No workflows directory found or not a directory";
                issues := [] |}
     | DataArray files =>
         issues <- for_files repo files [];;
         ret {| repository := repo;
                success := true;
                issues := issues;
                message :=
                  if 0 <? length issues then
                    js "Found " ++ decimal (length issues)
                       ++ js " security issues in workflows"
                  else js "No security issues found in workflows" |}
     end)
    (fun error =>
       ret {| repository := repo;
              success := false;
              message :=
                js "Error scanning workflows: "
                   ++ match error with
                      | ThrownError msg => msg
                      | ThrownOther text => text
                      end;
              issues := [] |}).

End Scan.

(** ** generateReport and formatIssues *)

(** One pass of the loop body of [formatIssues]: six appends to [result]. *)
Definition format_step (result : jsstring) (issue : WorkflowSecurityIssue)
  : jsstring :=
  let result := result ++ (js "### " ++ rule issue ++ [LF; LF]) in
  let result := result ++ (js "**File**: " ++ [BACKTICK] ++ file issue
                             ++ [BACKTICK] ++ js " (line "
                             ++ decimal (line issue) ++ js ")" ++ [LF; LF]) in
  let result := result ++ (js "**Description**: " ++ description issue
                             ++ [LF; LF]) in
  let result := result ++ (js "**Code**:" ++ [LF]
                             ++ [BACKTICK; BACKTICK; BACKTICK] ++ js "yaml"
                             ++ [LF] ++ content issue ++ [LF]
                             ++ [BACKTICK; BACKTICK; BACKTICK] ++ [LF; LF]) in
  let result := result ++ (js "**Remediation**: " ++ remediation issue
                             ++ [LF; LF]) in
  let result := result ++ (js "---" ++ [LF; LF]) in
  result.

Definition formatIssues (issues : list WorkflowSecurityIssue) : jsstring :=
  fold_left format_step issues [].

Definition generateReport (scanResult : WorkflowScanResult) : jsstring :=
  let report := js "# Workflow Security Scan Report for "
                   ++ repository scanResult ++ [LF; LF] in
  if negb (success scanResult) then
    let report := report ++ (js "## Error" ++ [LF; LF] ++ message scanResult
                               ++ [LF; LF]) in
    report
  else if length (issues scanResult) =? 0 then
    let report := report ++ (js "## Summary" ++ [LF; LF]
                    ++ js "No security issues found in workflows. Good job!"
                    ++ [LF; LF]) in
    report
  else
    let criticalIssues :=
      filter (fun issue => severity_eqb (severity issue) critical)
             (issues scanResult) in
    let highIssues :=
      filter (fun issue => severity_eqb (severity issue) high)
             (issues scanResult) in
    let mediumIssues :=
      filter (fun issue => severity_eqb (severity issue) medium)
             (issues scanResult) in
    let lowIssues :=
      filter (fun issue => severity_eqb (severity issue) low)
             (issues scanResult) in
    let report := report ++ (js "## Summary" ++ [LF; LF]) in
    let report := report ++ (js "- Critical: "
                               ++ decimal (length criticalIssues) ++ [LF]) in
    let report := report ++ (js "- High: "
                               ++ decimal (length highIssues) ++ [LF]) in
    let report := report ++ (js "- Medium: "
                               ++ decimal (length mediumIssues) ++ [LF]) in
    let report := report ++ (js "- Low: "
                               ++ decimal (length lowIssues) ++ [LF; LF]) in
    let report :=
      if 0 <? length criticalIssues then
        (report ++ (js "## Critical Issues" ++ [LF; LF]))
          ++ formatIssues criticalIssues
      else report in
    let report :=
      if 0 <? length highIssues then
        (report ++ (js "## High Issues" ++ [LF; LF]))
          ++ formatIssues highIssues
      else report in
    let report :=
      if 0 <? length mediumIssues then
        (report ++ (js "## Medium Issues" ++ [LF; LF]))
          ++ formatIssues mediumIssues
      else report in
    let report :=
      if 0 <? length lowIssues then
        (report ++ (js "## Low Issues" ++ [LF; LF]))
          ++ formatIssues lowIssues
      else report in
    report.

(** * Specification-side definitions *)

(** ** What a pattern matches, declaratively *)

(** Iterations of a quantifier body, each consuming at least one unit. *)
Inductive iter (R : jsstring -> jsstring -> Prop) : jsstring -> jsstring -> Prop :=
| iter_done : forall x, iter R x x
| iter_more : forall x y z,
    R x y -> length y < length x -> iter R y z -> iter R x z.

(** [den ic r x y]: from input [x] the pattern [r] can match a prefix and
    leave [y]. *)
Fixpoint den (ic : bool) (r : regex) (x y : jsstring) : Prop :=
  match r with
  | Empty => y = x
  | Char p => exists c, x = c :: y /\ char_matches ic p c = true
  | Class cl => exists c, x = c :: y /\ class_matches ic cl c = true
  | Seq a b => exists z, den ic a x z /\ den ic b z y
  | Alt a b => den ic a x y \/ den ic b x y
  | Star a => iter (den ic a) x y
  | Group a => den ic a x y
  | NegLookahead a => y = x /\ ~ exists z, den ic a x z
  end.

(** Pattern characters against input units, position by position. *)
Definition lit_match (ic : bool) (p w : jsstring) : Prop :=
  Forall2 (fun a c => char_matches ic a c = true) p w.

(** A pattern character that is not an ASCII letter: it matches only
    itself, whatever the flags. *)
Definition nonletter (a : codeunit) : bool :=
  ((a <? 65) || ((90 <? a) && (a <? 97)) || (122 <? a))%N.

(** The pattern matches somewhere in [s]. *)
Definition occurs (ic : bool) (r : regex) (s : jsstring) : Prop :=
  exists pre x y, s = pre ++ x /\ den ic r x y.

(** The answer of [test] for a rule of the table as loaded. *)
Definition fires (r : Rule.t) (ln : jsstring) : bool :=
  fst (RegExp.test (Rule.pattern r) ln).

(** A rule whose pattern is neither global nor sticky. *)
Definition plain (r : Rule.t) : Prop :=
  RegExp.global (Rule.pattern r) = false
  /\ RegExp.sticky (Rule.pattern r) = false.

Definition plain_store (st : Store) : Prop := Forall plain st.

(** ** Findings, as the specification words them *)

(** The finding a rule leaves on a line: the rule's fields copied, the line
    trimmed. *)
Definition finding_of (filename : jsstring) (lineNumber : nat)
           (ln : jsstring) (r : Rule.t) : WorkflowSecurityIssue :=
  {| file := filename;
     line := lineNumber;
     rule := Rule.id r;
     description := Rule.description r;
     severity := Rule.severity r;
     remediation := Rule.remediation r;
     content := trim ln |}.

(** One finding per rule that matches the line, in rule-set order. *)
Definition line_findings (rules : list Rule.t) (filename : jsstring)
           (lineNumber : nat) (ln : jsstring) : list WorkflowSecurityIssue :=
  map (finding_of filename lineNumber ln) (filter (fun r => fires r ln) rules).

(** The lines of a file from number [first] on, in line order. *)
Fixpoint lines_findings (rules : list Rule.t) (filename : jsstring)
         (first : nat) (lines : list jsstring) : list WorkflowSecurityIssue :=
  match lines with
  | [] => []
  | ln :: rest =>
      line_findings rules filename first ln
        ++ lines_findings rules filename (S first) rest
  end.

(** The findings of one file: its lines are numbered from 1. *)
Definition file_findings (rules : list Rule.t) (filename content : jsstring)
  : list WorkflowSecurityIssue :=
  lines_findings rules filename 1 (split_lf content).

(** The findings of a sequence of (filename, content) pairs, in file order. *)
Definition scan_findings (rules : list Rule.t)
           (files : list (jsstring * jsstring)) : list WorkflowSecurityIssue :=
  flat_map (fun f => file_findings rules (fst f) (snd f)) files.

Section Provider.

Variable base64_decode : jsstring -> jsstring.
Variable spread_overflow : nat -> option Thrown.
Variable this : WorkflowsScanner.

Definition listing_request (repo : jsstring) : Request :=
  mkRequest (owner this) repo (js ".github/workflows").

Definition file_request (repo : jsstring) (f : DirEntry) : Request :=
  mkRequest (owner this) repo (path f).

(** The (filename, content) pairs the source provider supplies for a
    listing: the workflow files among the entries, each with its decoded
    text, in listing order. *)
Fixpoint provided_files (repo : jsstring) (entries : list DirEntry)
  : list (jsstring * jsstring) :=
  match entries with
  | [] => []
  | f :: rest =>
      if skipped f then provided_files repo rest
      else match octokit_getContent this (file_request repo f) with
           | Normal (DataObject (Some text)) =>
               (name f, base64_decode text) :: provided_files repo rest
           | _ => provided_files repo rest
           end
  end.

(** The first thing thrown while the listed workflow files are gone
    through, if any: by the request for a file's content, or by the engine
    when the findings of a file are more than one spread call takes. *)
Fixpoint first_failure (rules : list Rule.t) (repo : jsstring)
         (entries : list DirEntry) : option Thrown :=
  match entries with
  | [] => None
  | f :: rest =>
      if skipped f then first_failure rules repo rest
      else match octokit_getContent this (file_request repo f) with
           | Abrupt e => Some e
           | Normal (DataObject (Some text)) =>
               match spread_overflow
                       (length (file_findings rules (name f)
                                              (base64_decode text))) with
               | Some e => Some e
               | None => first_failure rules repo rest
               end
           | Normal _ => first_failure rules repo rest
           end
  end.

(** The findings of some listed workflow file are more than the engine
    takes in one spread call. *)
Definition spread_fails (rules : list Rule.t) (repo : jsstring)
           (entries : list DirEntry) : Prop :=
  exists f raw e,
    In f entries /\ skipped f = false
    /\ octokit_getContent this (file_request repo f)
       = Normal (DataObject (Some raw))
    /\ spread_overflow
         (length (file_findings rules (name f) (base64_decode raw)))
       = Some e.

(** Some request of the scan for a workflow file's content throws. *)
Definition file_fetch_fails (repo : jsstring) (entries : list DirEntry)
  : Prop :=
  exists f e, In f entries /\ skipped f = false
              /\ octokit_getContent this (file_request repo f) = Abrupt e.

(** The workflow source could not be retrieved: the listing request throws,
    or does not answer with a directory, or the request for the content of
    one of the listed workflow files throws. *)
Definition retrieval_failed (repo : jsstring) : Prop :=
  match octokit_getContent this (listing_request repo) with
  | Abrupt _ => True
  | Normal (DataObject _) => True
  | Normal (DataArray entries) => file_fetch_fails repo entries
  end.

End Provider.

(** Collecting the findings threw although every request was answered: the
    listing is a directory and the findings of one of its workflow files
    are more than the engine takes in one spread call. *)
Definition collecting_failed (base64_decode : jsstring -> jsstring)
           (spread_overflow : nat -> option Thrown)
           (this : WorkflowsScanner) (repo : jsstring) : Prop :=
  match octokit_getContent this (listing_request this repo) with
  | Normal (DataArray entries) =>
      spread_fails base64_decode spread_overflow this securityRules repo
                   entries
  | _ => False
  end.

(** The entry is fetched without a throw, and what it yields passes the
    spread call. *)
Definition passes (base64_decode : jsstring -> jsstring)
           (spread_overflow : nat -> option Thrown)
           (this : WorkflowsScanner) (repo : jsstring) (g : DirEntry)
  : Prop :=
  exists d,
    octokit_getContent this (file_request this repo g) = Normal d
    /\ forall raw,
         d = DataObject (Some raw) ->
         spread_overflow
           (length (file_findings securityRules (name g)
                                  (base64_decode raw))) = None.

Definition thrown_text (e : Thrown) : jsstring :=
  match e with
  | ThrownError msg => msg
  | ThrownOther text => text
  end.

(** The three shapes of result [scanRepository] builds. *)
Definition result_error (repo : jsstring) (e : Thrown) : WorkflowScanResult :=
  {| repository := repo;
     success := false;
     message := js "Error scanning workflows: " ++ thrown_text e;
     issues := [] |}.

Definition result_no_directory (repo : jsstring) : WorkflowScanResult :=
  {| repository := repo;
     success := false;
     message := js "No workflows directory found or not a directory";
     issues := [] |}.

Definition summary_message (found : list WorkflowSecurityIssue) : jsstring :=
  match found with
  | [] => js "No security issues found in workflows"
  | _ :: _ => js "Found " ++ decimal (length found)
                 ++ js " security issues in workflows"
  end.

Definition result_scanned (repo : jsstring)
           (found : list WorkflowSecurityIssue) : WorkflowScanResult :=
  {| repository := repo;
     success := true;
     message := summary_message found;
     issues := found |}.

(** The result of a scan in closed form, by what the provider answers. *)
Definition scan_outcome (base64_decode : jsstring -> jsstring)
           (spread_overflow : nat -> option Thrown)
           (this : WorkflowsScanner) (rules : list Rule.t) (repo : jsstring)
  : WorkflowScanResult :=
  match octokit_getContent this (listing_request this repo) with
  | Abrupt e => result_error repo e
  | Normal (DataObject _) => result_no_directory repo
  | Normal (DataArray entries) =>
      match first_failure base64_decode spread_overflow this rules repo
                          entries with
      | Some e => result_error repo e
      | None =>
          result_scanned repo
            (scan_findings rules
               (provided_files base64_decode this repo entries))
      end
  end.

(** ** What each rule looks for, in words of strings *)

Definition spaces (w : jsstring) : bool := forallb isWhiteSpace w.

Definition is_quote (c : codeunit) : bool :=
  ((c =? SQUOTE) || (c =? DQUOTE))%N.

(** Equal up to the case of ASCII letters. *)
Definition eq_nocase (a b : jsstring) : Prop :=
  map (canonicalize true) a = map (canonicalize true) b.

(** [s] has a piece of shape [P] somewhere inside. *)
Definition contains (P : jsstring -> Prop) (s : jsstring) : Prop :=
  exists pre m post, s = pre ++ m ++ post /\ P m.

(** script-injection: the interpolation of the issue title. *)
Definition injection_shape (m : jsstring) : Prop :=
  exists ws1 ws2,
    m = js "${{" ++ ws1 ++ js "github.event.issue.title" ++ ws2 ++ js "}}"
    /\ spaces ws1 = true /\ spaces ws2 = true.

(** third-party-action-review, as the pattern behaves: some [uses:] whose
    very next characters are neither [actions/] nor [./]. *)
Definition uses_not_directly_followed (s : jsstring) : Prop :=
  exists pre post,
    s = pre ++ js "uses:" ++ post
    /\ startsWith post (js "actions/") = false
    /\ startsWith post (js "./") = false.

(** pin-actions-versions: a mutable ref after the at sign. *)
Definition mutable_ref (ref : jsstring) : Prop :=
  eq_nocase ref (js "main") \/ eq_nocase ref (js "master")
  \/ eq_nocase ref (js "latest")
  \/ (ref <> [] /\ forallb isDigit ref = true).

Definition pin_shape (m : jsstring) : Prop :=
  exists u ws nm ref,
    m = u ++ ws ++ nm ++ js "@" ++ ref
    /\ eq_nocase u (js "uses:") /\ spaces ws = true
    /\ nm <> [] /\ forallb (fun c => negb (c =? 64)%N) nm = true
    /\ mutable_ref ref.

(** no-plaintext-secrets: a keyword, a colon, optional white space and a
    non-empty run without quotes between two quote characters. *)
Definition secret_keyword (kw : jsstring) : Prop :=
  eq_nocase kw (js "password") \/ eq_nocase kw (js "token")
  \/ eq_nocase kw (js "key") \/ eq_nocase kw (js "secret").

Definition secret_shape (m : jsstring) : Prop :=
  exists kw ws q1 body q2,
    m = kw ++ js ":" ++ ws ++ [q1] ++ body ++ [q2]
    /\ secret_keyword kw /\ spaces ws = true
    /\ is_quote q1 = true
    /\ body <> [] /\ forallb (fun c => negb (is_quote c)) body = true
    /\ is_quote q2 = true.

(** ** Line endings *)

(** Every carriage return is immediately followed by a line feed. *)
Fixpoint crlf_only (s : jsstring) : bool :=
  match s with
  | [] => true
  | c :: s' =>
      (if (c =? CR)%N
       then match s' with
            | d :: _ => (d =? LF)%N
            | [] => false
            end
       else true)
      && crlf_only s'
  end.

(** A line against the same line of the stripped content: equal, or with
    one carriage return more at the end. *)
Definition same_but_cr (l l' : jsstring) : Prop := l = l' \/ l = l' ++ [CR].

(** The content with all carriage returns removed. *)
Definition strip_cr (s : jsstring) : jsstring :=
  filter (fun c => negb (c =? CR)%N) s.

(** [m] is not empty and its last unit is not [c]. *)
Definition ends_not (c : codeunit) (m : jsstring) : Prop :=
  exists m' d, m = m' ++ [d] /\ d <> c.

(** ** Selecting findings *)

(** The findings of rule [rid] on line number [n]. *)
Definition findings_at (rid : jsstring) (n : nat)
           (found : list WorkflowSecurityIssue) : list WorkflowSecurityIssue :=
  filter (fun i => jsstring_eqb (rule i) rid && (line i =? n)) found.

(** The wording [<name-containing-keyword>: "<literal>"]: a name that has a
    keyword somewhere inside, a colon, a space, and a literal in double
    quotes. *)
Definition contains_nocase (name w : jsstring) : Prop :=
  exists a m b, name = a ++ m ++ b /\ eq_nocase m w.

Definition keyword_named_assignment (ln : jsstring) : Prop :=
  exists key body,
    ln = key ++ js ": " ++ [DQUOTE] ++ body ++ [DQUOTE]
    /\ (contains_nocase key (js "password") \/ contains_nocase key (js "token")
        \/ contains_nocase key (js "key") \/ contains_nocase key (js "secret")).

(** ** The report, as the specification words it *)

Definition severities : list SecuritySeverity := [critical; high; medium; low].

Definition severity_label (sev : SecuritySeverity) : jsstring :=
  match sev with
  | critical => js "Critical"
  | high => js "High"
  | medium => js "Medium"
  | low => js "Low"
  end.

(** The findings of one severity, in their order in the result. *)
Definition of_severity (sev : SecuritySeverity)
           (found : list WorkflowSecurityIssue) : list WorkflowSecurityIssue :=
  filter (fun i => severity_eqb (severity i) sev) found.

(** The number of findings of one severity. *)
Fixpoint count_severity (sev : SecuritySeverity)
         (found : list WorkflowSecurityIssue) : nat :=
  match found with
  | [] => 0
  | i :: rest =>
      (if severity_eqb (severity i) sev then 1 else 0)
      + count_severity sev rest
  end.

Definition summary_line (found : list WorkflowSecurityIssue)
           (sev : SecuritySeverity) : jsstring :=
  js "- " ++ severity_label sev ++ js ": "
     ++ decimal (count_severity sev found) ++ [LF].

(** What the report shows of one finding: rule, file and line, description,
    the offending text in a code fence, remediation, a rule-off. *)
Definition finding_block (i : WorkflowSecurityIssue) : jsstring :=
  js "### " ++ rule i ++ [LF; LF]
  ++ js "**File**: " ++ [BACKTICK] ++ file i ++ [BACKTICK]
  ++ js " (line " ++ decimal (line i) ++ js ")" ++ [LF; LF]
  ++ js "**Description**: " ++ description i ++ [LF; LF]
  ++ js "**Code**:" ++ [LF] ++ [BACKTICK; BACKTICK; BACKTICK] ++ js "yaml"
  ++ [LF] ++ content i ++ [LF] ++ [BACKTICK; BACKTICK; BACKTICK] ++ [LF; LF]
  ++ js "**Remediation**: " ++ remediation i ++ [LF; LF]
  ++ js "---" ++ [LF; LF].

(** The subsection of one severity: nothing when it has no finding. *)
Definition severity_section (found : list WorkflowSecurityIssue)
           (sev : SecuritySeverity) : jsstring :=
  match of_severity sev found with
  | [] => []
  | fs => js "## " ++ severity_label sev ++ js " Issues" ++ [LF; LF]
             ++ concat (map finding_block fs)
  end.

Definition render_findings (r : WorkflowScanResult) : jsstring :=
  js "# Workflow Security Scan Report for " ++ repository r ++ [LF; LF]
  ++ js "## Summary" ++ [LF; LF]
  ++ concat (map (summary_line (issues r)) severities) ++ [LF]
  ++ concat (map (severity_section (issues r)) severities).

(** [a] occurs in [s] as a contiguous piece. *)
Definition infix_of (a s : jsstring) : Prop :=
  exists pre post, s = pre ++ a ++ post.

(** ** A sample provider

    A repository whose workflow directory lists two workflow files, a
    directory and a text file; every other request throws. *)
Module Sample.

Definition ci_yml : jsstring :=
  js "steps:" ++ [CR; LF]
  ++ js "  - uses: actions/checkout@main" ++ [CR; LF]
  ++ js "  - run: echo ${{ github.event.issue.title }}" ++ [CR; LF].

Definition release_yaml : jsstring :=
  js "env:" ++ [LF] ++ js "  API_KEY: 'abc123'" ++ [LF].

Definition entries : list DirEntry :=
  [ mkEntry (js "file") (js "ci.yml") (js ".github/workflows/ci.yml");
    mkEntry (js "dir") (js "scripts") (js ".github/workflows/scripts");
    mkEntry (js "file") (js "notes.txt") (js ".github/workflows/notes.txt");
    mkEntry (js "file") (js "release.yaml")
            (js ".github/workflows/release.yaml") ].

Definition getContent (req : Request) : Completion ContentData :=
  if jsstring_eqb (req_path req) (js ".github/workflows") then
    if jsstring_eqb (req_repo req) (js "empty") then Normal (DataArray [])
    else if jsstring_eqb (req_repo req) (js "app")
    then Normal (DataArray entries)
    else Abrupt (ThrownError (js "Not Found"))
  else if jsstring_eqb (req_path req) (js ".github/workflows/ci.yml")
  then Normal (DataObject (Some ci_yml))
  else if jsstring_eqb (req_path req) (js ".github/workflows/release.yaml")
  then Normal (DataObject (Some release_yaml))
  else Abrupt (ThrownError (js "Not Found")).

Definition scanner : WorkflowsScanner := mkScanner getContent (js "acme").

(** Stands in for the base64 decoder: the sample answers carry their text
    as it is. *)
Definition decode (s : jsstring) : jsstring := s.

(** An engine that takes up to 125000 spread arguments. *)
Definition spread (n : nat) : option Thrown :=
  if (125000 <? N.of_nat n)%N
  then Some (ThrownError (js "Maximum call stack size exceeded"))
  else None.

End Sample.

(** ** Lines and trimmed text *)

(** [lines.join("\n")]: the inverse reading of [split_lf]. *)
Fixpoint join_lf (lines : list jsstring) : jsstring :=
  match lines with
  | [] => []
  | [l] => l
  | l :: rest => l ++ LF :: join_lf rest
  end.

(** Neither the first nor the last unit of [s] is white space. *)
Definition no_outer_space (s : jsstring) : Prop :=
  isWhiteSpace (hd 0%N s) = false /\ isWhiteSpace (last s 0%N) = false.

(** [m] is not empty and starts with a unit that is not white space. *)
Definition starts_solid (m : jsstring) : Prop :=
  exists d m', m = d :: m' /\ isWhiteSpace d = false.

(** [m] is not empty and ends with a unit that is not white space. *)
Definition ends_solid (m : jsstring) : Prop :=
  exists m' d, m = m' ++ [d] /\ isWhiteSpace d = false.

(** ** More sample providers *)

Module Sample2.

(** As [Sample.getContent], except that the text file of the listing, which
    is not a workflow file, now has content that would match a rule, and
    the listed directory answers with an array. *)
Definition getContent (req : Request) : Completion ContentData :=
  if jsstring_eqb (req_path req) (js ".github/workflows/notes.txt")
  then Normal (DataObject (Some (js "password: 'hunter2'")))
  else if jsstring_eqb (req_path req) (js ".github/workflows/scripts")
  then Normal (DataArray [])
  else Sample.getContent req.

Definition scanner : WorkflowsScanner := mkScanner getContent (js "acme").

(** A listing of three workflow files where the request for the second
    one throws. *)
Definition entries_broken : list DirEntry :=
  [ mkEntry (js "file") (js "ci.yml") (js ".github/workflows/ci.yml");
    mkEntry (js "file") (js "gone.yml") (js ".github/workflows/gone.yml");
    mkEntry (js "file") (js "release.yaml")
            (js ".github/workflows/release.yaml") ].

Definition getContent_broken (req : Request) : Completion ContentData :=
  if jsstring_eqb (req_path req) (js ".github/workflows")
  then Normal (DataArray entries_broken)
  else if jsstring_eqb (req_path req) (js ".github/workflows/gone.yml")
  then Abrupt (ThrownError (js "Server Error"))
  else Sample.getContent req.

Definition scanner_broken : WorkflowsScanner :=
  mkScanner getContent_broken (js "acme").

(** A listing without any workflow file. *)
Definition entries_none : list DirEntry :=
  [ mkEntry (js "dir") (js "ci.yml") (js ".github/workflows/ci.yml");
    mkEntry (js "file") (js "README.md") (js ".github/workflows/README.md");
    mkEntry (js "file") (js "build.YML") (js ".github/workflows/build.YML") ].

Definition getContent_none (req : Request) : Completion ContentData :=
  if jsstring_eqb (req_path req) (js ".github/workflows")
  then Normal (DataArray entries_none)
  else Normal (DataObject (Some (js "password: 'hunter2'"))).

Definition scanner_none : WorkflowsScanner :=
  mkScanner getContent_none (js "acme").

(** A listing of one workflow file of 170000 lines [uses:], about one
    megabyte.  Every line draws one finding, of the third rule. *)
Definition big_yml : jsstring :=
  concat (repeat (js "uses:" ++ [LF]) (N.to_nat 170000)).

Definition entries_big : list DirEntry :=
  [ mkEntry (js "file") (js "big.yml") (js ".github/workflows/big.yml") ].

Definition getContent_big (req : Request) : Completion ContentData :=
  if jsstring_eqb (req_path req) (js ".github/workflows")
  then Normal (DataArray entries_big)
  else Normal (DataObject (Some big_yml)).

Definition scanner_big : WorkflowsScanner :=
  mkScanner getContent_big (js "acme").

End Sample2.

(** The first line of every report. *)
Definition report_title (repo : jsstring) : jsstring :=
  js "# Workflow Security Scan Report for " ++ repo ++ [LF; LF].

(** * The callers of the scanner (index.ts, cli.ts) *)

(** ** Console and world *)

Inductive Output : Type :=
| Stdout (text : jsstring)   (* console.log *)
| Stderr (text : jsstring)   (* console.error *).

(** What the callers can change: the shared rule table and the console. *)
Record World : Type := mkWorld {
  table : Store;
  console : list Output
}.

Definition IO (A : Type) : Type := World -> Completion A * World.

Definition io_ret {A} (a : A) : IO A := fun w => (Normal a, w).

Definition io_bind {A B} (m : IO A) (f : A -> IO B) : IO B :=
  fun w =>
    match m w with
    | (Normal a, w') => f a w'
    | (Abrupt e, w') => (Abrupt e, w')
    end.

Definition io_try {A} (body : IO A) (handler : Thrown -> IO A) : IO A :=
  fun w =>
    match body w with
    | (Normal a, w') => (Normal a, w')
    | (Abrupt e, w') => handler e w'
    end.

(** A request that does not touch the world and may throw. *)
Definition io_await {A} (c : Completion A) : IO A := fun w => (c, w).

(** A method of the scanner, run on the rule table of the world. *)
Definition io_scan {A} (m : M A) : IO A :=
  fun w =>
    let (c, st') := m (table w) in (c, mkWorld st' (console w)).

Definition console_log (text : jsstring) : IO unit :=
  fun w => (Normal tt, mkWorld (table w) (console w ++ [Stdout text])).

Definition console_error (text : jsstring) : IO unit :=
  fun w => (Normal tt, mkWorld (table w) (console w ++ [Stderr text])).

Declare Scope io_scope.
Delimit Scope io_scope with io.
Notation "x <- m ;; k" := (io_bind m (fun x => k))
  (at level 61, m at next level, right associativity) : io_scope.
Notation "m ;;; k" := (io_bind m (fun _ => k))
  (at level 61, right associativity) : io_scope.

(** ** Plain objects used as string maps

    The own properties of an object created by [{}], by name.  Assigning
    to the name [__proto__] reaches the setter inherited from
    [Object.prototype], which ignores a string value and creates no own
    property.  The list keeps insertion order; only lookup is used below. *)
Definition JsRecord := list (jsstring * jsstring).

Fixpoint obj_put (o : JsRecord) (k v : jsstring) : JsRecord :=
  match o with
  | [] => [(k, v)]
  | (k0, v0) :: rest =>
      if jsstring_eqb k0 k then (k, v) :: rest
      else (k0, v0) :: obj_put rest k v
  end.

(** [o[k] = v] *)
Definition obj_set (o : JsRecord) (k v : jsstring) : JsRecord :=
  if jsstring_eqb k (js "__proto__") then o else obj_put o k v.

(** The own property [k] of [o], if any. *)
Fixpoint obj_get (o : JsRecord) (k : jsstring) : option jsstring :=
  match o with
  | [] => None
  | (k0, v0) :: rest => if jsstring_eqb k0 k then Some v0 else obj_get rest k
  end.

(** ** RepositoryGuardian.scanAllRepositories (index.ts) *)

(** An element of a [repos.listForOrg] response. *)
Record OrgRepo : Type := mkOrgRepo {
  repo_name : jsstring;
  repo_private : bool
}.

(** JavaScript truthiness of [string | undefined]. *)
Definition truthy (s : option jsstring) : bool :=
  match s with
  | Some (_ :: _) => true
  | _ => false
  end.

(** The fields of the class that its scanning method reads. *)
Record RepositoryGuardian : Type := mkGuardian {
  organization : jsstring;
  workflowsScanner : option WorkflowsScanner
}.

Section Guardian.

Variable base64_decode : jsstring -> jsstring.
Variable spread_overflow : nat -> option Thrown.

(** [new Octokit({ auth })]: the two endpoints used, by the token given. *)
Variable Octokit_getContent :
  option jsstring -> Request -> Completion ContentData.
Variable Octokit_listForOrg :
  option jsstring -> jsstring -> Completion (list OrgRepo).

(** [process.env.GITHUB_TOKEN] *)
Variable GITHUB_TOKEN : option jsstring.

(** The constructor of [WorkflowsScanner]. *)
Definition new_WorkflowsScanner (token owner : jsstring) : WorkflowsScanner :=
  {| octokit_getContent := Octokit_getContent (Some token);
     owner := owner |}.

(** The constructor of [RepositoryGuardian]: the scanner is made only when
    both the token and the organization are truthy. *)
Definition new_RepositoryGuardian (org : jsstring) : RepositoryGuardian :=
  {| organization := org;
     workflowsScanner :=
       match GITHUB_TOKEN with
       | Some token =>
           if truthy GITHUB_TOKEN && truthy (Some org)
           then Some (new_WorkflowsScanner token org)
           else None
       | None => None
       end |}.

Local Open Scope io_scope.

(** The loop [for (const repo of repos)] of [scanAllRepositories]. *)
Fixpoint scan_each (scanner : WorkflowsScanner) (repos : list OrgRepo)
         (scanResults : JsRecord) : IO JsRecord :=
  match repos with
  | [] => io_ret scanResults
  | repo :: rest =>
      console_log (js "Scanning " ++ repo_name repo
                      ++ js " for workflow security issues...") ;;;
      result <- io_scan (scanRepository base64_decode spread_overflow
                                        scanner (repo_name repo)) ;;
      scan_each scanner rest
                (obj_set scanResults (repo_name repo)
                         (generateReport result))
  end.

Definition scanAllRepositories (this : RepositoryGuardian) : IO JsRecord :=
  match workflowsScanner this with
  | None =>
      io_ret [(js "error",
               js "Workflow scanner not initialized. Make sure GITHUB_TOKEN and organization are set.")]
  | Some scanner =>
      io_try
        (repos <- io_await (Octokit_listForOrg GITHUB_TOKEN
                                               (organization this)) ;;
         scanResults <- scan_each scanner repos [] ;;
         io_ret scanResults)
        (fun error =>
           io_ret [(js "error",
                    js "Error scanning repositories: " ++ thrown_text error)])
  end.

(** ** listRepositories (cli.ts) *)

(** The callback of [repos.forEach((repo, index) => ...)], from [index]. *)
Fixpoint print_repos (repos : list OrgRepo) (index : nat) : IO unit :=
  match repos with
  | [] => io_ret tt
  | repo :: rest =>
      console_log (decimal (index + 1) ++ js ". " ++ repo_name repo
                     ++ js " ("
                     ++ (if repo_private repo then js "Private"
                         else js "Public")
                     ++ js ")") ;;;
      print_repos rest (index + 1)
  end.

Definition listRepositories (org : jsstring) : IO unit :=
  io_try
    (repos <- io_await (Octokit_listForOrg GITHUB_TOKEN org) ;;
     console_log ([LF] ++ js "Repositories in organization " ++ org
                    ++ js ":") ;;;
     print_repos repos 0 ;;;
     console_log ([LF] ++ js "Total: " ++ decimal (length repos)
                    ++ js " repositories"))
    (fun error =>
       console_error (js "Error listing repositories: "
                         ++ thrown_text error)).

End Guardian.

(** The line [scanAllRepositories] logs before it scans a repository. *)
Definition scanning_line (repo : OrgRepo) : Output :=
  Stdout (js "Scanning " ++ repo_name repo
             ++ js " for workflow security issues...").

(** The line [listRepositories] prints for the repository at [index]. *)
Definition listing_line (index : nat) (repo : OrgRepo) : Output :=
  Stdout (decimal (index + 1) ++ js ". " ++ repo_name repo ++ js " ("
            ++ (if repo_private repo then js "Private" else js "Public")
            ++ js ")").

(** The name [k] is among the listed repositories. *)
Definition listed (repos : list OrgRepo) (k : jsstring) : bool :=
  existsb (fun repo => jsstring_eqb (repo_name repo) k) repos.

(** A sample organization: three repositories, the first two as in
    [Sample], and a token. *)
Module SampleOrg.

Definition repos : list OrgRepo :=
  [ mkOrgRepo (js "app") true;
    mkOrgRepo (js "missing") false;
    mkOrgRepo (js "__proto__") false;
    mkOrgRepo (js "empty") true ].

Definition getContent (auth : option jsstring) (req : Request)
  : Completion ContentData :=
  if truthy auth then Sample.getContent req
  else Abrupt (ThrownError (js "Bad credentials")).

Definition listForOrg (auth : option jsstring) (org : jsstring)
  : Completion (list OrgRepo) :=
  if truthy auth && jsstring_eqb org (js "acme") then Normal repos
  else Abrupt (ThrownError (js "Not Found")).

Definition token : option jsstring := Some (js "ghp_example").

Definition world : World := mkWorld securityRules [].

End SampleOrg.

(** ** Configuration (index.ts) *)

(** [a || b || c] on two values of type [string | undefined] and a string:
    the first of [a], [b] that is a non-empty string, otherwise [c]. *)
Definition first_truthy (a b : option jsstring) (c : jsstring) : jsstring :=
  match a with
  | Some (x :: s) => x :: s
  | _ => match b with
         | Some (y :: t) => y :: t
         | _ => c
         end
  end.

(** [config.get("repository-guardian:organization") ||
    process.env.GITHUB_ORGANIZATION || ""] with the empty default. *)
Definition config_organization (cfg env : option jsstring) : jsstring :=
  first_truthy cfg env [].

(** The default branch, with default [main]. *)
Definition config_defaultBranch (cfg env : option jsstring) : jsstring :=
  first_truthy cfg env (js "main").

(** The scan frequency, with default [daily]. *)
Definition config_scanFrequency (cfg env : option jsstring) : jsstring :=
  first_truthy cfg env (js "daily").

(** [s.split(sep)] for a separator of one unit. *)
Fixpoint split_on (sep : codeunit) (s : jsstring) : list jsstring :=
  match s with
  | [] => [[]]
  | c :: s' =>
      if (c =? sep)%N then [] :: split_on sep s'
      else match split_on sep s' with
           | l :: ls => (c :: l) :: ls
           | [] => [[c]]
           end
  end.

(** [pieces.join(sep)] for a separator of one unit. *)
Fixpoint join_on (sep : codeunit) (pieces : list jsstring) : jsstring :=
  match pieces with
  | [] => []
  | [l] => l
  | l :: rest => l ++ sep :: join_on sep rest
  end.

Definition COMMA : codeunit := 44%N.

(** The required status checks: the configured array if there is one (an
    array is truthy even when empty), otherwise the pieces of the
    environment variable between commas if it is set (again an array),
    otherwise the two default checks. *)
Definition config_requiredStatusChecks (cfg : option (list jsstring))
           (env : option jsstring) : list jsstring :=
  match cfg with
  | Some checks => checks
  | None =>
      match env with
      | Some s => split_on COMMA s
      | None => [js "tests"; js "linting"]
      end
  end.

(** * Properties *)

(** ** The matcher against its declarative reading *)

Lemma iter_nil_inv (R : jsstring -> jsstring -> Prop) (y : jsstring) :
  iter R [] y -> y = [].
Proof.
  intros H. inversion H; subst; [reflexivity | simpl in *; lia].
Qed.

Lemma den_suffix ic r : forall x y, den ic r x y -> exists p, x = p ++ y.
Proof.
  induction r; simpl; intros x y H.
  - subst. now exists [].
  - destruct H as (c0 & -> & _). now exists [c0].
  - destruct H as (c0 & -> & _). now exists [c0].
  - destruct H as (z & Ha & Hb).
    destruct (IHr1 _ _ Ha) as (p & ->), (IHr2 _ _ Hb) as (q & ->).
    exists (p ++ q). now rewrite app_assoc.
  - destruct H as [H | H]; eauto.
  - induction H as [x | x y z Hxy _ _ IH].
    + now exists [].
    + destruct (IHr _ _ Hxy) as (p & ->), IH as (q & ->).
      exists (p ++ q). now rewrite app_assoc.
  - eauto.
  - destruct H as (-> & _). now exists [].
Qed.

Section MatcherSpec.

Variable ic : bool.

Lemma repeat_loop_S m k fuel x :
  repeat_loop m k (S fuel) x =
  match m x (fun y => if length y <? length x then repeat_loop m k fuel y
                      else None) with
  | Some e => Some e
  | None => k x
  end.
Proof. reflexivity. Qed.

Lemma repeat_loop_spec a
  (IH : forall x k, matcher ic a x k <> None <->
                    exists y, den ic a x y /\ k y <> None) k :
  forall fuel x, length x <= fuel ->
    (repeat_loop (matcher ic a) k fuel x <> None <->
     exists y, iter (den ic a) x y /\ k y <> None).
Proof.
  induction fuel as [| fuel IHf]; intros x Hlen.
  - destruct x; [| simpl in Hlen; lia]. simpl. split.
    + intros H. exists []. split; [constructor | exact H].
    + intros (y & Hit & Hk). now rewrite (iter_nil_inv _ _ Hit) in Hk.
  - rewrite repeat_loop_S.
    destruct (matcher ic a x _) eqn:E.
    + split; [intros _ | congruence].
      assert (E' : matcher ic a x
                (fun y => if length y <? length x
                          then repeat_loop (matcher ic a) k fuel y
                          else None) <> None) by congruence.
      apply IH in E'. destruct E' as (y & Hd & Hk).
      destruct (Nat.ltb_spec (length y) (length x)) as [Hlt | Hge];
        [| congruence].
      apply IHf in Hk; [| lia]. destruct Hk as (z & Hit & Hz).
      exists z. split; [econstructor; eauto | exact Hz].
    + split.
      * intros Hk. exists x. split; [constructor | exact Hk].
      * intros (y & Hit & Hk).
        inversion Hit as [| x0 y0 z0 Hd Hlt Hit']; subst; [exact Hk |].
        exfalso.
        assert (E' : matcher ic a x
                  (fun y => if length y <? length x
                            then repeat_loop (matcher ic a) k fuel y
                            else None) <> None).
        { apply IH. exists y0. split; [exact Hd |].
          destruct (Nat.ltb_spec (length y0) (length x)); [| lia].
          apply IHf; [lia |]. eauto. }
        apply E'. exact E.
Qed.

Lemma matcher_spec r : forall x k,
  matcher ic r x k <> None <-> exists y, den ic r x y /\ k y <> None.
Proof.
  induction r; intros x k.
  - simpl. split; [intros H; eauto | intros (y & -> & H); exact H].
  - simpl. destruct x as [| c0 x].
    + split; [congruence | intros (y & (c1 & Hx & _) & _); discriminate].
    + destruct (char_matches ic c c0) eqn:E.
      * split; [intros H; exists x; eauto |].
        intros (y & (c1 & Hx & _) & H). now inversion Hx; subst.
      * split; [congruence |].
        intros (y & (c1 & Hx & Hc) & _). inversion Hx; subst. congruence.
  - simpl. destruct x as [| c0 x].
    + split; [congruence | intros (y & (c1 & Hx & _) & _); discriminate].
    + destruct (class_matches ic cl c0) eqn:E.
      * split; [intros H; exists x; eauto |].
        intros (y & (c1 & Hx & _) & H). now inversion Hx; subst.
      * split; [congruence |].
        intros (y & (c1 & Hx & Hc) & _). inversion Hx; subst. congruence.
  - simpl. rewrite IHr1. split.
    + intros (z & Ha & Hb). apply IHr2 in Hb. destruct Hb as (y & Hb & Hk).
      eauto.
    + intros (y & (z & Ha & Hb) & Hk). exists z. split; [exact Ha |].
      apply IHr2. eauto.
  - simpl. destruct (matcher ic r1 x k) eqn:E.
    + split; [intros _ | congruence].
      assert (E' : matcher ic r1 x k <> None) by congruence.
      apply IHr1 in E'. destruct E' as (y & Hd & Hk). eauto.
    + rewrite IHr2. split.
      * intros (y & Hd & Hk). eauto.
      * intros (y & [Hd | Hd] & Hk); [| eauto].
        exfalso. assert (E' : matcher ic r1 x k <> None) by (apply IHr1; eauto).
        congruence.
  - simpl. apply repeat_loop_spec; [exact IHr | lia].
  - simpl. apply IHr.
  - simpl. destruct (matcher ic r x (fun y => Some y)) eqn:E.
    + split; [congruence |].
      intros (y & (-> & Hno) & _). exfalso. apply Hno.
      assert (E' : matcher ic r x (fun y => Some y) <> None) by congruence.
      apply IHr in E'. destruct E' as (z & Hz & _). eauto.
    + split.
      * intros Hk. exists x. split; [| exact Hk]. split; [reflexivity |].
        intros (z & Hz).
        assert (E' : matcher ic r x (fun y => Some y) <> None)
          by (apply IHr; exists z; split; [exact Hz | discriminate]).
        congruence.
      * intros (y & (-> & _) & Hk). exact Hk.
Qed.

Lemma search_spec r : forall s,
  search ic r false s <> None <-> occurs ic r s.
Proof.
  induction s as [| c s IHs].
  - simpl. destruct (matcher ic r [] _) eqn:E.
    + split; [intros _ | congruence].
      assert (E' : matcher ic r [] (fun y => Some y) <> None) by congruence.
      apply matcher_spec in E'. destruct E' as (y & Hd & _).
      exists [], [], y. auto.
    + split; [congruence |].
      intros (pre & x & y & Hs & Hd).
      symmetry in Hs. apply app_eq_nil in Hs. destruct Hs as (-> & ->).
      assert (E' : matcher ic r [] (fun y => Some y) <> None)
        by (apply matcher_spec; exists y; split; [exact Hd | discriminate]).
      congruence.
  - simpl. destruct (matcher ic r (c :: s) _) eqn:E.
    + split; [intros _ | congruence].
      assert (E' : matcher ic r (c :: s) (fun y => Some y) <> None)
        by congruence.
      apply matcher_spec in E'. destruct E' as (y & Hd & _).
      exists [], (c :: s), y. auto.
    + rewrite IHs. split.
      * intros (pre & x & y & -> & Hd). exists (c :: pre), x, y. auto.
      * intros (pre & x & y & Hs & Hd). destruct pre as [| c0 pre].
        -- simpl in Hs. subst x. exfalso.
           assert (E' : matcher ic r (c :: s) (fun y => Some y) <> None)
             by (apply matcher_spec; exists y; split;
                 [exact Hd | discriminate]).
           congruence.
        -- inversion Hs; subst. exists pre, x, y. auto.
Qed.

End MatcherSpec.

(** ** [test] on a pattern without the g and y flags *)

Lemma test_plain R S :
  RegExp.global R = false -> RegExp.sticky R = false ->
  RegExp.test R S = (fst (RegExp.test R S), R).
Proof.
  intros Hg Hs. unfold RegExp.test. rewrite Hg, Hs. simpl.
  now destruct (search _ _ _ _).
Qed.

Lemma test_plain_occurs R S :
  RegExp.global R = false -> RegExp.sticky R = false ->
  (fst (RegExp.test R S) = true
   <-> occurs (RegExp.ignoreCase R) (RegExp.source R) S).
Proof.
  intros Hg Hs. unfold RegExp.test. rewrite Hg, Hs. simpl.
  rewrite <- search_spec.
  destruct (search _ _ _ _); simpl; split; congruence.
Qed.

Lemma with_pattern_same r : Rule.with_pattern r (Rule.pattern r) = r.
Proof. now destruct r. Qed.

(** ** The loops of [analyzeWorkflow] in closed form *)

Lemma for_rules_plain filename ln n : forall rules issues,
  Forall plain rules ->
  for_rules filename ln n rules issues
  = (issues ++ line_findings rules filename n ln, rules).
Proof.
  unfold line_findings.
  induction rules as [| r rules IH]; intros issues Hp; simpl.
  - now rewrite app_nil_r.
  - inversion Hp as [| ? ? [Hg Hs] Hp']; subst.
    rewrite (test_plain _ ln Hg Hs). fold (fires r ln).
    rewrite IH by assumption. rewrite with_pattern_same.
    destruct (fires r ln); simpl; [| reflexivity].
    now rewrite <- app_assoc.
Qed.

Lemma for_lines_plain filename st (Hp : plain_store st) :
  forall lines i issues,
  for_lines filename lines i issues st
  = (issues ++ lines_findings st filename (S i) lines, st).
Proof.
  induction lines as [| ln lines IH]; intros i issues; simpl.
  - now rewrite app_nil_r.
  - rewrite for_rules_plain by exact Hp.
    rewrite IH. replace (i + 1) with (S i) by lia.
    now rewrite <- app_assoc.
Qed.

Lemma analyzeWorkflow_plain filename text st :
  plain_store st ->
  analyzeWorkflow filename text st = (file_findings st filename text, st).
Proof.
  intros Hp. unfold analyzeWorkflow. now rewrite for_lines_plain.
Qed.

Lemma securityRules_plain : plain_store securityRules.
Proof. repeat constructor. Qed.

(** ** [scanRepository] in closed form *)

Section ScanFacts.

Variable base64_decode : jsstring -> jsstring.
Variable spread_overflow : nat -> option Thrown.
Variable this : WorkflowsScanner.

Lemma for_files_plain repo st (Hp : plain_store st) :
  forall entries found,
  for_files base64_decode spread_overflow this repo entries found st
  = match first_failure base64_decode spread_overflow this st repo
                        entries with
    | Some e => (Abrupt e, st)
    | None =>
        (Normal (found ++ scan_findings st
                            (provided_files base64_decode this repo entries)),
         st)
    end.
Proof.
  induction entries as [| f rest IH]; intros found; simpl.
  - unfold ret. now rewrite app_nil_r.
  - destruct (skipped f); [apply IH |].
    unfold bind, await, file_request.
    destruct (octokit_getContent this _) as [[entries' | [text |]] | e];
      try apply IH; [| reflexivity].
    unfold lift. rewrite analyzeWorkflow_plain by exact Hp.
    unfold push_spread.
    destruct (spread_overflow _) as [e |]; [reflexivity |].
    unfold ret. rewrite IH.
    destruct (first_failure _ _ _ _ _ rest); [reflexivity |].
    simpl. now rewrite <- app_assoc.
Qed.

Lemma summary_message_eq found :
  (if 0 <? length found
   then js "Found " ++ decimal (length found)
           ++ js " security issues in workflows"
   else js "No security issues found in workflows")
  = summary_message found.
Proof. now destruct found. Qed.

Lemma scanRepository_plain repo st :
  plain_store st ->
  scanRepository base64_decode spread_overflow this repo st
  = (Normal (scan_outcome base64_decode spread_overflow this st repo), st).
Proof.
  intros Hp. unfold scanRepository, scan_outcome, try_catch, bind, await,
    listing_request.
  destruct (octokit_getContent this _) as [[entries | c] | e];
    [| reflexivity | reflexivity].
  rewrite for_files_plain by exact Hp.
  destruct (first_failure _ _ _ _ _ entries); [reflexivity |].
  unfold ret, result_scanned. simpl. now rewrite summary_message_eq.
Qed.

Lemma first_failure_cause rules repo : forall entries,
  first_failure base64_decode spread_overflow this rules repo entries
  <> None ->
  file_fetch_fails this repo entries
  \/ spread_fails base64_decode spread_overflow this rules repo entries.
Proof.
  unfold file_fetch_fails, spread_fails.
  induction entries as [| f rest IH]; simpl; [congruence |].
  intros H.
  assert (Hrest :
    first_failure base64_decode spread_overflow this rules repo rest
    <> None ->
    (exists g e, (f = g \/ In g rest) /\ skipped g = false
                 /\ octokit_getContent this (file_request this repo g)
                    = Abrupt e)
    \/ (exists g raw e, (f = g \/ In g rest) /\ skipped g = false
           /\ octokit_getContent this (file_request this repo g)
              = Normal (DataObject (Some raw))
           /\ spread_overflow
                (length (file_findings rules (name g) (base64_decode raw)))
              = Some e)).
  { intros H'. destruct (IH H') as [(g & e & Hg & Hk) | (g & raw & e & Hg & Hk)];
      [left; exists g, e | right; exists g, raw, e]; auto. }
  destruct (skipped f) eqn:Hs; [auto |].
  destruct (octokit_getContent this (file_request this repo f))
    as [[arr | [raw0 |]] | e0] eqn:Hf; auto.
  - destruct (spread_overflow _) as [e1 |] eqn:Ho; [| auto].
    right. exists f, raw0, e1. auto.
  - left. exists f, e0. auto.
Qed.

Lemma fetch_fails_first_failure rules repo : forall entries,
  file_fetch_fails this repo entries ->
  first_failure base64_decode spread_overflow this rules repo entries
  <> None.
Proof.
  unfold file_fetch_fails.
  induction entries as [| f rest IH]; intros (g & e & Hg & Hk & Hq);
    [contradiction |].
  simpl. destruct Hg as [-> | Hg].
  - rewrite Hk, Hq. cbv iota. discriminate.
  - assert (Hrest : first_failure base64_decode spread_overflow this rules
                                  repo rest <> None)
      by (apply IH; exists g, e; auto).
    destruct (skipped f); [exact Hrest |].
    destruct (octokit_getContent this (file_request this repo f))
      as [[arr | [raw0 |]] | e0]; try exact Hrest;
      [| cbv iota; discriminate].
    destruct (spread_overflow _); [cbv iota; discriminate | exact Hrest].
Qed.

Lemma spread_fails_first_failure rules repo : forall entries,
  spread_fails base64_decode spread_overflow this rules repo entries ->
  first_failure base64_decode spread_overflow this rules repo entries
  <> None.
Proof.
  unfold spread_fails.
  induction entries as [| f rest IH];
    intros (g & raw & e & Hg & Hk & Hq & Ho); [contradiction |].
  simpl. destruct Hg as [-> | Hg].
  - rewrite Hk, Hq, Ho. cbv iota. discriminate.
  - assert (Hrest : first_failure base64_decode spread_overflow this rules
                                  repo rest <> None)
      by (apply IH; exists g, raw, e; auto).
    destruct (skipped f); [exact Hrest |].
    destruct (octokit_getContent this (file_request this repo f))
      as [[arr | [raw0 |]] | e0]; try exact Hrest;
      [| cbv iota; discriminate].
    destruct (spread_overflow
                (length (file_findings rules (name f) (base64_decode raw0))));
      [cbv iota; discriminate | exact Hrest].
Qed.

Lemma first_failure_fails rules repo entries :
  first_failure base64_decode spread_overflow this rules repo entries
  <> None
  <-> file_fetch_fails this repo entries
      \/ spread_fails base64_decode spread_overflow this rules repo entries.
Proof.
  split; [apply first_failure_cause |].
  intros [H | H];
    [now apply fetch_fails_first_failure
    | now apply spread_fails_first_failure].
Qed.

End ScanFacts.

(** ** Reading patterns piece by piece *)

Lemma den_chars ic p : forall x y,
  den ic (chars p) x y <-> exists w, x = w ++ y /\ lit_match ic p w.
Proof.
  unfold lit_match. induction p as [| a p IH]; intros x y; simpl.
  - split.
    + intros ->. exists []. split; [reflexivity | constructor].
    + intros (w & -> & Hw). now inversion Hw.
  - split.
    + intros (z & (c & -> & Hc) & Hz). apply IH in Hz.
      destruct Hz as (w & -> & Hw). exists (c :: w).
      split; [reflexivity | now constructor].
    + intros (w & -> & Hw). inversion Hw as [| ? c ? w' Hc Hw']; subst.
      exists (w' ++ y). split; [exists c; auto |]. apply IH. eauto.
Qed.

Lemma den_star_class ic cl x y :
  den ic (Star (Class cl)) x y
  <-> exists w, x = w ++ y /\ forallb (class_matches ic cl) w = true.
Proof.
  simpl. split.
  - induction 1 as [x | x y z (c & -> & Hc) _ _ (w & -> & Hw)].
    + now exists [].
    + exists (c :: w). split; [reflexivity |]. simpl. now rewrite Hc.
  - intros (w & -> & Hw). induction w as [| c w IH]; simpl in *.
    + constructor.
    + apply andb_true_iff in Hw. destruct Hw as (Hc & Hw).
      apply iter_more with (y := w ++ y); [exists c; auto | simpl; lia | auto].
Qed.

Lemma den_plus_class ic cl x y :
  den ic (Plus (Class cl)) x y
  <-> exists w, x = w ++ y /\ w <> []
                /\ forallb (class_matches ic cl) w = true.
Proof.
  unfold Plus. change (den ic (Seq ?a ?b) x y)
    with (exists z, den ic a x z /\ den ic b z y).
  split.
  - intros (z & (c & -> & Hc) & Hz). apply den_star_class in Hz.
    destruct Hz as (w & -> & Hw). exists (c :: w).
    split; [reflexivity |]. split; [discriminate |]. simpl. now rewrite Hc.
  - intros (w & -> & Hne & Hw). destruct w as [| c w]; [congruence |].
    simpl in Hw. apply andb_true_iff in Hw. destruct Hw as (Hc & Hw).
    exists (w ++ y). split; [exists c; auto |].
    apply den_star_class. eauto.
Qed.

Lemma den_class ic cl x y :
  den ic (Class cl) x y <-> exists c, x = c :: y /\ class_matches ic cl c = true.
Proof. reflexivity. Qed.

Lemma char_matches_nonletter ic a c :
  nonletter a = true -> char_matches ic a c = (a =? c)%N.
Proof.
  unfold nonletter, char_matches, canonicalize. intros H.
  destruct ic; simpl; [| reflexivity].
  apply eq_iff_eq_true. rewrite !N.eqb_eq.
  destruct (N.leb_spec 97 a), (N.leb_spec a 122), (N.leb_spec 97 c),
    (N.leb_spec c 122), (N.ltb_spec a 65), (N.ltb_spec 90 a),
    (N.ltb_spec a 97), (N.ltb_spec 122 a); simpl in *;
    try discriminate; lia.
Qed.

Lemma char_matches_sensitive a c : char_matches false a c = (a =? c)%N.
Proof. reflexivity. Qed.

Lemma lit_match_sensitive p w : lit_match false p w <-> w = p.
Proof.
  unfold lit_match. split.
  - induction 1 as [| a c p w Hc _ IH]; [reflexivity |].
    rewrite char_matches_sensitive in Hc. apply N.eqb_eq in Hc. congruence.
  - intros ->. induction p; constructor; [apply N.eqb_refl | assumption].
Qed.

Lemma lit_match_nonletters ic p w :
  forallb nonletter p = true -> (lit_match ic p w <-> w = p).
Proof.
  unfold lit_match. intros Hp. split.
  - induction 1 as [| a c p w Hc _ IH]; [reflexivity |].
    simpl in Hp. apply andb_true_iff in Hp. destruct Hp as (Ha & Hp).
    rewrite char_matches_nonletter in Hc by exact Ha.
    apply N.eqb_eq in Hc. rewrite IH by exact Hp. congruence.
  - intros ->. induction p as [| a p IH]; constructor.
    + simpl in Hp. apply andb_true_iff in Hp. destruct Hp as (Ha & _).
      rewrite char_matches_nonletter by exact Ha. apply N.eqb_refl.
    + simpl in Hp. apply andb_true_iff in Hp. now apply IH.
Qed.

Lemma lit_match_nocase p w :
  lit_match true p w
  <-> map (canonicalize true) w = map (canonicalize true) p.
Proof.
  unfold lit_match. split.
  - induction 1 as [| a c p w Hc _ IH]; [reflexivity |].
    unfold char_matches in Hc. apply N.eqb_eq in Hc. simpl. congruence.
  - revert w. induction p as [| a p IH]; intros [| c w] H;
      try discriminate; constructor.
    + simpl in H. injection H as Hc _. unfold char_matches.
      rewrite Hc. apply N.eqb_refl.
    + simpl in H. injection H as _ Hw. now apply IH.
Qed.

Lemma den_seq ic a b x y :
  den ic (Seq a b) x y <-> exists z, den ic a x z /\ den ic b z y.
Proof. reflexivity. Qed.

Lemma den_lit_sensitive s x y : den false (lit s) x y <-> x = js s ++ y.
Proof.
  unfold lit. rewrite den_chars. split.
  - intros (w & -> & Hw). apply lit_match_sensitive in Hw. now subst.
  - intros ->. exists (js s). split; [reflexivity |].
    now apply lit_match_sensitive.
Qed.

Lemma den_lit_nonletters ic s x y :
  forallb nonletter (js s) = true ->
  (den ic (lit s) x y <-> x = js s ++ y).
Proof.
  intros Hs. unfold lit. rewrite den_chars. split.
  - intros (w & -> & Hw). apply lit_match_nonletters in Hw; [now subst | auto].
  - intros ->. exists (js s). split; [reflexivity |].
    now apply lit_match_nonletters.
Qed.

Lemma den_lit_nocase s x y :
  den true (lit s) x y <-> exists w, x = w ++ y /\ eq_nocase w (js s).
Proof.
  unfold lit, eq_nocase. rewrite den_chars. split.
  - intros (w & -> & Hw). apply lit_match_nocase in Hw. eauto.
  - intros (w & -> & Hw). exists w. split; [reflexivity |].
    now apply lit_match_nocase.
Qed.

Lemma den_spaces ic x y :
  den ic (Star (Class ClassSpace)) x y
  <-> exists w, x = w ++ y /\ spaces w = true.
Proof. apply den_star_class. Qed.

Lemma startsWith_spec p : forall s,
  startsWith s p = true <-> exists t, s = p ++ t.
Proof.
  induction p as [| a p IH]; intros s; simpl.
  - split; [intros _; now exists s | reflexivity].
  - destruct s as [| b s].
    + split; [discriminate | intros (t & Ht); discriminate].
    + rewrite andb_true_iff, N.eqb_eq, IH. split.
      * intros (-> & t & ->). eauto.
      * intros (t & Ht). injection Ht as -> ->. eauto.
Qed.

(** ** script-injection *)

Lemma occurs_script_injection s :
  occurs false re_script_injection s <-> contains injection_shape s.
Proof.
  unfold occurs, contains, injection_shape, re_script_injection. split.
  - intros (pre & x & y & -> & H).
    apply den_seq in H. destruct H as (z1 & H1 & H).
    apply den_seq in H. destruct H as (z2 & H2 & H).
    apply den_seq in H. destruct H as (z3 & H3 & H).
    apply den_seq in H. destruct H as (z4 & H4 & H5).
    apply den_lit_sensitive in H1, H3, H5.
    apply den_spaces in H2, H4.
    destruct H2 as (ws1 & -> & Hws1), H4 as (ws2 & -> & Hws2). subst.
    exists pre, (js "${{" ++ ws1 ++ js "github.event.issue.title"
                    ++ ws2 ++ js "}}"), y.
    split; [now rewrite <- !app_assoc | eauto].
  - intros (pre & m & post & -> & ws1 & ws2 & -> & Hws1 & Hws2).
    exists pre, ((js "${{" ++ ws1 ++ js "github.event.issue.title"
                    ++ ws2 ++ js "}}") ++ post), post.
    split; [reflexivity |]. rewrite <- !app_assoc.
    apply den_seq. eexists. split; [now apply den_lit_sensitive |].
    apply den_seq. eexists. split; [apply den_spaces; eauto |].
    apply den_seq. eexists. split; [now apply den_lit_sensitive |].
    apply den_seq. eexists. split; [apply den_spaces; eauto |].
    now apply den_lit_sensitive.
Qed.

(** ** third-party-action-review *)

Lemma startsWith_after_spaces w z p :
  spaces w = true -> isWhiteSpace (hd 0%N p) = false ->
  startsWith (w ++ z) p = true -> startsWith z p = true.
Proof.
  intros Hw Ha H. destruct p as [| a p]; [reflexivity |].
  destruct w as [| c w]; [exact H |].
  simpl in Hw, Ha, H. apply andb_true_iff in Hw, H.
  destruct Hw as (Hc & _), H as (Hac & _).
  apply N.eqb_eq in Hac. congruence.
Qed.

Lemma not_lit_startsWith s x :
  (~ exists z, den false (lit s) x z) -> startsWith x (js s) = false.
Proof.
  intros H. destruct (startsWith x (js s)) eqn:E; [| reflexivity].
  exfalso. apply H. apply startsWith_spec in E. destruct E as (t & ->).
  exists t. now apply den_lit_sensitive.
Qed.

Lemma occurs_third_party s :
  occurs false re_third_party s <-> uses_not_directly_followed s.
Proof.
  unfold occurs, uses_not_directly_followed, re_third_party. split.
  - intros (pre & x & y & -> & H).
    apply den_seq in H. destruct H as (z1 & H1 & H).
    apply den_seq in H. destruct H as (z2 & H2 & _ & H3).
    apply den_lit_sensitive in H1. apply den_spaces in H2.
    destruct H2 as (w & -> & Hw). subst x.
    exists pre, (w ++ z2). split; [reflexivity |].
    assert (Ha : startsWith z2 (js "actions/") = false).
    { apply not_lit_startsWith. intros (z & Hz). apply H3. exists z.
      now left. }
    assert (Hb : startsWith z2 (js "./") = false).
    { apply not_lit_startsWith. intros (z & Hz). apply H3. exists z.
      now right. }
    split.
    + destruct (startsWith (w ++ z2) (js "actions/")) eqn:E; [| reflexivity].
      apply startsWith_after_spaces in E; [congruence | exact Hw |].
      reflexivity.
    + destruct (startsWith (w ++ z2) (js "./")) eqn:E; [| reflexivity].
      apply startsWith_after_spaces in E; [congruence | exact Hw |].
      reflexivity.
  - intros (pre & post & -> & Ha & Hb).
    exists pre, (js "uses:" ++ post), post. split; [reflexivity |].
    apply den_seq. exists post. split; [now apply den_lit_sensitive |].
    apply den_seq. exists post. split.
    + apply den_spaces. now exists [].
    + split; [reflexivity |]. intros (z & [Hz | Hz]);
        apply den_lit_sensitive in Hz;
        [assert (E : startsWith post (js "actions/") = true)
        | assert (E : startsWith post (js "./") = true)];
        try (apply startsWith_spec; eauto); congruence.
Qed.

(** ** pin-actions-versions and no-plaintext-secrets *)

Lemma forallb_pointwise {A} (f g : A -> bool) (l : list A) :
  (forall a, f a = g a) -> forallb f l = forallb g l.
Proof.
  intros H. induction l as [| a l IH]; simpl; [reflexivity |].
  now rewrite H, IH.
Qed.

Lemma den_group ic a x y : den ic (Group a) x y <-> den ic a x y.
Proof. reflexivity. Qed.

Lemma den_alt ic a b x y :
  den ic (Alt a b) x y <-> den ic a x y \/ den ic b x y.
Proof. reflexivity. Qed.

Lemma class_not_at ic c :
  class_matches ic (ClassNoneOf (js "@")) c = negb (c =? 64)%N.
Proof.
  simpl. rewrite char_matches_nonletter by reflexivity.
  now rewrite orb_false_r, N.eqb_sym.
Qed.

Lemma class_quote ic c :
  class_matches ic (ClassOneOf [SQUOTE; DQUOTE]) c = is_quote c.
Proof.
  unfold is_quote. simpl. rewrite !char_matches_nonletter by reflexivity.
  now rewrite orb_false_r, (N.eqb_sym SQUOTE), (N.eqb_sym DQUOTE).
Qed.

Lemma class_not_quote ic c :
  class_matches ic (ClassNoneOf [SQUOTE; DQUOTE]) c = negb (is_quote c).
Proof.
  change (class_matches ic (ClassNoneOf [SQUOTE; DQUOTE]) c)
    with (negb (class_matches ic (ClassOneOf [SQUOTE; DQUOTE]) c)).
  now rewrite class_quote.
Qed.

Lemma den_mutable_ref x y :
  den true (lit "main" <|> lit "master" <|> lit "latest"
            <|> Plus (Class ClassDigit))%re x y
  <-> exists ref, x = ref ++ y /\ mutable_ref ref.
Proof.
  unfold mutable_ref. rewrite !den_alt, !den_lit_nocase, den_plus_class.
  split.
  - intros [(w & -> & H) | [(w & -> & H) | [(w & -> & H) | (w & -> & H)]]];
      exists w; tauto.
  - intros (w & -> & [H | [H | [H | H]]]); eauto 8.
Qed.

Lemma occurs_pin_actions s :
  occurs true re_pin_actions s <-> contains pin_shape s.
Proof.
  unfold occurs, contains, pin_shape, re_pin_actions. split.
  - intros (pre & x & y & -> & H).
    apply den_seq in H. destruct H as (z1 & H1 & H).
    apply den_seq in H. destruct H as (z2 & H2 & H).
    apply den_seq in H. destruct H as (z3 & H3 & H).
    apply den_seq in H. destruct H as (z4 & H4 & H5).
    apply den_lit_nocase in H1. destruct H1 as (u & -> & Hu).
    apply den_spaces in H2. destruct H2 as (ws & -> & Hws).
    apply den_group, den_plus_class in H3.
    destruct H3 as (nm & -> & Hne & Hnm).
    apply den_lit_nonletters in H4; [subst z3 | reflexivity].
    apply den_group, den_mutable_ref in H5. destruct H5 as (ref & -> & Hr).
    exists pre, (u ++ ws ++ nm ++ js "@" ++ ref), y.
    split; [now rewrite <- !app_assoc |].
    exists u, ws, nm, ref. repeat split; auto.
    exact (eq_trans (eq_sym (forallb_pointwise _ _ nm (class_not_at true)))
             Hnm).
  - intros (pre & m & post & -> & u & ws & nm & ref & -> & Hu & Hws & Hne
            & Hnm & Hr).
    exists pre, ((u ++ ws ++ nm ++ js "@" ++ ref) ++ post), post.
    split; [reflexivity |]. rewrite <- !app_assoc.
    apply den_seq. eexists. split; [apply den_lit_nocase; eauto |].
    apply den_seq. eexists. split; [apply den_spaces; eauto |].
    apply den_seq. eexists. split.
    { apply den_group, den_plus_class. exists nm.
      split; [reflexivity |]. split; [exact Hne |].
      exact (eq_trans (forallb_pointwise _ _ nm (class_not_at true)) Hnm). }
    apply den_seq. eexists.
    split; [apply den_lit_nonletters; reflexivity |].
    apply den_group, den_mutable_ref. eauto.
Qed.

Lemma den_secret_keyword x y :
  den true (lit "password" <|> lit "token" <|> lit "key" <|> lit "secret")%re
      x y
  <-> exists kw, x = kw ++ y /\ secret_keyword kw.
Proof.
  unfold secret_keyword. rewrite !den_alt, !den_lit_nocase.
  split.
  - intros [(w & -> & H) | [(w & -> & H) | [(w & -> & H) | (w & -> & H)]]];
      exists w; tauto.
  - intros (w & -> & [H | [H | [H | H]]]); eauto 8.
Qed.

Lemma occurs_plaintext_secrets s :
  occurs true re_plaintext_secrets s <-> contains secret_shape s.
Proof.
  unfold occurs, contains, secret_shape, re_plaintext_secrets. split.
  - intros (pre & x & y & -> & H).
    apply den_seq in H. destruct H as (z1 & H1 & H).
    apply den_seq in H. destruct H as (z2 & H2 & H).
    apply den_seq in H. destruct H as (z3 & H3 & H).
    apply den_seq in H. destruct H as (z4 & H4 & H).
    apply den_seq in H. destruct H as (z5 & H5 & H6).
    apply den_group, den_secret_keyword in H1.
    destruct H1 as (kw & -> & Hkw).
    apply den_lit_nonletters in H2; [subst z1 | reflexivity].
    apply den_spaces in H3. destruct H3 as (ws & -> & Hws).
    apply den_class in H4. destruct H4 as (q1 & -> & Hq1).
    apply den_plus_class in H5. destruct H5 as (body & -> & Hne & Hbody).
    apply den_class in H6. destruct H6 as (q2 & -> & Hq2).
    rewrite class_quote in Hq1, Hq2.
    exists pre, (kw ++ js ":" ++ ws ++ [q1] ++ body ++ [q2]), y.
    split; [now rewrite <- !app_assoc |].
    exists kw, ws, q1, body, q2. repeat split; auto.
    exact (eq_trans
             (eq_sym (forallb_pointwise _ _ body (class_not_quote true)))
             Hbody).
  - intros (pre & m & post & -> & kw & ws & q1 & body & q2 & -> & Hkw & Hws
            & Hq1 & Hne & Hbody & Hq2).
    exists pre, ((kw ++ js ":" ++ ws ++ [q1] ++ body ++ [q2]) ++ post), post.
    split; [reflexivity |]. rewrite <- !app_assoc.
    apply den_seq. eexists.
    split; [apply den_group, den_secret_keyword; eauto |].
    apply den_seq. eexists.
    split; [apply den_lit_nonletters; reflexivity |].
    apply den_seq. eexists. split; [apply den_spaces; eauto |].
    apply den_seq. eexists.
    split; [apply den_class; exists q1; split;
            [reflexivity | now rewrite class_quote] |].
    apply den_seq. eexists. split.
    { apply den_plus_class. exists body. split; [reflexivity |].
      split; [exact Hne |].
      exact (eq_trans (forallb_pointwise _ _ body (class_not_quote true))
               Hbody). }
    apply den_class. exists q2. split; [reflexivity |].
    now rewrite class_quote.
Qed.

(** ** When each rule fires *)

Lemma fires_plaintext_secrets ln :
  fires rule_plaintext_secrets ln = true <-> contains secret_shape ln.
Proof.
  unfold fires. rewrite test_plain_occurs by reflexivity.
  apply occurs_plaintext_secrets.
Qed.

Lemma fires_pin_actions ln :
  fires rule_pin_actions ln = true <-> contains pin_shape ln.
Proof.
  unfold fires. rewrite test_plain_occurs by reflexivity.
  apply occurs_pin_actions.
Qed.

Lemma fires_third_party ln :
  fires rule_third_party ln = true <-> uses_not_directly_followed ln.
Proof.
  unfold fires. rewrite test_plain_occurs by reflexivity.
  apply occurs_third_party.
Qed.

Lemma fires_script_injection ln :
  fires rule_script_injection ln = true <-> contains injection_shape ln.
Proof.
  unfold fires. rewrite test_plain_occurs by reflexivity.
  apply occurs_script_injection.
Qed.

(** ** A carriage return at the end of a line *)

Lemma ends_not_app c a m : ends_not c m -> ends_not c (a ++ m).
Proof.
  intros (m' & d & -> & Hd). exists (a ++ m'), d.
  now rewrite app_assoc.
Qed.

Lemma ends_not_snoc c m d : d <> c -> ends_not c (m ++ [d]).
Proof. intros Hd. now exists m, d. Qed.

Lemma contains_snoc (P : jsstring -> Prop) c s :
  (forall m, P m -> ends_not c m) ->
  (contains P (s ++ [c]) <-> contains P s).
Proof.
  intros HP. split.
  - intros (pre & m & post & Hs & Hm).
    destruct (HP m Hm) as (m' & d & -> & Hd).
    destruct post as [| e post'] using rev_ind.
    + rewrite app_nil_r, app_assoc in Hs.
      apply app_inj_tail in Hs. destruct Hs as (_ & Hc). congruence.
    + clear IHpost'. rewrite !app_assoc in Hs.
      apply app_inj_tail in Hs. destruct Hs as (Hs & _).
      exists pre, (m' ++ [d]), post'. split; [| exact Hm].
      now rewrite Hs, <- !app_assoc.
  - intros (pre & m & post & -> & Hm).
    exists pre, m, (post ++ [c]). split; [| exact Hm].
    now rewrite <- !app_assoc.
Qed.

Lemma eq_nocase_ends_not ref w d :
  eq_nocase ref (w ++ [d]) -> canonicalize true d <> CR -> ends_not CR ref.
Proof.
  unfold eq_nocase. intros H Hd.
  destruct ref as [| e ref'] using rev_ind.
  - rewrite map_app in H. simpl in H. destruct (map _ w); discriminate.
  - clear IHref'. rewrite !map_app in H. simpl in H.
    apply app_inj_tail in H. destruct H as (_ & He).
    exists ref', e. split; [reflexivity |]. intros ->. apply Hd.
    rewrite <- He. reflexivity.
Qed.

Lemma forallb_ends_not (f : codeunit -> bool) c m :
  m <> [] -> forallb f m = true -> f c = false -> ends_not c m.
Proof.
  intros Hne Hf Hc. destruct m as [| e m'] using rev_ind; [congruence |].
  exists m', e. split; [reflexivity |]. intros ->.
  rewrite forallb_app in Hf. simpl in Hf.
  apply andb_true_iff in Hf. destruct Hf as (_ & Hf).
  rewrite Hc in Hf. discriminate.
Qed.

Lemma injection_shape_ends m : injection_shape m -> ends_not CR m.
Proof.
  intros (ws1 & ws2 & -> & _).
  change (js "}}") with ([125%N] ++ [125%N]).
  rewrite !app_assoc. apply ends_not_snoc. discriminate.
Qed.

Lemma mutable_ref_ends ref : mutable_ref ref -> ends_not CR ref.
Proof.
  intros [H | [H | [H | (Hne & H)]]].
  - apply (eq_nocase_ends_not ref (js "mai") 110%N); [exact H |].
    discriminate.
  - apply (eq_nocase_ends_not ref (js "maste") 114%N); [exact H |].
    discriminate.
  - apply (eq_nocase_ends_not ref (js "lates") 116%N); [exact H |].
    discriminate.
  - apply (forallb_ends_not isDigit); auto.
Qed.

Lemma pin_shape_ends m : pin_shape m -> ends_not CR m.
Proof.
  intros (u & ws & nm & ref & -> & _ & _ & _ & _ & Hr).
  rewrite !app_assoc. apply ends_not_app. now apply mutable_ref_ends.
Qed.

Lemma secret_shape_ends m : secret_shape m -> ends_not CR m.
Proof.
  intros (kw & ws & q1 & body & q2 & -> & _ & _ & _ & _ & _ & Hq).
  rewrite !app_assoc. apply ends_not_snoc. intros ->. discriminate.
Qed.

Lemma startsWith_snoc c p : forall s,
  ~ In c p -> startsWith (s ++ [c]) p = startsWith s p.
Proof.
  induction p as [| a p IH]; intros s Hc; [reflexivity |].
  destruct s as [| b s]; simpl.
  - destruct (N.eqb_spec a c) as [-> |]; [| reflexivity].
    exfalso. apply Hc. now left.
  - rewrite IH; [reflexivity |]. intros H. apply Hc. now right.
Qed.

Lemma uses_snoc_cr s :
  uses_not_directly_followed (s ++ [CR]) <-> uses_not_directly_followed s.
Proof.
  assert (Ha : ~ In CR (js "actions/"))
    by (simpl; intros H; repeat destruct H as [H | H]; discriminate || easy).
  assert (Hb : ~ In CR (js "./"))
    by (simpl; intros H; repeat destruct H as [H | H]; discriminate || easy).
  unfold uses_not_directly_followed. split.
  - intros (pre & post & Hs & H1 & H2).
    destruct post as [| e post'] using rev_ind.
    + change (js "uses:") with (js "uses" ++ [58%N]) in Hs.
      rewrite app_nil_r, !app_assoc in Hs.
      apply app_inj_tail in Hs. destruct Hs as (_ & Hs). discriminate.
    + clear IHpost'. rewrite !app_assoc in Hs.
      apply app_inj_tail in Hs. destruct Hs as (Hs & <-).
      exists pre, post'. rewrite Hs, <- app_assoc.
      rewrite startsWith_snoc in H1, H2 by assumption. auto.
  - intros (pre & post & -> & H1 & H2).
    exists pre, (post ++ [CR]). rewrite <- !app_assoc.
    rewrite !startsWith_snoc by assumption. auto.
Qed.

Lemma fires_snoc_cr r ln :
  In r securityRules -> fires r (ln ++ [CR]) = fires r ln.
Proof.
  intros Hr. apply eq_iff_eq_true.
  destruct Hr as [<- | [<- | [<- | [<- | []]]]].
  - rewrite !fires_plaintext_secrets.
    apply contains_snoc, secret_shape_ends.
  - rewrite !fires_pin_actions. apply contains_snoc, pin_shape_ends.
  - rewrite !fires_third_party. apply uses_snoc_cr.
  - rewrite !fires_script_injection.
    apply contains_snoc, injection_shape_ends.
Qed.

Lemma trim_snoc_cr ln : trim (ln ++ [CR]) = trim ln.
Proof.
  unfold trim, trimEnd. now rewrite rev_app_distr.
Qed.

Lemma line_findings_snoc_cr filename n ln :
  line_findings securityRules filename n (ln ++ [CR])
  = line_findings securityRules filename n ln.
Proof.
  unfold line_findings.
  rewrite (filter_ext_in (fun r => fires r (ln ++ [CR]))
                         (fun r => fires r ln))
    by (intros r Hr; now apply fires_snoc_cr).
  apply map_ext. intros r. unfold finding_of. now rewrite trim_snoc_cr.
Qed.

Lemma split_lf_cons c s :
  split_lf (c :: s)
  = if (c =? LF)%N then [] :: split_lf s
    else match split_lf s with
         | l :: ls => (c :: l) :: ls
         | [] => [[c]]
         end.
Proof. reflexivity. Qed.

Lemma split_lf_strip_cr : forall s,
  crlf_only s = true ->
  Forall2 same_but_cr (split_lf s) (split_lf (strip_cr s)).
Proof.
  unfold same_but_cr.
  induction s as [| c s IH]; intros H.
  - simpl. constructor; [now left | constructor].
  - simpl in H. apply andb_true_iff in H. destruct H as (Hc & Hs).
    specialize (IH Hs). unfold strip_cr in *. simpl filter.
    destruct (N.eqb_spec c CR) as [-> | Hne]; simpl negb; cbv iota.
    + destruct s as [| d s]; [discriminate |].
      apply N.eqb_eq in Hc. subst d.
      simpl in IH |- *. inversion IH as [| ? ? ? ? _ IH']; subst.
      constructor; [now right | exact IH'].
    + rewrite !split_lf_cons. destruct (c =? LF)%N.
      * constructor; [now left | exact IH].
      * destruct IH as [| l l' ls ls' Hl Hls];
          [constructor; [now left | constructor] |].
        constructor; [| exact Hls].
        destruct Hl as [-> | ->]; [now left | now right].
Qed.

Lemma lines_findings_same_but_cr filename : forall ls ls' n,
  Forall2 same_but_cr ls ls' ->
  lines_findings securityRules filename n ls
  = lines_findings securityRules filename n ls'.
Proof.
  induction ls as [| l ls IH]; intros ls' n H;
    inversion H as [| ? l' ? ls0 Hl Hls]; subst; [reflexivity |].
  cbn [lines_findings]. rewrite (IH _ _ Hls).
  destruct Hl as [-> | ->]; [reflexivity |].
  now rewrite line_findings_snoc_cr.
Qed.

(** ** The findings of one rule on one line *)

Lemma jsstring_eqb_eq a b : jsstring_eqb a b = true <-> a = b.
Proof.
  unfold jsstring_eqb. destruct (list_eq_dec N.eq_dec a b); split;
    congruence.
Qed.

Lemma jsstring_eqb_refl a : jsstring_eqb a a = true.
Proof. now apply jsstring_eqb_eq. Qed.

Lemma line_findings_line rules filename n ln :
  Forall (fun i => line i = n) (line_findings rules filename n ln).
Proof.
  unfold line_findings. apply Forall_forall. intros i Hi.
  apply in_map_iff in Hi. now destruct Hi as (r & <- & _).
Qed.

Lemma lines_findings_from rules filename : forall lines first,
  Forall (fun i => first <= line i)
         (lines_findings rules filename first lines).
Proof.
  induction lines as [| ln lines IH]; intros first; simpl; [constructor |].
  apply Forall_app. split.
  - eapply Forall_impl; [| apply line_findings_line].
    intros i Hi. simpl in Hi. lia.
  - eapply Forall_impl; [| apply IH]. intros i Hi. simpl in Hi. lia.
Qed.

Lemma findings_at_other rid n found :
  Forall (fun i => line i <> n) found -> findings_at rid n found = [].
Proof.
  unfold findings_at. induction 1 as [| i found Hi _ IH]; simpl;
    [reflexivity |].
  apply Nat.eqb_neq in Hi. now rewrite Hi, andb_false_r.
Qed.

Lemma findings_at_same rid n found :
  Forall (fun i => line i = n) found ->
  findings_at rid n found
  = filter (fun i => jsstring_eqb (rule i) rid) found.
Proof.
  unfold findings_at. induction 1 as [| i found Hi _ IH]; simpl;
    [reflexivity |].
  rewrite Hi, Nat.eqb_refl, andb_true_r, IH. reflexivity.
Qed.

Lemma findings_at_app rid n a b :
  findings_at rid n (a ++ b) = findings_at rid n a ++ findings_at rid n b.
Proof. apply filter_app. Qed.

Lemma findings_at_lines rid rules filename : forall lines first n ln,
  nth_error lines n = Some ln ->
  findings_at rid (first + n) (lines_findings rules filename first lines)
  = filter (fun i => jsstring_eqb (rule i) rid)
           (line_findings rules filename (first + n) ln).
Proof.
  induction lines as [| l0 lines IH]; intros first n ln Hn.
  - destruct n; discriminate.
  - cbn [lines_findings]. rewrite findings_at_app. destruct n as [| n].
    + injection Hn as ->. rewrite Nat.add_0_r.
      rewrite findings_at_same by apply line_findings_line.
      rewrite findings_at_other; [apply app_nil_r |].
      eapply Forall_impl; [| apply lines_findings_from].
      intros i Hi. simpl in Hi. lia.
    + simpl in Hn. rewrite findings_at_other.
      * replace (first + S n) with (S first + n) by lia. now apply IH.
      * eapply Forall_impl; [| apply line_findings_line].
        intros i Hi. simpl in Hi. lia.
Qed.

(** The rule table has four distinct ids, so selecting by id selects one
    rule. *)
Lemma line_findings_of_rule filename n ln r :
  In r securityRules ->
  filter (fun i => jsstring_eqb (rule i) (Rule.id r))
         (line_findings securityRules filename n ln)
  = if fires r ln then [finding_of filename n ln r] else [].
Proof.
  unfold line_findings, securityRules.
  intros [<- | [<- | [<- | [<- | []]]]]; cbn [filter];
    destruct (fires rule_plaintext_secrets ln),
             (fires rule_pin_actions ln),
             (fires rule_third_party ln),
             (fires rule_script_injection ln); reflexivity.
Qed.

Lemma findings_at_rule filename text n ln r :
  In r securityRules ->
  nth_error (split_lf text) n = Some ln ->
  findings_at (Rule.id r) (S n)
              (fst (analyzeWorkflow filename text securityRules))
  = if fires r ln then [finding_of filename (S n) ln r] else [].
Proof.
  intros Hr Hn.
  rewrite analyzeWorkflow_plain by apply securityRules_plain.
  unfold file_findings. cbn [fst].
  rewrite (findings_at_lines _ _ _ _ 1 n ln Hn).
  now apply line_findings_of_rule.
Qed.

(** ** The rules on the scenarios of the specification *)

(** What third-party-action-review does on every line: it reports the line
    when some [uses:] is not directly followed by [actions/] or [./]; white
    space in between already counts as something else. *)
Lemma third_party_findings filename text n ln :
  nth_error (split_lf text) n = Some ln ->
  findings_at (js "third-party-action-review") (S n)
              (fst (analyzeWorkflow filename text securityRules)) <> []
  <-> uses_not_directly_followed ln.
Proof.
  intros Hn.
  pose proof (findings_at_rule filename text n ln rule_third_party) as H.
  cbn [Rule.id rule_third_party] in H. rewrite H by (simpl; auto).
  rewrite <- fires_third_party.
  destruct (fires rule_third_party ln); split; congruence.
Qed.

(** C1 (defect in the code). The claim asks that a reference in the
    first-party namespace, as in [uses: actions/checkout@v3], produce no
    third-party-action-review finding.  The scan of that line returns
    exactly one finding, and it is the third-party-action-review one: the
    white space after the colon can be left to the lookahead, which then
    sees a space and not [actions/].  Written without the space, the same
    reference is not reported. *)
Theorem third_party_review_reports_first_party :
  forall filename,
    fst (analyzeWorkflow filename (js "uses: actions/checkout@v3")
                         securityRules)
    = [finding_of filename 1 (js "uses: actions/checkout@v3")
                  rule_third_party]
    /\ fst (analyzeWorkflow filename (js "uses:actions/checkout@v3")
                            securityRules) = [].
Proof.
  intros filename.
  rewrite !analyzeWorkflow_plain by apply securityRules_plain.
  split; reflexivity.
Qed.

Lemma split_unique (c : codeunit) : forall X X' Y Y',
  ~ In c X -> ~ In c Y -> X ++ c :: Y = X' ++ c :: Y' -> X = X' /\ Y = Y'.
Proof.
  induction X as [| a X IH]; intros [| d X'] Y Y' HX HY E; simpl in E.
  - injection E as ->. auto.
  - injection E as <- ->. exfalso. apply HY, in_or_app. right. now left.
  - injection E as -> _. exfalso. apply HX. now left.
  - injection E as <- E. destruct (IH X' Y Y') as (-> & ->); auto.
    intros H. apply HX. now right.
Qed.

Lemma eq_nocase_head ref a w :
  eq_nocase ref (a :: w) ->
  exists r0 ref', ref = r0 :: ref'
                  /\ canonicalize true r0 = canonicalize true a.
Proof.
  unfold eq_nocase. destruct ref as [| r0 ref']; [discriminate |].
  simpl. intros H. injection H as H0 _. eauto.
Qed.

Lemma mutable_ref_head ref :
  mutable_ref ref ->
  exists r0 ref', ref = r0 :: ref'
    /\ (canonicalize true r0 = 77%N \/ canonicalize true r0 = 76%N
        \/ isDigit r0 = true).
Proof.
  intros [H | [H | [H | (Hne & H)]]].
  - apply eq_nocase_head in H. destruct H as (r0 & ref' & -> & H). eauto.
  - apply eq_nocase_head in H. destruct H as (r0 & ref' & -> & H). eauto.
  - apply eq_nocase_head in H. destruct H as (r0 & ref' & -> & H). eauto 6.
  - destruct ref as [| r0 ref']; [congruence |]. simpl in H.
    apply andb_true_iff in H. destruct H as (H & _). eauto 6.
Qed.

Lemma forallb_not_in (c : codeunit) l :
  forallb (fun d => negb (d =? c)%N) l = true -> ~ In c l.
Proof.
  intros H Hin. rewrite forallb_forall in H. specialize (H c Hin).
  now rewrite N.eqb_refl in H.
Qed.

Lemma pin_quiet_on_commit pre rest :
  forallb (fun c => negb (c =? 64)%N) pre = true ->
  forallb (fun c => negb (c =? 64)%N) rest = true ->
  fires rule_pin_actions
        (pre ++ js "uses: actions/checkout@a1b2c3d4e5f6" ++ rest)
  = false.
Proof.
  intros Hpre Hrest.
  destruct (fires rule_pin_actions _) eqn:E; [| reflexivity]. exfalso.
  apply fires_pin_actions in E.
  destruct E as (pre' & m & post & Hs & u & ws & nm & ref & -> & _ & _ & _
                 & Hnm & Hr).
  replace (pre ++ js "uses: actions/checkout@a1b2c3d4e5f6" ++ rest)
    with ((pre ++ js "uses: actions/checkout")
            ++ 64%N :: js "a1b2c3d4e5f6" ++ rest)
    in Hs by (rewrite <- app_assoc; reflexivity).
  replace (pre' ++ (u ++ ws ++ nm ++ js "@" ++ ref) ++ post)
    with ((pre' ++ u ++ ws ++ nm) ++ 64%N :: ref ++ post) in Hs
    by (rewrite <- !app_assoc; reflexivity).
  apply split_unique in Hs.
  - destruct Hs as (_ & Hs).
    destruct (mutable_ref_head ref Hr) as (r0 & ref' & -> & H0).
    simpl in Hs. injection Hs as <- _.
    destruct H0 as [H0 | [H0 | H0]]; discriminate.
  - intros H. apply in_app_or in H. destruct H as [H | H].
    + revert H. now apply forallb_not_in.
    + revert H. apply forallb_not_in. reflexivity.
  - intros H. apply in_app_or in H. destruct H as [H | H].
    + revert H. apply forallb_not_in. reflexivity.
    + revert H. now apply forallb_not_in.
Qed.

Lemma pin_fires_on_main pre post :
  fires rule_pin_actions (pre ++ js "uses: actions/checkout@main" ++ post)
  = true.
Proof.
  apply fires_pin_actions.
  exists pre, (js "uses: actions/checkout@main"), post.
  split; [reflexivity |].
  exists (js "uses:"), (js " "), (js "actions/checkout"), (js "main").
  repeat split; try reflexivity; try discriminate. now left.
Qed.

(** C3. A file with a line containing [uses: actions/checkout@main] gets
    one pin-actions-versions finding for that line, of severity high.  A
    file with a line [uses: actions/checkout@a1b2c3d4e5f6] continued by the
    rest of a commit identifier (any characters other than an at sign, and
    none before the reference either) gets no pin-actions-versions finding
    for that line. *)
Theorem pin_actions_scenario :
  forall filename text n ln,
    nth_error (split_lf text) n = Some ln ->
    (forall pre post,
       ln = pre ++ js "uses: actions/checkout@main" ++ post ->
       exists i,
         findings_at (js "pin-actions-versions") (S n)
                     (fst (analyzeWorkflow filename text securityRules)) = [i]
         /\ rule i = js "pin-actions-versions" /\ severity i = high
         /\ file i = filename /\ line i = S n /\ content i = trim ln)
    /\ (forall pre rest,
          forallb (fun c => negb (c =? 64)%N) pre = true ->
          forallb (fun c => negb (c =? 64)%N) rest = true ->
          ln = pre ++ js "uses: actions/checkout@a1b2c3d4e5f6" ++ rest ->
          findings_at (js "pin-actions-versions") (S n)
                      (fst (analyzeWorkflow filename text securityRules))
          = []).
Proof.
  intros filename text n ln Hn.
  pose proof (findings_at_rule filename text n ln rule_pin_actions) as H.
  cbn [Rule.id rule_pin_actions] in H. rewrite H by (simpl; auto).
  split.
  - intros pre post ->. rewrite pin_fires_on_main.
    eexists. split; [reflexivity |]. repeat split.
  - intros pre rest Hpre Hrest ->. now rewrite pin_quiet_on_commit.
Qed.

Lemma pin_actions_scenario_witness :
  (exists i,
     findings_at (js "pin-actions-versions") 2
       (fst (analyzeWorkflow (js "ci.yml")
               (js "steps:" ++ [LF] ++ js "  - uses: actions/checkout@main")
               securityRules)) = [i]
     /\ rule i = js "pin-actions-versions" /\ severity i = high
     /\ file i = js "ci.yml" /\ line i = 2
     /\ content i = trim (js "  - uses: actions/checkout@main"))
  /\ findings_at (js "pin-actions-versions") 1
       (fst (analyzeWorkflow (js "ci.yml")
               (js "uses: actions/checkout@a1b2c3d4e5f6...")
               securityRules)) = [].
Proof.
  split.
  - apply (pin_actions_scenario (js "ci.yml")
             (js "steps:" ++ [LF] ++ js "  - uses: actions/checkout@main")
             1 (js "  - uses: actions/checkout@main") eq_refl)
      with (pre := js "  - ") (post := []).
    reflexivity.
  - apply (pin_actions_scenario (js "ci.yml")
             (js "uses: actions/checkout@a1b2c3d4e5f6...") 0
             (js "uses: actions/checkout@a1b2c3d4e5f6...") eq_refl)
      with (pre := []) (rest := js "..."); reflexivity.
Defined.

(** ** no-plaintext-secrets *)

(** C4, as stated, fails: [password_hint: "abc"] assigns a quoted literal to
    a key whose name contains [password], and the scan of that line has no
    no-plaintext-secrets finding (it has no finding at all), because the
    keyword is not directly followed by the colon. *)
Lemma plaintext_secrets_counterexample :
  keyword_named_assignment
    (js "password_hint: " ++ [DQUOTE] ++ js "abc" ++ [DQUOTE])
  /\ fst (analyzeWorkflow (js "ci.yml")
            (js "password_hint: " ++ [DQUOTE] ++ js "abc" ++ [DQUOTE])
            securityRules) = [].
Proof.
  split.
  - exists (js "password_hint"), (js "abc"). split; [reflexivity |].
    left. exists [], (js "password"), (js "_hint").
    split; reflexivity.
  - rewrite analyzeWorkflow_plain by apply securityRules_plain.
    reflexivity.
Qed.

(** C4 (amended). On every line of a scanned file the no-plaintext-secrets
    rule, of severity critical, leaves a finding exactly when the line
    contains one of the keywords password, token, key, secret (in any
    letter case) directly followed by a colon, optional white space, a
    quote character, one or more characters that are not quotes, and a
    quote character.  So it fires on every line
    [<name ending in a keyword>: "<non-empty literal without quotes>"]. *)
Theorem plaintext_secrets_rule :
  forall filename text n ln,
    nth_error (split_lf text) n = Some ln ->
    (findings_at (js "no-plaintext-secrets") (S n)
                 (fst (analyzeWorkflow filename text securityRules)) <> []
     <-> contains secret_shape ln)
    /\ (forall i,
          In i (findings_at (js "no-plaintext-secrets") (S n)
                  (fst (analyzeWorkflow filename text securityRules))) ->
          severity i = critical)
    /\ (forall name kw body,
          secret_keyword kw -> body <> [] ->
          forallb (fun c => negb (is_quote c)) body = true ->
          ln = name ++ kw ++ js ": " ++ [DQUOTE] ++ body ++ [DQUOTE] ->
          findings_at (js "no-plaintext-secrets") (S n)
                      (fst (analyzeWorkflow filename text securityRules))
          = [finding_of filename (S n) ln rule_plaintext_secrets]).
Proof.
  intros filename text n ln Hn.
  pose proof (findings_at_rule filename text n ln rule_plaintext_secrets)
    as H.
  cbn [Rule.id rule_plaintext_secrets] in H. rewrite H by (simpl; auto).
  clear H. repeat split.
  - intros H. apply fires_plaintext_secrets.
    now destruct (fires rule_plaintext_secrets ln).
  - intros H. apply fires_plaintext_secrets in H. rewrite H. discriminate.
  - intros i Hi. destruct (fires rule_plaintext_secrets ln);
      [| contradiction].
    destruct Hi as [<- | []]. reflexivity.
  - intros name kw body Hkw Hne Hbody ->.
    assert (E : fires rule_plaintext_secrets
                  (name ++ kw ++ js ": " ++ [DQUOTE] ++ body ++ [DQUOTE])
                = true).
    { apply fires_plaintext_secrets.
      exists name, (kw ++ js ":" ++ js " " ++ [DQUOTE] ++ body ++ [DQUOTE]),
        [].
      split; [now rewrite app_nil_r |].
      exists kw, (js " "), DQUOTE, body, DQUOTE. repeat split; auto. }
    now rewrite E.
Qed.

Lemma plaintext_secrets_rule_witness :
  findings_at (js "no-plaintext-secrets") 2
    (fst (analyzeWorkflow (js "ci.yml")
            (js "env:" ++ [LF] ++ js "  API_KEY: " ++ [DQUOTE]
                ++ js "abc123" ++ [DQUOTE])
            securityRules))
  = [finding_of (js "ci.yml") 2
       (js "  API_KEY: " ++ [DQUOTE] ++ js "abc123" ++ [DQUOTE])
       rule_plaintext_secrets].
Proof.
  apply (plaintext_secrets_rule (js "ci.yml")
           (js "env:" ++ [LF] ++ js "  API_KEY: " ++ [DQUOTE]
               ++ js "abc123" ++ [DQUOTE])
           1 (js "  API_KEY: " ++ [DQUOTE] ++ js "abc123" ++ [DQUOTE])
           eq_refl)
    with (name := js "  API_") (kw := js "KEY") (body := js "abc123").
  - right. right. left. reflexivity.
  - discriminate.
  - reflexivity.
  - reflexivity.
Defined.

(** ** Results of a repository scan *)

(** C2. The findings of a successful scan are, for the files the provider
    supplied in their order, for the lines of each file in line order, one
    finding per rule whose pattern matches the line, in rule-set order: no
    finding for a line no rule matches, N findings for a line N rules
    match. *)
Theorem findings_one_per_match_in_order :
  forall base64_decode spread_overflow this repo r st',
    scanRepository base64_decode spread_overflow this repo securityRules
    = (Normal r, st') ->
    success r = true ->
    (exists entries,
        octokit_getContent this (listing_request this repo)
        = Normal (DataArray entries)
        /\ issues r
           = scan_findings securityRules
               (provided_files base64_decode this repo entries))
    /\ (forall files,
          scan_findings securityRules files
          = flat_map (fun f =>
                        lines_findings securityRules (fst f) 1
                                       (split_lf (snd f))) files)
    /\ (forall filename n ln,
          line_findings securityRules filename n ln
          = map (finding_of filename n ln)
                (filter (fun rl => fires rl ln) securityRules)
          /\ length (line_findings securityRules filename n ln)
             = length (filter (fun rl => fires rl ln) securityRules)).
Proof.
  intros base64_decode spread_overflow this repo r st' Hscan Hok.
  rewrite scanRepository_plain in Hscan by apply securityRules_plain.
  injection Hscan as <- _. unfold scan_outcome in *.
  split; [| split].
  - destruct (octokit_getContent this (listing_request this repo))
      as [[entries | c] | e]; try discriminate.
    destruct (first_failure _ _ _ _ _ entries); [discriminate |].
    exists entries. split; reflexivity.
  - reflexivity.
  - intros filename n ln. split; [reflexivity |].
    unfold line_findings. apply length_map.
Qed.

Lemma findings_one_per_match_in_order_witness :
  exists r,
    fst (scanRepository Sample.decode Sample.spread Sample.scanner (js "app")
                        securityRules)
    = Normal r
    /\ map (fun i => (file i, line i, rule i)) (issues r)
       = [ (js "ci.yml", 2, js "pin-actions-versions");
           (js "ci.yml", 2, js "third-party-action-review");
           (js "ci.yml", 3, js "script-injection");
           (js "release.yaml", 2, js "no-plaintext-secrets") ].
Proof.
  destruct (scanRepository Sample.decode Sample.spread Sample.scanner (js "app")
              securityRules) as [[r | e] st'] eqn:E.
  - exists r. split; [reflexivity |].
    assert (Hok : success r = true).
    { rewrite scanRepository_plain in E by apply securityRules_plain.
      injection E as <- _. reflexivity. }
    destruct (findings_one_per_match_in_order _ _ _ _ _ _ E Hok)
      as ((entries & Hl & ->) & _).
    vm_compute in Hl. injection Hl as <-. reflexivity.
  - exfalso. rewrite scanRepository_plain in E by apply securityRules_plain.
    discriminate.
Defined.

Lemma first_failure_split decode spread this rules repo :
  forall before f e after,
  (forall g, In g before -> skipped g = false ->
             exists d,
               octokit_getContent this (file_request this repo g) = Normal d
               /\ forall raw,
                    d = DataObject (Some raw) ->
                    spread (length (file_findings rules (name g)
                                                  (decode raw))) = None) ->
  skipped f = false ->
  octokit_getContent this (file_request this repo f) = Abrupt e ->
  first_failure decode spread this rules repo (before ++ f :: after)
  = Some e.
Proof.
  induction before as [| g before IH]; intros f e after Hb Hs Hf; simpl.
  - now rewrite Hs, Hf.
  - assert (Hrest : first_failure decode spread this rules repo
                                  (before ++ f :: after) = Some e).
    { apply IH; auto. intros h Hh. apply Hb. now right. }
    destruct (skipped g) eqn:Hg; [exact Hrest |].
    destruct (Hb g (or_introl eq_refl) Hg) as (d & -> & Hd).
    destruct d as [arr | [raw |]]; try exact Hrest.
    now rewrite (Hd raw eq_refl).
Qed.

(** C5. [scanRepository] always returns a result and never throws, and in
    every result with success false the findings are empty and the message
    describes the failure.  When the listing of the workflow directory
    throws or is not a directory, and when the request for a listed
    workflow file throws, the result has success false, no findings and a
    message: the no-directory text, or [Error scanning workflows:] with the
    text of what was thrown, which is the error of the first request that
    threw when the files before it went through. *)
Theorem retrieval_failure_is_a_result :
  forall base64_decode spread_overflow this repo,
    exists r,
      scanRepository base64_decode spread_overflow this repo securityRules
      = (Normal r, securityRules)
      /\ (success r = false ->
          issues r = []
          /\ (message r
              = js "No workflows directory found or not a directory"
              \/ exists e,
                   message r
                   = js "Error scanning workflows: " ++ thrown_text e))
      /\ match octokit_getContent this (listing_request this repo) with
         | Abrupt e =>
             success r = false /\ issues r = []
             /\ message r = js "Error scanning workflows: " ++ thrown_text e
         | Normal (DataObject _) =>
             success r = false /\ issues r = []
             /\ message r
                = js "No workflows directory found or not a directory"
         | Normal (DataArray entries) =>
             (file_fetch_fails this repo entries ->
              success r = false /\ issues r = []
              /\ exists e,
                   message r
                   = js "Error scanning workflows: " ++ thrown_text e)
             /\ (forall before f e after,
                   entries = before ++ f :: after ->
                   (forall g, In g before -> skipped g = false ->
                              passes base64_decode spread_overflow this repo
                                     g) ->
                   skipped f = false ->
                   octokit_getContent this (file_request this repo f)
                   = Abrupt e ->
                   success r = false /\ issues r = []
                   /\ message r
                      = js "Error scanning workflows: " ++ thrown_text e)
         end.
Proof.
  intros base64_decode spread_overflow this repo.
  exists (scan_outcome base64_decode spread_overflow this securityRules repo).
  split; [apply scanRepository_plain, securityRules_plain |].
  unfold scan_outcome.
  destruct (octokit_getContent this (listing_request this repo))
    as [[entries | c] | e]; cbn [success issues message result_error
                                  result_no_directory];
    try (repeat split; eauto; fail).
  split; [| split].
  - destruct (first_failure _ _ _ _ _ entries) as [e |];
      cbn [success issues message result_error result_scanned];
      [| discriminate].
    intros _. split; [reflexivity |]. right. now exists e.
  - intros Hfail.
    apply (fetch_fails_first_failure base64_decode spread_overflow this
             securityRules) in Hfail.
    destruct (first_failure _ _ _ _ _ entries) as [e |]; [| congruence].
    cbn [success issues message result_error]. repeat split. now exists e.
  - intros before f e after -> Hb Hs Hf.
    rewrite (first_failure_split base64_decode spread_overflow this
               securityRules repo before f e after Hb Hs Hf).
    cbn [success issues message result_error]. repeat split.
Qed.

Lemma retrieval_failure_is_a_result_witness :
  (exists r,
      scanRepository Sample.decode Sample.spread Sample.scanner
                     (js "missing") securityRules
      = (Normal r, securityRules)
      /\ success r = false /\ issues r = []
      /\ message r = js "Error scanning workflows: Not Found")
  /\ (exists r,
        scanRepository Sample.decode Sample.spread Sample2.scanner_broken
                       (js "app") securityRules
        = (Normal r, securityRules)
        /\ success r = false /\ issues r = []
        /\ message r = js "Error scanning workflows: Server Error").
Proof.
  split.
  - destruct (retrieval_failure_is_a_result Sample.decode Sample.spread
                Sample.scanner (js "missing")) as (r & Hrun & _ & H).
    exists r. split; [exact Hrun |]. exact H.
  - destruct (retrieval_failure_is_a_result Sample.decode Sample.spread
                Sample2.scanner_broken (js "app")) as (r & Hrun & _ & H).
    exists r. split; [exact Hrun |]. cbn in H. destruct H as (_ & H).
    apply (H [mkEntry (js "file") (js "ci.yml")
                      (js ".github/workflows/ci.yml")]
             (mkEntry (js "file") (js "gone.yml")
                      (js ".github/workflows/gone.yml"))
             (ThrownError (js "Server Error"))
             [mkEntry (js "file") (js "release.yaml")
                      (js ".github/workflows/release.yaml")]).
    + reflexivity.
    + intros g [<- | []] _. eexists. split; [reflexivity |].
      intros raw Hraw. injection Hraw as <-. reflexivity.
    + reflexivity.
    + reflexivity.
Defined.

(** A file of [n] lines [uses:] draws [n] findings, one per line. *)
Lemma split_lf_uses rest :
  split_lf (js "uses:" ++ LF :: rest) = js "uses:" :: split_lf rest.
Proof.
  change (js "uses:" ++ LF :: rest)
    with (117 :: 115 :: 101 :: 115 :: 58 :: LF :: rest)%N.
  rewrite !split_lf_cons. reflexivity.
Qed.

Lemma uses_lines_findings filename : forall n first,
  length (lines_findings securityRules filename first
            (split_lf (concat (repeat (js "uses:" ++ [LF]) n)))) = n.
Proof.
  induction n as [| n IH]; intros first; [reflexivity |].
  cbn [repeat concat]. rewrite <- app_assoc.
  change ([LF] ++ concat (repeat (js "uses:" ++ [LF]) n))
    with (LF :: concat (repeat (js "uses:" ++ [LF]) n)).
  rewrite split_lf_uses. cbn [lines_findings].
  rewrite length_app, IH. reflexivity.
Qed.

Lemma big_yml_overflows :
  Sample.spread
    (length (file_findings securityRules (js "big.yml")
               (Sample.decode Sample2.big_yml)))
  = Some (ThrownError (js "Maximum call stack size exceeded")).
Proof.
  unfold file_findings, Sample.decode, Sample2.big_yml.
  rewrite uses_lines_findings. unfold Sample.spread.
  rewrite N2Nat.id. reflexivity.
Qed.

Lemma big_yml_collecting_failed :
  collecting_failed Sample.decode Sample.spread Sample2.scanner_big
                    (js "app").
Proof.
  exists (mkEntry (js "file") (js "big.yml")
                        (js ".github/workflows/big.yml")),
               Sample2.big_yml,
               (ThrownError (js "Maximum call stack size exceeded")).
  split; [left; reflexivity |]. split; [reflexivity |].
  split; [reflexivity |]. exact big_yml_overflows.
Qed.

Lemma first_failure_big :
  first_failure Sample.decode Sample.spread Sample2.scanner_big
                securityRules (js "app") Sample2.entries_big
  = Some (ThrownError (js "Maximum call stack size exceeded")).
Proof.
  change (first_failure Sample.decode Sample.spread Sample2.scanner_big
            securityRules (js "app") Sample2.entries_big)
    with (match Sample.spread
                  (length (file_findings securityRules (js "big.yml")
                             (Sample.decode Sample2.big_yml))) with
          | Some e => Some e
          | None => None
          end).
  now rewrite big_yml_overflows.
Qed.

(** C6 (defect in the code). A scan should have success false only when
    the workflow source could not be retrieved.  The code has success false
    exactly when the source could not be retrieved (the listing request
    threw or did not answer with a directory, or a request for a listed
    workflow file threw) or when collecting the findings threw:
    [issues.push(...fileIssues)] passes the findings of a file as the
    arguments of one call, and with more findings than the engine takes in
    one call it throws inside the [try].  Then every request was answered
    and still the result has success false, no findings and an error
    message.  With no such file the claim holds as written, and the scan of
    an empty listing succeeds with no findings. *)
Theorem failure_only_on_retrieval :
  forall base64_decode spread_overflow this repo r st',
    scanRepository base64_decode spread_overflow this repo securityRules
    = (Normal r, st') ->
    (success r = false
     <-> retrieval_failed this repo
         \/ collecting_failed base64_decode spread_overflow this repo)
    /\ (collecting_failed base64_decode spread_overflow this repo ->
        success r = false /\ issues r = []
        /\ exists e,
             message r = js "Error scanning workflows: " ++ thrown_text e)
    /\ (~ collecting_failed base64_decode spread_overflow this repo ->
        (success r = false <-> retrieval_failed this repo))
    /\ (octokit_getContent this (listing_request this repo)
        = Normal (DataArray []) ->
        success r = true /\ issues r = []).
Proof.
  intros base64_decode spread_overflow this repo r st' Hscan.
  rewrite scanRepository_plain in Hscan by apply securityRules_plain.
  injection Hscan as <- _.
  assert (Hiff : success (scan_outcome base64_decode spread_overflow this
                                       securityRules repo) = false
                 <-> retrieval_failed this repo
                     \/ collecting_failed base64_decode spread_overflow
                                          this repo).
  { unfold scan_outcome, retrieval_failed, collecting_failed.
    destruct (octokit_getContent this (listing_request this repo))
      as [[entries | c] | e]; simpl; try tauto.
    rewrite <- first_failure_fails.
    destruct (first_failure _ _ _ _ _ entries); simpl; split;
      congruence. }
  split; [exact Hiff | split; [| split]].
  - intros Hc. unfold scan_outcome, collecting_failed in *.
    destruct (octokit_getContent this (listing_request this repo))
      as [[entries | c] | e]; try contradiction.
    apply spread_fails_first_failure in Hc.
    destruct (first_failure _ _ _ _ _ entries) as [e |]; [| congruence].
    simpl. repeat split. now exists e.
  - tauto.
  - intros Hl. unfold scan_outcome. rewrite Hl. simpl. auto.
Qed.

Lemma failure_only_on_retrieval_witness :
  ~ retrieval_failed Sample2.scanner_big (js "app")
  /\ exists r,
       fst (scanRepository Sample.decode Sample.spread Sample2.scanner_big
                           (js "app") securityRules)
       = Normal r
       /\ success r = false /\ issues r = []
       /\ message r
          = js "Error scanning workflows: Maximum call stack size exceeded".
Proof.
  split.
  - intros (f & e & [<- | []] & _ & H). discriminate H.
  - destruct (scanRepository Sample.decode Sample.spread
                Sample2.scanner_big (js "app") securityRules)
      as [[r | e] st'] eqn:E.
    + exists r. split; [reflexivity |].
      destruct (failure_only_on_retrieval _ _ _ _ _ _ E)
        as (_ & H & _).
      destruct (H big_yml_collecting_failed) as (Hs & Hi & _).
      repeat split; [exact Hs | exact Hi |].
      rewrite scanRepository_plain in E by apply securityRules_plain.
      pose proof (f_equal (fun c => match c with
                                    | (Normal x, _) => x
                                    | (Abrupt _, _) => r
                                    end) E) as Hr.
      cbv beta iota in Hr. rewrite <- Hr.
      change (scan_outcome Sample.decode Sample.spread Sample2.scanner_big
                securityRules (js "app"))
        with (match first_failure Sample.decode Sample.spread
                      Sample2.scanner_big securityRules (js "app")
                      Sample2.entries_big with
              | Some e => result_error (js "app") e
              | None =>
                  result_scanned (js "app")
                    (scan_findings securityRules
                       (provided_files Sample.decode Sample2.scanner_big
                          (js "app") Sample2.entries_big))
              end).
      rewrite first_failure_big. reflexivity.
    + exfalso. rewrite scanRepository_plain in E
        by apply securityRules_plain.
      discriminate.
Defined.

(** C10. The message of a successful scan tells the number of findings:
    [Found N security issues in workflows] with N the length of the
    findings when there are some, [No security issues found in workflows]
    when there are none. *)
Theorem success_message_counts_findings :
  forall base64_decode spread_overflow this repo r st',
    scanRepository base64_decode spread_overflow this repo securityRules
    = (Normal r, st') ->
    success r = true ->
    (issues r <> [] ->
     message r = js "Found " ++ decimal (length (issues r))
                    ++ js " security issues in workflows")
    /\ (issues r = [] ->
        message r = js "No security issues found in workflows").
Proof.
  intros base64_decode spread_overflow this repo r st' Hscan Hok.
  rewrite scanRepository_plain in Hscan by apply securityRules_plain.
  injection Hscan as <- _. unfold scan_outcome in *.
  destruct (octokit_getContent this (listing_request this repo))
    as [[entries | c] | e]; try discriminate.
  destruct (first_failure _ _ _ _ _ entries); [discriminate |].
  simpl. destruct (scan_findings _ _); split; intros H;
    congruence || reflexivity.
Qed.

Lemma success_message_counts_findings_witness :
  exists r,
    fst (scanRepository Sample.decode Sample.spread Sample.scanner (js "app")
                        securityRules)
    = Normal r
    /\ message r = js "Found 4 security issues in workflows".
Proof.
  destruct (scanRepository Sample.decode Sample.spread Sample.scanner (js "app")
              securityRules) as [[r | e] st'] eqn:E.
  - exists r. split; [reflexivity |].
    assert (Hr : r = scan_outcome Sample.decode Sample.spread Sample.scanner
              securityRules
                       (js "app")).
    { rewrite scanRepository_plain in E by apply securityRules_plain.
      now injection E as <- _. }
    assert (Hok : success r = true) by (rewrite Hr; reflexivity).
    destruct (success_message_counts_findings _ _ _ _ _ _ E Hok) as (H & _).
    rewrite H by (rewrite Hr; discriminate).
    rewrite Hr. reflexivity.
  - exfalso. rewrite scanRepository_plain in E by apply securityRules_plain.
    discriminate.
Defined.

Lemma first_failure_ext decode spread t1 t2 rules repo :
  owner t1 = owner t2 ->
  (forall q, octokit_getContent t1 q = octokit_getContent t2 q) ->
  forall entries,
    first_failure decode spread t1 rules repo entries
    = first_failure decode spread t2 rules repo entries.
Proof.
  intros Ho Hq. induction entries as [| f rest IH]; simpl; [reflexivity |].
  unfold file_request. rewrite Ho, Hq, IH. reflexivity.
Qed.

Lemma provided_files_ext decode t1 t2 repo :
  owner t1 = owner t2 ->
  (forall q, octokit_getContent t1 q = octokit_getContent t2 q) ->
  forall entries,
    provided_files decode t1 repo entries
    = provided_files decode t2 repo entries.
Proof.
  intros Ho Hq. induction entries as [| f rest IH]; simpl; [reflexivity |].
  unfold file_request. rewrite Ho, Hq, IH. reflexivity.
Qed.

Lemma scan_outcome_ext decode spread t1 t2 rules repo :
  owner t1 = owner t2 ->
  (forall q, octokit_getContent t1 q = octokit_getContent t2 q) ->
  scan_outcome decode spread t1 rules repo
  = scan_outcome decode spread t2 rules repo.
Proof.
  intros Ho Hq. unfold scan_outcome, listing_request.
  rewrite Ho, Hq.
  destruct (octokit_getContent t2 _) as [[entries | c] | e];
    try reflexivity.
  rewrite (first_failure_ext decode spread t1 t2 rules repo Ho Hq).
  rewrite (provided_files_ext decode t1 t2 repo Ho Hq). reflexivity.
Qed.

(** C9. Scanning and rendering are functions of their input.  A scan hands
    the rule table back as it got it, so a second scan of the same
    repository against the same provider answers returns the same result
    as the first; two clients that answer every request alike get the same
    result; and two renderings of the same result are the same text. *)
Theorem scan_and_render_repeatable :
  forall base64_decode spread_overflow this repo,
    snd (scanRepository base64_decode spread_overflow this repo securityRules)
    = securityRules
    /\ fst (scanRepository base64_decode spread_overflow this repo
              (snd (scanRepository base64_decode spread_overflow this repo
                      securityRules)))
       = fst (scanRepository base64_decode spread_overflow this repo
                securityRules)
    /\ (forall other,
          owner other = owner this ->
          (forall q, octokit_getContent other q = octokit_getContent this q) ->
          fst (scanRepository base64_decode spread_overflow other repo
                 securityRules)
          = fst (scanRepository base64_decode spread_overflow this repo
                   securityRules))
    /\ (forall r1 r2,
          fst (scanRepository base64_decode spread_overflow this repo
                 securityRules)
          = Normal r1 ->
          fst (scanRepository base64_decode spread_overflow this repo
                 (snd (scanRepository base64_decode spread_overflow this repo
                         securityRules)))
          = Normal r2 ->
          r1 = r2 /\ generateReport r1 = generateReport r2).
Proof.
  intros base64_decode spread_overflow this repo.
  rewrite !scanRepository_plain by apply securityRules_plain. cbn [fst snd].
  rewrite ?scanRepository_plain by apply securityRules_plain. cbn [fst snd].
  split; [reflexivity |]. split; [reflexivity |]. split.
  - intros other Ho Hq.
    rewrite scanRepository_plain by apply securityRules_plain. cbn [fst].
    now rewrite (scan_outcome_ext base64_decode spread_overflow
                   other this _ repo Ho Hq).
  - intros r1 r2 H1 H2. split; congruence.
Qed.

Lemma scan_and_render_repeatable_witness :
  fst (scanRepository Sample.decode Sample.spread Sample.scanner (js "app")
         (snd (scanRepository Sample.decode Sample.spread
                 Sample.scanner (js "app")
                 securityRules)))
  = fst (scanRepository Sample.decode Sample.spread Sample.scanner (js "app")
           securityRules).
Proof.
  destruct (scan_and_render_repeatable Sample.decode Sample.spread
              Sample.scanner
              (js "app")) as (_ & H & _).
  exact H.
Defined.

(** ** The report *)

Lemma format_step_block result i :
  format_step result i = result ++ finding_block i.
Proof.
  unfold format_step, finding_block.
  repeat rewrite <- app_assoc. reflexivity.
Qed.

Lemma fold_format_step l : forall acc,
  fold_left format_step l acc = acc ++ concat (map finding_block l).
Proof.
  induction l as [| i l IH]; intros acc; simpl.
  - now rewrite app_nil_r.
  - now rewrite IH, format_step_block, <- app_assoc.
Qed.

Lemma formatIssues_blocks l : formatIssues l = concat (map finding_block l).
Proof. unfold formatIssues. now rewrite fold_format_step. Qed.

Lemma count_severity_length sev l :
  count_severity sev l = length (of_severity sev l).
Proof.
  unfold of_severity. induction l as [| i l IH]; simpl; [reflexivity |].
  rewrite IH. now destruct (severity_eqb (severity i) sev).
Qed.

(** The guarded append of one subsection in [generateReport]. *)
Lemma section_append report heading found sev :
  heading = js "## " ++ severity_label sev ++ js " Issues" ++ [LF; LF] ->
  (if 0 <? length (of_severity sev found)
   then (report ++ heading) ++ formatIssues (of_severity sev found)
   else report)
  = report ++ severity_section found sev.
Proof.
  intros ->. unfold severity_section.
  destruct (of_severity sev found) as [| i fs] eqn:E.
  - simpl. now rewrite app_nil_r.
  - cbn [length Nat.ltb Nat.leb]. rewrite formatIssues_blocks.
    now rewrite <- !app_assoc.
Qed.

Lemma generateReport_findings r :
  success r = true -> issues r <> [] ->
  generateReport r = render_findings r.
Proof.
  intros Hok Hne. unfold generateReport. rewrite Hok. cbn [negb].
  destruct (issues r) as [| i0 rest] eqn:E; [congruence |].
  cbn [length Nat.eqb]. rewrite <- E. cbv zeta.
  fold (of_severity critical (issues r)) (of_severity high (issues r))
       (of_severity medium (issues r)) (of_severity low (issues r)).
  rewrite (section_append _ _ (issues r) critical) by reflexivity.
  rewrite (section_append _ _ (issues r) high) by reflexivity.
  rewrite (section_append _ _ (issues r) medium) by reflexivity.
  rewrite (section_append _ _ (issues r) low) by reflexivity.
  unfold render_findings, severities, summary_line.
  rewrite <- !count_severity_length.
  cbn [map concat severity_label].
  repeat rewrite <- app_assoc. rewrite !app_nil_r. reflexivity.
Qed.

Lemma infix_of_refl a : infix_of a a.
Proof. exists [], []. now rewrite app_nil_r. Qed.

Lemma infix_of_app_r a s t : infix_of a s -> infix_of a (t ++ s).
Proof.
  intros (pre & post & ->). exists (t ++ pre), post.
  now rewrite <- app_assoc.
Qed.

Lemma infix_of_app_l a s t : infix_of a s -> infix_of a (s ++ t).
Proof.
  intros (pre & post & ->). exists pre, (post ++ t).
  now rewrite <- !app_assoc.
Qed.

Lemma infix_of_concat a l : In a l -> infix_of a (concat l).
Proof.
  intros H. apply in_split in H. destruct H as (l1 & l2 & ->).
  rewrite concat_app. simpl.
  apply infix_of_app_r, infix_of_app_l, infix_of_refl.
Qed.

Lemma severity_eqb_refl sev : severity_eqb sev sev = true.
Proof. now destruct sev. Qed.

Lemma block_in_section found i :
  In i found -> infix_of (finding_block i) (severity_section found (severity i)).
Proof.
  intros Hi. unfold severity_section.
  assert (Hin : In i (of_severity (severity i) found)).
  { apply filter_In. split; [exact Hi | apply severity_eqb_refl]. }
  destruct (of_severity (severity i) found) as [| j fs] eqn:E;
    [contradiction |].
  rewrite !app_assoc. apply infix_of_app_r, infix_of_concat.
  apply in_map. exact Hin.
Qed.

Lemma section_in_report r sev :
  infix_of (severity_section (issues r) sev) (render_findings r).
Proof.
  unfold render_findings.
  do 7 apply infix_of_app_r.
  apply infix_of_concat, in_map. destruct sev; simpl; auto.
Qed.

Lemma infix_of_trans a b c : infix_of a b -> infix_of b c -> infix_of a c.
Proof.
  intros (p1 & q1 & ->) (p2 & q2 & ->).
  exists (p2 ++ p1), (q1 ++ q2). now rewrite <- !app_assoc.
Qed.

(** C7. For a result with success true and at least one finding the report
    is: the title, the summary with one count line per severity in the
    order critical, high, medium, low, each the number of findings of that
    severity (0 included), then the subsections in that same order, one for
    each severity that has findings, made of the blocks of all its
    findings; a block shows the rule, file, line, description, offending
    text and remediation.  Every finding of the result has its block in the
    report. *)
Theorem report_of_findings :
  forall r,
    success r = true -> issues r <> [] ->
    generateReport r
    = js "# Workflow Security Scan Report for " ++ repository r ++ [LF; LF]
      ++ js "## Summary" ++ [LF; LF]
      ++ concat (map (summary_line (issues r)) [critical; high; medium; low])
      ++ [LF]
      ++ concat (map (severity_section (issues r))
                     [critical; high; medium; low])
    /\ (forall sev,
          count_severity sev (issues r)
          = length (filter (fun i => severity_eqb (severity i) sev)
                           (issues r)))
    /\ (forall i, In i (issues r) ->
                  infix_of (finding_block i) (generateReport r)).
Proof.
  intros r Hok Hne. rewrite generateReport_findings by assumption.
  split; [reflexivity |]. split.
  - intros sev. apply count_severity_length.
  - intros i Hi.
    apply infix_of_trans with (severity_section (issues r) (severity i)).
    + now apply block_in_section.
    + apply section_in_report.
Qed.

Lemma report_of_findings_witness :
  generateReport
    (mkResult (js "app") true (js "Found 1 security issues in workflows")
       [finding_of (js "ci.yml") 7 (js "  token: 'abc'")
                   rule_plaintext_secrets])
  = js "# Workflow Security Scan Report for app" ++ [LF; LF]
    ++ js "## Summary" ++ [LF; LF]
    ++ js "- Critical: 1" ++ [LF] ++ js "- High: 0" ++ [LF]
    ++ js "- Medium: 0" ++ [LF] ++ js "- Low: 0" ++ [LF; LF]
    ++ js "## Critical Issues" ++ [LF; LF]
    ++ js "### no-plaintext-secrets" ++ [LF; LF]
    ++ js "**File**: " ++ [BACKTICK] ++ js "ci.yml" ++ [BACKTICK]
    ++ js " (line 7)" ++ [LF; LF]
    ++ js "**Description**: Avoid hardcoded secrets in workflows" ++ [LF; LF]
    ++ js "**Code**:" ++ [LF] ++ [BACKTICK; BACKTICK; BACKTICK] ++ js "yaml"
    ++ [LF] ++ js "token: 'abc'" ++ [LF] ++ [BACKTICK; BACKTICK; BACKTICK]
    ++ [LF; LF]
    ++ js "**Remediation**: Use GitHub Secrets (secrets.*) instead of hardcoded values"
    ++ [LF; LF] ++ js "---" ++ [LF; LF].
Proof.
  destruct (report_of_findings
              (mkResult (js "app") true
                 (js "Found 1 security issues in workflows")
                 [finding_of (js "ci.yml") 7 (js "  token: 'abc'")
                             rule_plaintext_secrets])
              eq_refl) as (H & _).
  - discriminate.
  - rewrite H. reflexivity.
Defined.

(** ** Line endings *)

(** C8. When every carriage return of a content is directly followed by a
    line feed, the scan of the content returns the same findings as the
    scan of the content with the carriage returns taken out: same file and
    line numbers, same rules and severities, same trimmed text. *)
Theorem crlf_scan_same_as_lf_scan :
  forall filename text,
    crlf_only text = true ->
    fst (analyzeWorkflow filename text securityRules)
    = fst (analyzeWorkflow filename (strip_cr text) securityRules).
Proof.
  intros filename text H.
  rewrite !analyzeWorkflow_plain by apply securityRules_plain.
  cbn [fst]. unfold file_findings.
  apply lines_findings_same_but_cr. now apply split_lf_strip_cr.
Qed.

Lemma crlf_scan_same_as_lf_scan_witness :
  fst (analyzeWorkflow (js "ci.yml") Sample.ci_yml securityRules)
  = fst (analyzeWorkflow (js "ci.yml") (strip_cr Sample.ci_yml)
                         securityRules)
  /\ length (fst (analyzeWorkflow (js "ci.yml") Sample.ci_yml securityRules))
     = 3.
Proof.
  split.
  - apply (crlf_scan_same_as_lf_scan (js "ci.yml") Sample.ci_yml).
    reflexivity.
  - reflexivity.
Defined.

(** * Further properties of the scanner *)

(** ** Findings against lines and rules *)

Lemma in_line_findings rules filename n ln i :
  In i (line_findings rules filename n ln)
  <-> exists r, In r rules /\ fires r ln = true
                /\ i = finding_of filename n ln r.
Proof.
  unfold line_findings. rewrite in_map_iff. split.
  - intros (r & <- & Hr). apply filter_In in Hr. destruct Hr. eauto.
  - intros (r & Hr & Hf & ->). exists r. split; [reflexivity |].
    apply filter_In. auto.
Qed.

Lemma in_lines_findings rules filename i : forall lines first,
  In i (lines_findings rules filename first lines)
  <-> exists n ln r,
        nth_error lines n = Some ln /\ In r rules /\ fires r ln = true
        /\ i = finding_of filename (first + n) ln r.
Proof.
  induction lines as [| l lines IH]; intros first; cbn [lines_findings].
  - split; [intros [] | intros ([| n] & ln & r & H & _); discriminate].
  - rewrite in_app_iff, in_line_findings, IH. split.
    + intros [(r & Hr & Hf & ->) | (n & ln & r & Hn & Hr & Hf & ->)].
      * exists 0, l, r. rewrite Nat.add_0_r. auto.
      * exists (S n), ln, r. replace (first + S n) with (S first + n) by lia.
        auto.
    + intros ([| n] & ln & r & Hn & Hr & Hf & ->).
      * injection Hn as ->. left. exists r. rewrite Nat.add_0_r. auto.
      * right. exists n, ln, r.
        replace (first + S n) with (S first + n) by lia. auto.
Qed.

Lemma in_analyzeWorkflow filename text i :
  In i (fst (analyzeWorkflow filename text securityRules))
  <-> exists n ln r,
        nth_error (split_lf text) n = Some ln
        /\ In r securityRules /\ fires r ln = true
        /\ i = finding_of filename (S n) ln r.
Proof.
  rewrite analyzeWorkflow_plain by apply securityRules_plain. cbn [fst].
  unfold file_findings. apply in_lines_findings.
Qed.

(** X1. A finding is in the result of [analyzeWorkflow] exactly when it is
    the finding of a rule of the table on a line of the content that the
    rule's pattern matches: the file name given, the 1-based number of the
    line, the rule's own id, description, severity and remediation, and the
    line trimmed. *)
Theorem analyzeWorkflow_findings_exact :
  forall filename text i,
    In i (fst (analyzeWorkflow filename text securityRules))
    <-> exists n ln r,
          nth_error (split_lf text) n = Some ln
          /\ In r securityRules /\ fires r ln = true
          /\ i = {| file := filename;
                    line := n + 1;
                    rule := Rule.id r;
                    description := Rule.description r;
                    severity := Rule.severity r;
                    remediation := Rule.remediation r;
                    content := trim ln |}.
Proof.
  intros filename text i. rewrite in_analyzeWorkflow. split.
  - intros (n & ln & r & Hn & Hr & Hf & ->). exists n, ln, r.
    repeat split; auto. unfold finding_of. f_equal. lia.
  - intros (n & ln & r & Hn & Hr & Hf & ->). exists n, ln, r.
    repeat split; auto. unfold finding_of. f_equal. lia.
Qed.

(** ** Order and number of findings *)

Lemma line_findings_length rules filename n ln :
  length (line_findings rules filename n ln) <= length rules.
Proof.
  unfold line_findings. rewrite length_map. apply filter_length_le.
Qed.

Lemma lines_findings_length rules filename : forall lines first,
  length (lines_findings rules filename first lines)
  <= length rules * length lines.
Proof.
  induction lines as [| l lines IH]; intros first; cbn [lines_findings].
  - simpl. lia.
  - rewrite length_app. specialize (IH (S first)).
    pose proof (line_findings_length rules filename first l). simpl. lia.
Qed.

Lemma sorted_app (l1 l2 : list nat) :
  StronglySorted le l1 -> StronglySorted le l2 ->
  (forall a b, In a l1 -> In b l2 -> a <= b) ->
  StronglySorted le (l1 ++ l2).
Proof.
  intros H1 H2 H. induction H1 as [| a l1 Hs IH Ha]; simpl; [exact H2 |].
  constructor.
  - apply IH. intros x y Hx Hy. apply H; [now right | exact Hy].
  - apply Forall_app. split; [exact Ha |].
    apply Forall_forall. intros y Hy. apply H; [now left | exact Hy].
Qed.

Lemma sorted_constant (k : nat) (l : list nat) :
  Forall (fun a => a = k) l -> StronglySorted le l.
Proof.
  induction 1 as [| a l Ha Hl IH]; constructor; [exact IH |].
  eapply Forall_impl; [| exact Hl]. intros b Hb. simpl in Hb. lia.
Qed.

Lemma lines_findings_sorted rules filename : forall lines first,
  StronglySorted le (map line (lines_findings rules filename first lines)).
Proof.
  induction lines as [| l lines IH]; intros first; cbn [lines_findings].
  - constructor.
  - rewrite map_app.
    assert (Hl : Forall (fun k => k = first)
                   (map line (line_findings rules filename first l))).
    { apply Forall_map. apply line_findings_line. }
    assert (Hr : Forall (fun k => S first <= k)
                   (map line (lines_findings rules filename (S first) lines))).
    { apply Forall_map. apply lines_findings_from. }
    apply sorted_app; [apply (sorted_constant first), Hl | apply IH |].
    intros a b Ha Hb. rewrite Forall_forall in Hl, Hr.
    specialize (Hl a Ha). specialize (Hr b Hb). simpl in Hl, Hr. lia.
Qed.

Lemma lines_findings_below rules filename : forall lines first,
  Forall (fun i => line i < first + length lines)
         (lines_findings rules filename first lines).
Proof.
  induction lines as [| ln lines IH]; intros first; simpl; [constructor |].
  apply Forall_app. split.
  - eapply Forall_impl; [| apply line_findings_line].
    intros i Hi. simpl in Hi. lia.
  - eapply Forall_impl; [| apply IH]. intros i Hi. simpl in Hi. lia.
Qed.

Lemma filter_none {A : Type} (p : A -> bool) (l : list A) :
  Forall (fun x => p x = false) l -> filter p l = [].
Proof.
  induction 1 as [| x l Hx _ IH]; simpl; [reflexivity |].
  now rewrite Hx.
Qed.

Lemma on_line_length rules filename : forall lines first n,
  length (filter (fun i => line i =? n)
                 (lines_findings rules filename first lines))
  <= length rules.
Proof.
  induction lines as [| l lines IH]; intros first n; cbn [lines_findings].
  - simpl. lia.
  - rewrite filter_app, length_app.
    destruct (Nat.eq_dec n first) as [-> | Hne].
    + rewrite (filter_none _ (lines_findings rules filename (S first) lines)).
      * pose proof (filter_length_le (fun i => line i =? first)
                      (line_findings rules filename first l)).
        pose proof (line_findings_length rules filename first l).
        simpl. lia.
      * eapply Forall_impl; [| apply lines_findings_from].
        intros i Hi. simpl in Hi. apply Nat.eqb_neq. lia.
    + rewrite (filter_none _ (line_findings rules filename first l)).
      * apply IH.
      * eapply Forall_impl; [| apply line_findings_line].
        intros i Hi. simpl in Hi. apply Nat.eqb_neq. lia.
Qed.

(** X2. The findings of [analyzeWorkflow] come in non-decreasing order of
    line number, and there are at most four of them (the size of the rule
    table) with any one line number, so at most four times the number of
    lines in all; the line numbers are those of the lines of the content,
    from 1 to one more than the number of line feeds in it. *)
Theorem analyzeWorkflow_sorted_and_bounded :
  forall filename text,
    StronglySorted le
      (map line (fst (analyzeWorkflow filename text securityRules)))
    /\ (forall n,
          length (filter (fun i => line i =? n)
                         (fst (analyzeWorkflow filename text securityRules)))
          <= 4)
    /\ Forall (fun i => 1 <= line i <= length (split_lf text))
              (fst (analyzeWorkflow filename text securityRules))
    /\ length (fst (analyzeWorkflow filename text securityRules))
       <= 4 * length (split_lf text)
    /\ length (split_lf text) = 1 + count_occ N.eq_dec text LF.
Proof.
  intros filename text.
  rewrite analyzeWorkflow_plain by apply securityRules_plain. cbn [fst].
  unfold file_findings. split; [apply lines_findings_sorted |].
  split; [intros n; apply (on_line_length securityRules) |].
  split.
  { apply Forall_forall. intros i Hi.
    pose proof (lines_findings_from securityRules filename
                  (split_lf text) 1) as Hlo.
    pose proof (lines_findings_below securityRules filename
                  (split_lf text) 1) as Hhi.
    rewrite Forall_forall in Hlo, Hhi.
    specialize (Hlo i Hi). specialize (Hhi i Hi). simpl in Hlo, Hhi. lia. }
  split; [apply (lines_findings_length securityRules) |].
  induction text as [| c text IH]; [reflexivity |].
  rewrite split_lf_cons. cbn [count_occ].
  destruct (N.eq_dec c LF) as [-> | Hne].
  - rewrite N.eqb_refl. simpl length. rewrite IH. reflexivity.
  - destruct (N.eqb_spec c LF); [congruence |].
    destruct (split_lf text) as [| l ls].
    + simpl in IH. lia.
    + simpl length in *.
      destruct (N.eq_dec LF c); [congruence | exact IH].
Qed.

(** ** Lines *)

Lemma split_lf_nonempty s : split_lf s <> [].
Proof.
  destruct s as [| c s]; [discriminate |]. rewrite split_lf_cons.
  destruct (c =? LF)%N; [discriminate |].
  destruct (split_lf s); discriminate.
Qed.


Lemma split_lf_partition :
  forall text,
    join_lf (split_lf text) = text
    /\ Forall (fun l => ~ In LF l) (split_lf text).
Proof.
  induction text as [| c text (IHj & IHf)].
  - split; [reflexivity |]. constructor; [intros [] | constructor].
  - rewrite split_lf_cons. destruct (N.eqb_spec c LF) as [-> | Hne].
    + split.
      * pose proof (split_lf_nonempty text) as Hn.
        destruct (split_lf text) as [| l ls] eqn:E; [congruence |].
        cbn [join_lf app]. cbn [join_lf] in IHj. now rewrite IHj.
      * constructor; [intros [] | exact IHf].
    + destruct (split_lf text) as [| l ls] eqn:E;
        [now destruct (split_lf_nonempty text) |].
      split.
      * rewrite <- IHj. destruct ls; reflexivity.
      * inversion IHf as [| ? ? Hl Hls]; subst.
        constructor; [| exact Hls].
        intros [H | H]; [congruence | auto].
Qed.

(** X5. The lines [analyzeWorkflow] scans are the pieces of the content
    between line feeds: none of them holds a line feed, and joined by line
    feeds they give the content back, so no character of the file is left
    out of the scan or moved to another line. *)
Theorem lines_partition_content :
  forall text,
    join_lf (split_lf text) = text
    /\ Forall (fun l => ~ In LF l) (split_lf text).
Proof. exact split_lf_partition. Qed.

(** ** Trimmed text *)

Lemma trimStart_split s :
  exists w, s = w ++ trimStart s /\ spaces w = true.
Proof.
  induction s as [| c s (w & Hs & Hw)]; [now exists [] |].
  simpl. destruct (isWhiteSpace c) eqn:E.
  - exists (c :: w). split; [simpl; congruence |]. simpl. now rewrite E.
  - now exists [].
Qed.

Lemma trimStart_hd s : isWhiteSpace (hd 0%N (trimStart s)) = false.
Proof.
  induction s as [| c s IH]; [reflexivity |].
  simpl. destruct (isWhiteSpace c) eqn:E; [exact IH | exact E].
Qed.

Lemma trimStart_solid s :
  isWhiteSpace (hd 0%N s) = false -> trimStart s = s.
Proof.
  destruct s as [| c s]; [reflexivity |]. simpl. now intros ->.
Qed.

Lemma trimEnd_snoc s c :
  trimEnd (s ++ [c]) = if isWhiteSpace c then trimEnd s else s ++ [c].
Proof.
  unfold trimEnd. rewrite rev_app_distr. simpl.
  destruct (isWhiteSpace c); [reflexivity |].
  simpl. now rewrite rev_involutive.
Qed.

Lemma trimEnd_last s : isWhiteSpace (last (trimEnd s) 0%N) = false.
Proof.
  induction s as [| c s IH] using rev_ind; [reflexivity |].
  rewrite trimEnd_snoc. destruct (isWhiteSpace c) eqn:E; [exact IH |].
  now rewrite last_last.
Qed.

Lemma trimEnd_solid s :
  isWhiteSpace (last s 0%N) = false -> trimEnd s = s.
Proof.
  destruct s as [| c s] using rev_ind; [reflexivity |].
  rewrite last_last, trimEnd_snoc. now intros ->.
Qed.

Lemma last_app_nonempty (a b : jsstring) d :
  b <> [] -> last (a ++ b) d = last b d.
Proof.
  intros Hb. destruct b as [| c b] using rev_ind; [congruence |].
  now rewrite app_assoc, !last_last.
Qed.

Lemma trim_no_outer_space s : no_outer_space (trim s).
Proof.
  unfold no_outer_space, trim. split; [apply trimStart_hd |].
  destruct (trimStart_split (trimEnd s)) as (w & Hs & _).
  destruct (trimStart (trimEnd s)) as [| c t] eqn:E; [reflexivity |].
  rewrite <- (last_app_nonempty w (c :: t)) by discriminate.
  rewrite <- Hs. apply trimEnd_last.
Qed.

Lemma trim_solid s : no_outer_space s -> trim s = s.
Proof.
  intros (Hh & Hl). unfold trim. rewrite (trimEnd_solid s Hl).
  now apply trimStart_solid.
Qed.

Lemma trimEnd_split s :
  exists w, s = trimEnd s ++ w /\ spaces w = true.
Proof.
  induction s as [| c s (w & Hs & Hw)] using rev_ind; [now exists [] |].
  rewrite trimEnd_snoc. destruct (isWhiteSpace c) eqn:E.
  - exists (w ++ [c]). split.
    + rewrite app_assoc. congruence.
    + unfold spaces in *. rewrite forallb_app, Hw. simpl. now rewrite E.
  - exists []. now rewrite app_nil_r.
Qed.

Lemma trim_split s :
  exists w1 w2, s = w1 ++ trim s ++ w2
                /\ spaces w1 = true /\ spaces w2 = true.
Proof.
  destruct (trimEnd_split s) as (w2 & Hs & Hw2).
  destruct (trimStart_split (trimEnd s)) as (w1 & Ht & Hw1).
  exists w1, w2. unfold trim.
  split; [| auto]. rewrite app_assoc, <- Ht. exact Hs.
Qed.

Lemma trim_keeps_out (c : codeunit) s : ~ In c s -> ~ In c (trim s).
Proof.
  intros H Hin. apply H. destruct (trim_split s) as (w1 & w2 & Hs & _).
  rewrite Hs. apply in_or_app. right. apply in_or_app. now left.
Qed.

(** ** White space around a line *)

Lemma ends_solid_ends_not c m :
  isWhiteSpace c = true -> ends_solid m -> ends_not c m.
Proof.
  intros Hc (m' & d & -> & Hd). exists m', d. split; [reflexivity |].
  intros ->. congruence.
Qed.

Lemma contains_cons_space (P : jsstring -> Prop) c s :
  (forall m, P m -> starts_solid m) -> isWhiteSpace c = true ->
  (contains P (c :: s) <-> contains P s).
Proof.
  intros HP Hc. split.
  - intros (pre & m & post & Hs & Hm).
    destruct pre as [| c' pre].
    + destruct (HP m Hm) as (d & m' & -> & Hd).
      simpl in Hs. injection Hs as Hcd _. congruence.
    + simpl in Hs. injection Hs as _ Hs. subst s. exists pre, m, post. auto.
  - intros (pre & m & post & -> & Hm). exists (c :: pre), m, post. auto.
Qed.

Lemma contains_trimStart (P : jsstring -> Prop) s :
  (forall m, P m -> starts_solid m) ->
  (contains P (trimStart s) <-> contains P s).
Proof.
  intros HP. induction s as [| c s IH]; [reflexivity |].
  simpl. destruct (isWhiteSpace c) eqn:E; [| reflexivity].
  rewrite IH. symmetry. now apply contains_cons_space.
Qed.

Lemma contains_trimEnd (P : jsstring -> Prop) s :
  (forall m, P m -> ends_solid m) ->
  (contains P (trimEnd s) <-> contains P s).
Proof.
  intros HP. induction s as [| c s IH] using rev_ind; [reflexivity |].
  rewrite trimEnd_snoc. destruct (isWhiteSpace c) eqn:E; [| reflexivity].
  rewrite IH. symmetry. apply contains_snoc.
  intros m Hm. apply ends_solid_ends_not; auto.
Qed.

Lemma contains_trim (P : jsstring -> Prop) s :
  (forall m, P m -> starts_solid m) -> (forall m, P m -> ends_solid m) ->
  (contains P (trim s) <-> contains P s).
Proof.
  intros Hs He. unfold trim.
  rewrite contains_trimStart by exact Hs. now apply contains_trimEnd.
Qed.

Lemma space_not_folded d :
  isWhiteSpace d = true -> canonicalize true d = d.
Proof.
  unfold isWhiteSpace, canonicalize. intros H. simpl.
  destruct (N.leb_spec 97 d), (N.leb_spec d 122); simpl; try reflexivity.
  rewrite !orb_true_iff, !andb_true_iff, !N.eqb_eq, !N.leb_le in H. lia.
Qed.

Lemma eq_nocase_starts_solid w a p :
  eq_nocase w (a :: p) -> isWhiteSpace (canonicalize true a) = false ->
  forall rest, starts_solid (w ++ rest).
Proof.
  intros H Ha rest. apply eq_nocase_head in H.
  destruct H as (r0 & w' & -> & Hr). exists r0, (w' ++ rest).
  split; [reflexivity |].
  destruct (isWhiteSpace r0) eqn:E; [| reflexivity].
  rewrite <- Hr, (space_not_folded r0 E) in Ha. congruence.
Qed.

Lemma eq_nocase_ends_solid ref w d :
  eq_nocase ref (w ++ [d]) -> isWhiteSpace (canonicalize true d) = false ->
  ends_solid ref.
Proof.
  unfold eq_nocase. intros H Hd.
  destruct ref as [| e ref'] using rev_ind.
  - rewrite map_app in H. simpl in H. destruct (map _ w); discriminate.
  - clear IHref'. rewrite !map_app in H. simpl in H.
    apply app_inj_tail in H. destruct H as (_ & He).
    exists ref', e. split; [reflexivity |].
    destruct (isWhiteSpace e) eqn:E; [| reflexivity].
    rewrite <- He, (space_not_folded e E) in Hd. congruence.
Qed.

Lemma ends_solid_app a m : ends_solid m -> ends_solid (a ++ m).
Proof.
  intros (m' & d & -> & Hd). exists (a ++ m'), d. now rewrite app_assoc.
Qed.

Lemma digits_ends_solid ref :
  ref <> [] -> forallb isDigit ref = true -> ends_solid ref.
Proof.
  intros Hne H. destruct ref as [| e ref'] using rev_ind; [congruence |].
  exists ref', e. split; [reflexivity |].
  rewrite forallb_app in H. simpl in H.
  apply andb_true_iff in H. destruct H as (_ & H).
  rewrite andb_true_r in H. unfold isDigit in H.
  apply andb_true_iff in H. destruct H as (H1 & H2).
  apply N.leb_le in H1, H2. unfold isWhiteSpace.
  repeat (apply orb_false_iff; split);
    try (apply N.eqb_neq; lia).
  apply andb_false_iff. left. apply N.leb_gt. lia.
Qed.

Lemma injection_shape_solid m :
  injection_shape m -> starts_solid m /\ ends_solid m.
Proof.
  intros (ws1 & ws2 & -> & _). split.
  - eexists _, _. split; reflexivity.
  - change (js "}}") with ([125%N] ++ [125%N]). rewrite !app_assoc.
    eexists _, _. split; reflexivity.
Qed.

Lemma pin_shape_solid m : pin_shape m -> starts_solid m /\ ends_solid m.
Proof.
  intros (u & ws & nm & ref & -> & Hu & _ & _ & _ & Hr). split.
  - apply (eq_nocase_starts_solid u _ _ Hu). reflexivity.
  - rewrite !app_assoc. apply ends_solid_app.
    destruct Hr as [H | [H | [H | (Hne & H)]]].
    + apply (eq_nocase_ends_solid ref (js "mai") 110%N H). reflexivity.
    + apply (eq_nocase_ends_solid ref (js "maste") 114%N H). reflexivity.
    + apply (eq_nocase_ends_solid ref (js "lates") 116%N H). reflexivity.
    + now apply digits_ends_solid.
Qed.

Lemma secret_shape_solid m : secret_shape m -> starts_solid m /\ ends_solid m.
Proof.
  intros (kw & ws & q1 & body & q2 & -> & Hkw & _ & _ & _ & _ & Hq). split.
  - destruct Hkw as [H | [H | [H | H]]];
      apply (eq_nocase_starts_solid kw _ _ H); reflexivity.
  - rewrite !app_assoc. exists (((((kw ++ js ":") ++ ws) ++ [q1]) ++ body)), q2.
    split; [reflexivity |]. unfold is_quote in Hq.
    apply orb_true_iff in Hq. destruct Hq as [Hq | Hq];
      apply N.eqb_eq in Hq; subst; reflexivity.
Qed.

Lemma solid_text_no_space c (p : jsstring) :
  forallb (fun a => negb (isWhiteSpace a)) p = true ->
  isWhiteSpace c = true -> ~ In c p.
Proof.
  intros Hp Hc Hin. rewrite forallb_forall in Hp. specialize (Hp c Hin).
  now rewrite Hc in Hp.
Qed.

Lemma uses_cons_space c s :
  isWhiteSpace c = true ->
  (uses_not_directly_followed (c :: s) <-> uses_not_directly_followed s).
Proof.
  intros Hc. unfold uses_not_directly_followed. split.
  - intros (pre & post & Hs & H1 & H2). destruct pre as [| c' pre].
    + simpl in Hs. injection Hs as Hu _. subst c. discriminate.
    + simpl in Hs. injection Hs as _ Hs. subst s. exists pre, post. auto.
  - intros (pre & post & -> & H1 & H2). exists (c :: pre), post. auto.
Qed.

Lemma uses_snoc_space c s :
  isWhiteSpace c = true ->
  (uses_not_directly_followed (s ++ [c]) <-> uses_not_directly_followed s).
Proof.
  intros Hc.
  assert (Ha : ~ In c (js "actions/"))
    by (apply solid_text_no_space; [reflexivity | exact Hc]).
  assert (Hb : ~ In c (js "./"))
    by (apply solid_text_no_space; [reflexivity | exact Hc]).
  unfold uses_not_directly_followed. split.
  - intros (pre & post & Hs & H1 & H2).
    destruct post as [| e post'] using rev_ind.
    + change (js "uses:") with (js "uses" ++ [58%N]) in Hs.
      rewrite app_nil_r, !app_assoc in Hs.
      apply app_inj_tail in Hs. destruct Hs as (_ & ->). discriminate.
    + clear IHpost'. rewrite !app_assoc in Hs.
      apply app_inj_tail in Hs. destruct Hs as (Hs & <-).
      exists pre, post'. rewrite Hs, <- app_assoc.
      rewrite startsWith_snoc in H1, H2 by assumption. auto.
  - intros (pre & post & -> & H1 & H2).
    exists pre, (post ++ [c]). rewrite <- !app_assoc.
    rewrite !startsWith_snoc by assumption. auto.
Qed.

Lemma uses_trim s :
  uses_not_directly_followed (trim s) <-> uses_not_directly_followed s.
Proof.
  unfold trim. transitivity (uses_not_directly_followed (trimEnd s)).
  - induction (trimEnd s) as [| c t IH]; [reflexivity |].
    simpl. destruct (isWhiteSpace c) eqn:E; [| reflexivity].
    rewrite IH. symmetry. now apply uses_cons_space.
  - induction s as [| c s IH] using rev_ind; [reflexivity |].
    rewrite trimEnd_snoc. destruct (isWhiteSpace c) eqn:E; [| reflexivity].
    rewrite IH. symmetry. now apply uses_snoc_space.
Qed.

Lemma fires_trim r ln :
  In r securityRules -> fires r (trim ln) = fires r ln.
Proof.
  intros Hr. apply eq_iff_eq_true.
  destruct Hr as [<- | [<- | [<- | [<- | []]]]].
  - rewrite !fires_plaintext_secrets.
    apply contains_trim; intros m Hm; now apply secret_shape_solid.
  - rewrite !fires_pin_actions.
    apply contains_trim; intros m Hm; now apply pin_shape_solid.
  - rewrite !fires_third_party. apply uses_trim.
  - rewrite !fires_script_injection.
    apply contains_trim; intros m Hm; now apply injection_shape_solid.
Qed.

Lemma fires_nil r : In r securityRules -> fires r [] = false.
Proof. intros [<- | [<- | [<- | [<- | []]]]]; reflexivity. Qed.

Lemma content_trimmed filename text i :
  In i (fst (analyzeWorkflow filename text securityRules)) ->
  content i <> []
  /\ no_outer_space (content i)
  /\ ~ In LF (content i)
  /\ trim (content i) = content i.
Proof.
  intros Hi. apply in_analyzeWorkflow in Hi.
  destruct Hi as (n & ln & r & Hn & Hr & Hf & ->). cbn [finding_of content].
  split; [| split; [| split]].
  - intros E. rewrite <- (fires_trim r ln Hr), E, (fires_nil r Hr) in Hf.
    discriminate.
  - apply trim_no_outer_space.
  - apply trim_keeps_out.
    destruct (split_lf_partition text) as (_ & Hall).
    rewrite Forall_forall in Hall. apply Hall.
    eapply nth_error_In. exact Hn.
  - apply trim_solid, trim_no_outer_space.
Qed.

(** X3. The text kept in a finding is the matched line without its outer
    white space: it is never empty, neither starts nor ends with white
    space, holds no line feed, and trimming it again changes nothing. *)
Theorem finding_content_is_trimmed :
  forall filename text i,
    In i (fst (analyzeWorkflow filename text securityRules)) ->
    content i <> []
    /\ no_outer_space (content i)
    /\ ~ In LF (content i)
    /\ trim (content i) = content i.
Proof. exact content_trimmed. Qed.

Lemma finding_content_is_trimmed_witness :
  content (finding_of (js "ci.yml") 2 (js "    uses: org/tool@master  ")
                      rule_pin_actions)
  = js "uses: org/tool@master"
  /\ no_outer_space (js "uses: org/tool@master").
Proof.
  destruct (finding_content_is_trimmed (js "ci.yml")
              (js "steps:" ++ [LF] ++ js "    uses: org/tool@master  ")
              (finding_of (js "ci.yml") 2 (js "    uses: org/tool@master  ")
                          rule_pin_actions))
    as (_ & H & _).
  - rewrite analyzeWorkflow_plain by apply securityRules_plain.
    cbn. left. reflexivity.
  - split; [reflexivity | exact H].
Defined.



(** ** The other rules, line by line *)

Lemma findings_at_nonempty filename text n ln r :
  In r securityRules ->
  nth_error (split_lf text) n = Some ln ->
  (findings_at (Rule.id r) (S n)
               (fst (analyzeWorkflow filename text securityRules)) <> []
   <-> fires r ln = true)
  /\ (forall i,
        In i (findings_at (Rule.id r) (S n)
                (fst (analyzeWorkflow filename text securityRules))) ->
        i = finding_of filename (S n) ln r).
Proof.
  intros Hr Hn. rewrite (findings_at_rule filename text n ln r Hr Hn).
  destruct (fires r ln); split.
  - split; [reflexivity | discriminate].
  - intros i [<- | []]. reflexivity.
  - split; [congruence | discriminate].
  - intros i [].
Qed.

(** X6. On every line of a scanned file the pin-actions-versions rule
    leaves a finding, of severity high, exactly when the line contains, in
    any letter case, [uses:], optional white space, one or more characters
    other than the at sign, an at sign, and then [main], [master], [latest]
    or a run of decimal digits.  What follows the ref is not looked at. *)
Theorem pin_actions_rule :
  forall filename text n ln,
    nth_error (split_lf text) n = Some ln ->
    (findings_at (js "pin-actions-versions") (S n)
                 (fst (analyzeWorkflow filename text securityRules)) <> []
     <-> contains pin_shape ln)
    /\ (forall i,
          In i (findings_at (js "pin-actions-versions") (S n)
                  (fst (analyzeWorkflow filename text securityRules))) ->
          severity i = high /\ content i = trim ln).
Proof.
  intros filename text n ln Hn.
  destruct (findings_at_nonempty filename text n ln rule_pin_actions)
    as (H1 & H2); [simpl; auto | exact Hn |].
  cbn [Rule.id rule_pin_actions] in H1, H2. split.
  - rewrite H1. apply fires_pin_actions.
  - intros i Hi. rewrite (H2 i Hi). split; reflexivity.
Qed.

Lemma pin_actions_rule_witness :
  findings_at (js "pin-actions-versions") 1
    (fst (analyzeWorkflow (js "ci.yml") (js "USES: org/tool@Latest-build")
                          securityRules)) <> [].
Proof.
  apply (pin_actions_rule (js "ci.yml") (js "USES: org/tool@Latest-build") 0
           (js "USES: org/tool@Latest-build") eq_refl).
  exists [], (js "USES: org/tool@Latest"), (js "-build").
  split; [reflexivity |].
  exists (js "USES:"), (js " "), (js "org/tool"), (js "Latest").
  repeat split; try reflexivity; try discriminate.
  right. right. left. reflexivity.
Defined.

Lemma pin_fires_on_digit pre ws name d rest :
  spaces ws = true -> name <> [] ->
  forallb (fun c => negb (c =? 64)%N) name = true -> isDigit d = true ->
  fires rule_pin_actions
        (pre ++ js "uses:" ++ ws ++ name ++ js "@" ++ d :: rest) = true.
Proof.
  intros Hws Hne Hname Hd. apply fires_pin_actions.
  exists pre, (js "uses:" ++ ws ++ name ++ js "@" ++ [d]), rest.
  split.
  - rewrite <- !app_assoc. reflexivity.
  - exists (js "uses:"), ws, name, [d]. repeat split; auto.
    right. right. right. split; [discriminate |]. simpl. now rewrite Hd.
Qed.

(** X7. The pin-actions-versions rule reports every reference whose ref
    begins with a decimal digit, whatever comes after the digit: a
    reference pinned to a full commit hash is reported when the hash
    happens to start with a digit. *)
Theorem pin_actions_reports_leading_digit :
  forall filename text n ln pre ws name d rest,
    nth_error (split_lf text) n = Some ln ->
    ln = pre ++ js "uses:" ++ ws ++ name ++ js "@" ++ d :: rest ->
    spaces ws = true -> name <> [] ->
    forallb (fun c => negb (c =? 64)%N) name = true ->
    isDigit d = true ->
    findings_at (js "pin-actions-versions") (S n)
                (fst (analyzeWorkflow filename text securityRules))
    = [finding_of filename (S n) ln rule_pin_actions].
Proof.
  intros filename text n ln pre ws name d rest Hn E Hws Hne Hname Hd.
  pose proof (findings_at_rule filename text n ln rule_pin_actions) as H.
  cbn [Rule.id rule_pin_actions] in H.
  rewrite (H (or_intror (or_introl eq_refl)) Hn).
  rewrite E at 1. now rewrite pin_fires_on_digit.
Qed.

Lemma pin_actions_reports_leading_digit_witness :
  findings_at (js "pin-actions-versions") 1
    (fst (analyzeWorkflow (js "ci.yml")
            (js "uses: actions/checkout@8e5e7e5ab8b370d6c329ec480221332ada57f0ab")
            securityRules))
  = [finding_of (js "ci.yml") 1
       (js "uses: actions/checkout@8e5e7e5ab8b370d6c329ec480221332ada57f0ab")
       rule_pin_actions].
Proof.
  apply (pin_actions_reports_leading_digit (js "ci.yml")
           (js "uses: actions/checkout@8e5e7e5ab8b370d6c329ec480221332ada57f0ab")
           0 _ [] (js " ") (js "actions/checkout") 56%N
           (js "e5e7e5ab8b370d6c329ec480221332ada57f0ab") eq_refl);
    try reflexivity.
  discriminate.
Defined.

Lemma pin_quiet_on_other_ref a c b :
  ~ In 64%N a -> ~ In 64%N (c :: b) ->
  canonicalize true c <> 77%N -> canonicalize true c <> 76%N ->
  isDigit c = false ->
  fires rule_pin_actions (a ++ 64%N :: c :: b) = false.
Proof.
  intros Ha Hb Hm Hl Hd.
  destruct (fires rule_pin_actions _) eqn:E; [| reflexivity]. exfalso.
  apply fires_pin_actions in E.
  destruct E as (pre' & m & post & Hs & u & ws & nm & ref & -> & _ & _ & _
                 & Hnm & Hr).
  replace (pre' ++ (u ++ ws ++ nm ++ js "@" ++ ref) ++ post)
    with ((pre' ++ u ++ ws ++ nm) ++ 64%N :: ref ++ post) in Hs
    by (rewrite <- !app_assoc; reflexivity).
  apply split_unique in Hs; [| exact Ha | exact Hb].
  destruct Hs as (_ & Hs).
  destruct (mutable_ref_head ref Hr) as (r0 & ref' & -> & H0).
  simpl in Hs. injection Hs as <- _.
  destruct H0 as [H0 | [H0 | H0]]; congruence.
Qed.

(** X8. A line with a single at sign draws no pin-actions-versions finding
    when the character after the at sign is neither a decimal digit nor
    one of m, M, l, L: version tags such as [v3] and commit hashes that
    start with a letter pass unreported. *)
Theorem pin_actions_silent_on_other_refs :
  forall filename text n ln a c b,
    nth_error (split_lf text) n = Some ln ->
    ln = a ++ 64%N :: c :: b ->
    ~ In 64%N a -> ~ In 64%N (c :: b) ->
    existsb (N.eqb c) (js "mMlL") = false -> isDigit c = false ->
    findings_at (js "pin-actions-versions") (S n)
                (fst (analyzeWorkflow filename text securityRules)) = [].
Proof.
  intros filename text n ln a c b Hn Hln Ha Hb Hc Hd.
  pose proof (findings_at_rule filename text n ln rule_pin_actions) as H.
  cbn [Rule.id rule_pin_actions] in H.
  rewrite (H (or_intror (or_introl eq_refl)) Hn). rewrite Hln.
  rewrite pin_quiet_on_other_ref; auto.
  - intros E. simpl in Hc. rewrite !orb_false_iff in Hc.
    destruct Hc as (H1 & H2 & _). apply N.eqb_neq in H1, H2.
    unfold canonicalize in E. simpl in E.
    destruct (N.leb_spec 97 c), (N.leb_spec c 122); simpl in E; lia.
  - intros E. simpl in Hc. rewrite !orb_false_iff in Hc.
    destruct Hc as (_ & _ & H3 & H4 & _). apply N.eqb_neq in H3, H4.
    unfold canonicalize in E. simpl in E.
    destruct (N.leb_spec 97 c), (N.leb_spec c 122); simpl in E; lia.
Qed.

Lemma pin_actions_silent_on_other_refs_witness :
  findings_at (js "pin-actions-versions") 1
    (fst (analyzeWorkflow (js "ci.yml")
            (js "uses: github/codeql-action/upload-sarif@v2")
            securityRules)) = [].
Proof.
  apply (pin_actions_silent_on_other_refs (js "ci.yml")
           (js "uses: github/codeql-action/upload-sarif@v2") 0 _
           (js "uses: github/codeql-action/upload-sarif") 118%N (js "2")
           eq_refl); try reflexivity.
  - apply forallb_not_in. reflexivity.
  - apply forallb_not_in. reflexivity.
Defined.

(** X9. On every line of a scanned file the script-injection rule leaves a
    finding, of severity high, exactly when the line contains the
    interpolation of [github.event.issue.title], with optional white space
    inside the braces; no other expression is looked for. *)
Theorem script_injection_rule :
  forall filename text n ln,
    nth_error (split_lf text) n = Some ln ->
    (findings_at (js "script-injection") (S n)
                 (fst (analyzeWorkflow filename text securityRules)) <> []
     <-> contains injection_shape ln)
    /\ (forall i,
          In i (findings_at (js "script-injection") (S n)
                  (fst (analyzeWorkflow filename text securityRules))) ->
          severity i = high /\ content i = trim ln).
Proof.
  intros filename text n ln Hn.
  destruct (findings_at_nonempty filename text n ln rule_script_injection)
    as (H1 & H2); [simpl; auto | exact Hn |].
  cbn [Rule.id rule_script_injection] in H1, H2. split.
  - rewrite H1. apply fires_script_injection.
  - intros i Hi. rewrite (H2 i Hi). split; reflexivity.
Qed.

Lemma script_injection_rule_witness :
  findings_at (js "script-injection") 1
    (fst (analyzeWorkflow (js "ci.yml")
            (js "run: echo ${{github.event.issue.title }}")
            securityRules)) <> []
  /\ findings_at (js "script-injection") 1
       (fst (analyzeWorkflow (js "ci.yml")
               (js "run: echo ${{ github.event.issue.body }}")
               securityRules)) = [].
Proof.
  split.
  - apply (script_injection_rule (js "ci.yml")
             (js "run: echo ${{github.event.issue.title }}") 0 _ eq_refl).
    exists (js "run: echo "), (js "${{github.event.issue.title }}"), [].
    split; [reflexivity |]. exists [], (js " "). repeat split.
  - rewrite analyzeWorkflow_plain by apply securityRules_plain. reflexivity.
Defined.

(** X10. On every line of a scanned file the third-party-action-review
    rule leaves a finding, of severity medium, exactly when the line has a
    lower-case [uses:] whose very next characters are neither [actions/]
    nor [./]; a reference separated from the colon by white space is
    therefore always reported, first-party and local ones included. *)
Theorem third_party_rule :
  forall filename text n ln,
    nth_error (split_lf text) n = Some ln ->
    (findings_at (js "third-party-action-review") (S n)
                 (fst (analyzeWorkflow filename text securityRules)) <> []
     <-> uses_not_directly_followed ln)
    /\ (forall i,
          In i (findings_at (js "third-party-action-review") (S n)
                  (fst (analyzeWorkflow filename text securityRules))) ->
          severity i = medium /\ content i = trim ln)
    /\ (forall pre c rest,
          ln = pre ++ js "uses:" ++ c :: rest -> isWhiteSpace c = true ->
          findings_at (js "third-party-action-review") (S n)
                      (fst (analyzeWorkflow filename text securityRules))
          = [finding_of filename (S n) ln rule_third_party]).
Proof.
  intros filename text n ln Hn.
  destruct (findings_at_nonempty filename text n ln rule_third_party)
    as (H1 & H2); [simpl; auto | exact Hn |].
  cbn [Rule.id rule_third_party] in H1, H2. split; [| split].
  - rewrite H1. apply fires_third_party.
  - intros i Hi. rewrite (H2 i Hi). split; reflexivity.
  - intros pre c rest Hln Hc.
    pose proof (findings_at_rule filename text n ln rule_third_party) as H.
    cbn [Rule.id rule_third_party] in H.
    rewrite (H (or_intror (or_intror (or_introl eq_refl))) Hn).
    assert (E : fires rule_third_party ln = true).
    { apply fires_third_party. exists pre, (c :: rest).
      split; [exact Hln |].
      split.
      - destruct (startsWith (c :: rest) (js "actions/")) eqn:E;
          [| reflexivity].
        apply startsWith_spec in E. destruct E as (t & E).
        simpl in E. injection E as -> _. discriminate.
      - destruct (startsWith (c :: rest) (js "./")) eqn:E; [| reflexivity].
        apply startsWith_spec in E. destruct E as (t & E).
        simpl in E. injection E as -> _. discriminate. }
    now rewrite E.
Qed.

Lemma third_party_rule_witness :
  findings_at (js "third-party-action-review") 1
    (fst (analyzeWorkflow (js "ci.yml") (js "  uses: ./.github/actions/build")
                          securityRules))
  = [finding_of (js "ci.yml") 1 (js "  uses: ./.github/actions/build")
                rule_third_party].
Proof.
  apply (third_party_rule (js "ci.yml") (js "  uses: ./.github/actions/build")
           0 _ eq_refl)
    with (pre := js "  ") (c := 32%N) (rest := js "./.github/actions/build");
    reflexivity.
Defined.

(** ** One finding per rule and line *)

Lemma rule_ids_distinct rid :
  length (filter (fun r => jsstring_eqb (Rule.id r) rid) securityRules) <= 1.
Proof.
  unfold securityRules. cbn [filter].
  destruct (jsstring_eqb (Rule.id rule_plaintext_secrets) rid) eqn:E1;
  destruct (jsstring_eqb (Rule.id rule_pin_actions) rid) eqn:E2;
  destruct (jsstring_eqb (Rule.id rule_third_party) rid) eqn:E3;
  destruct (jsstring_eqb (Rule.id rule_script_injection) rid) eqn:E4;
  try (simpl; lia);
  repeat match goal with
         | H : jsstring_eqb _ rid = true |- _ => apply jsstring_eqb_eq in H
         end;
  exfalso;
  match goal with
  | H1 : ?a = rid, H2 : ?b = rid |- _ =>
      rewrite <- H1 in H2; vm_compute in H2; discriminate
  end.
Qed.

Lemma filter_filter_length {A} (p q : A -> bool) (l : list A) :
  length (filter p (filter q l)) <= length (filter p l).
Proof.
  induction l as [| a l IH]; simpl; [lia |].
  destruct (q a); simpl; destruct (p a); simpl; lia.
Qed.

Lemma filter_map_swap {A B} (g : A -> B) (p : B -> bool) (l : list A) :
  filter p (map g l) = map g (filter (fun a => p (g a)) l).
Proof.
  induction l as [| a l IH]; simpl; [reflexivity |].
  destruct (p (g a)); simpl; now rewrite IH.
Qed.

Lemma line_findings_one_per_rule filename n ln rid :
  length (filter (fun i => jsstring_eqb (rule i) rid)
                 (line_findings securityRules filename n ln)) <= 1.
Proof.
  unfold line_findings. rewrite filter_map_swap, length_map.
  cbn [finding_of rule].
  etransitivity; [apply filter_filter_length | apply rule_ids_distinct].
Qed.

Lemma findings_at_one filename text rid n :
  length (findings_at rid n
            (fst (analyzeWorkflow filename text securityRules))) <= 1.
Proof.
  rewrite analyzeWorkflow_plain by apply securityRules_plain. cbn [fst].
  unfold file_findings. destruct n as [| k].
  - rewrite findings_at_other; [simpl; lia |].
    eapply Forall_impl; [| apply lines_findings_from].
    intros i Hi. simpl in Hi. lia.
  - destruct (nth_error (split_lf text) k) as [ln |] eqn:E.
    + change (S k) with (1 + k).
      rewrite (findings_at_lines rid securityRules filename _ 1 k ln E).
      apply line_findings_one_per_rule.
    + rewrite findings_at_other; [simpl; lia |].
      apply nth_error_None in E.
      eapply Forall_impl; [| apply lines_findings_below].
      intros i Hi. simpl in Hi. lia.
Qed.

(** X11. [analyzeWorkflow] reports a rule at most once for a line, however
    many times the rule's pattern matches in the line. *)
Theorem one_finding_per_rule_and_line :
  forall filename text rid n,
    length (findings_at rid n
              (fst (analyzeWorkflow filename text securityRules))) <= 1.
Proof. exact findings_at_one. Qed.

(** ** What a repository scan depends on *)

Lemma first_failure_needed decode spread t1 t2 rules repo :
  forall entries,
    (forall f, In f entries -> skipped f = false ->
               octokit_getContent t1 (file_request t1 repo f)
               = octokit_getContent t2 (file_request t2 repo f)) ->
    first_failure decode spread t1 rules repo entries
    = first_failure decode spread t2 rules repo entries.
Proof.
  induction entries as [| f rest IH]; intros H; simpl; [reflexivity |].
  destruct (skipped f) eqn:Hs.
  - apply IH. intros g Hg. apply H. now right.
  - rewrite (H f (or_introl eq_refl) Hs), IH; [reflexivity |].
    intros g Hg. apply H. now right.
Qed.

Lemma provided_files_needed decode t1 t2 repo :
  forall entries,
    (forall f, In f entries -> skipped f = false ->
               octokit_getContent t1 (file_request t1 repo f)
               = octokit_getContent t2 (file_request t2 repo f)) ->
    provided_files decode t1 repo entries
    = provided_files decode t2 repo entries.
Proof.
  induction entries as [| f rest IH]; intros H; simpl; [reflexivity |].
  destruct (skipped f) eqn:Hs.
  - apply IH. intros g Hg. apply H. now right.
  - rewrite (H f (or_introl eq_refl) Hs), IH; [reflexivity |].
    intros g Hg. apply H. now right.
Qed.

(** X12. A scan depends on the provider only through the listing of the
    workflow directory and the answers for the listed plain files whose
    name ends in [.yml] or [.yaml]: two clients that agree on those get the
    same result, whatever they would answer for directories and other
    files of the listing. *)
Theorem scan_reads_only_workflow_files :
  forall base64_decode spread_overflow t1 t2 repo entries,
    octokit_getContent t1 (listing_request t1 repo)
    = Normal (DataArray entries) ->
    octokit_getContent t2 (listing_request t2 repo)
    = Normal (DataArray entries) ->
    (forall f, In f entries -> skipped f = false ->
               octokit_getContent t1 (file_request t1 repo f)
               = octokit_getContent t2 (file_request t2 repo f)) ->
    fst (scanRepository base64_decode spread_overflow t1 repo securityRules)
    = fst (scanRepository base64_decode spread_overflow t2 repo securityRules).
Proof.
  intros base64_decode spread_overflow t1 t2 repo entries H1 H2 H.
  rewrite !scanRepository_plain by apply securityRules_plain. cbn [fst].
  unfold scan_outcome. rewrite H1, H2.
  rewrite (first_failure_needed base64_decode spread_overflow t1 t2
             securityRules repo entries H).
  now rewrite (provided_files_needed base64_decode t1 t2 repo entries H).
Qed.

Lemma scan_reads_only_workflow_files_witness :
  fst (scanRepository Sample.decode Sample.spread Sample.scanner (js "app")
                      securityRules)
  = fst (scanRepository Sample.decode Sample.spread Sample2.scanner (js "app")
                        securityRules).
Proof.
  apply (scan_reads_only_workflow_files Sample.decode Sample.spread
           Sample.scanner
           Sample2.scanner (js "app") Sample.entries eq_refl eq_refl).
  intros f Hf Hs.
  destruct Hf as [<- | [<- | [<- | [<- | []]]]];
    try discriminate Hs; reflexivity.
Defined.

(** ** A file request that throws *)

(** X13. When the request for a listed workflow file throws, and the
    workflow files before it in the listing were fetched and their findings
    collected without a throw, the scan ends there: the result has success
    false, the message of that error, and no findings, whatever the files
    before it had produced, and the files after it are not considered. *)
Theorem file_request_failure_discards_findings :
  forall base64_decode spread_overflow this repo before f e after,
    octokit_getContent this (listing_request this repo)
    = Normal (DataArray (before ++ f :: after)) ->
    (forall g, In g before -> skipped g = false ->
               passes base64_decode spread_overflow this repo g) ->
    skipped f = false ->
    octokit_getContent this (file_request this repo f) = Abrupt e ->
    scanRepository base64_decode spread_overflow this repo securityRules
    = (Normal {| repository := repo;
                 success := false;
                 message := js "Error scanning workflows: " ++ thrown_text e;
                 issues := [] |},
       securityRules).
Proof.
  intros base64_decode spread_overflow this repo before f e after
         Hl Hb Hs Hf.
  rewrite scanRepository_plain by apply securityRules_plain.
  unfold scan_outcome. rewrite Hl.
  now rewrite (first_failure_split base64_decode spread_overflow this
                 securityRules repo before f e after Hb Hs Hf).
Qed.

Lemma file_request_failure_discards_findings_witness :
  scanRepository Sample.decode Sample.spread Sample2.scanner_broken
                 (js "app") securityRules
  = (Normal {| repository := js "app";
               success := false;
               message := js "Error scanning workflows: Server Error";
               issues := [] |},
     securityRules)
  /\ fst (analyzeWorkflow (js "ci.yml") Sample.ci_yml securityRules) <> [].
Proof.
  split.
  - apply (file_request_failure_discards_findings Sample.decode
             Sample.spread Sample2.scanner_broken (js "app")
             [mkEntry (js "file") (js "ci.yml")
                      (js ".github/workflows/ci.yml")]
             (mkEntry (js "file") (js "gone.yml")
                      (js ".github/workflows/gone.yml"))
             (ThrownError (js "Server Error"))
             [mkEntry (js "file") (js "release.yaml")
                      (js ".github/workflows/release.yaml")]).
    + reflexivity.
    + intros g [<- | []] _. eexists. split; [reflexivity |].
      intros raw Hraw. injection Hraw as <-. reflexivity.
    + reflexivity.
    + reflexivity.
  - rewrite analyzeWorkflow_plain by apply securityRules_plain.
    discriminate.
Defined.

(** ** Which entries are scanned *)

Lemma endsWith_spec s p : endsWith s p = true <-> exists stem, s = stem ++ p.
Proof.
  unfold endsWith. rewrite startsWith_spec. split.
  - intros (t & Ht). exists (rev t).
    rewrite <- (rev_involutive s), Ht, rev_app_distr, rev_involutive.
    reflexivity.
  - intros (stem & ->). exists (rev stem). apply rev_app_distr.
Qed.

Lemma skipped_spec f :
  skipped f = false
  <-> type f = js "file"
      /\ ((exists stem, name f = stem ++ js ".yml")
          \/ (exists stem, name f = stem ++ js ".yaml")).
Proof.
  unfold skipped. rewrite orb_false_iff, negb_false_iff, andb_false_iff,
    !negb_false_iff, jsstring_eqb_eq, !endsWith_spec. reflexivity.
Qed.

Lemma all_skipped_no_files decode spread this rules repo : forall entries,
  (forall f, In f entries -> skipped f = true) ->
  first_failure decode spread this rules repo entries = None
  /\ provided_files decode this repo entries = [].
Proof.
  induction entries as [| f rest IH]; intros H; simpl; [auto |].
  rewrite (H f (or_introl eq_refl)). apply IH.
  intros g Hg. apply H. now right.
Qed.

(** X14. Only listed entries of type [file] whose name ends, in lower
    case, with [.yml] or [.yaml] are scanned.  A listing without such an
    entry gives a successful scan with no findings, and no answer of the
    provider for the entries can change that. *)
Theorem listing_without_workflow_files :
  forall base64_decode spread_overflow this repo entries,
    octokit_getContent this (listing_request this repo)
    = Normal (DataArray entries) ->
    (forall f stem, In f entries -> type f = js "file" ->
                    name f <> stem ++ js ".yml"
                    /\ name f <> stem ++ js ".yaml") ->
    scanRepository base64_decode spread_overflow this repo securityRules
    = (Normal {| repository := repo;
                 success := true;
                 message := js "No security issues found in workflows";
                 issues := [] |},
       securityRules).
Proof.
  intros base64_decode spread_overflow this repo entries Hl H.
  rewrite scanRepository_plain by apply securityRules_plain.
  unfold scan_outcome. rewrite Hl.
  destruct (all_skipped_no_files base64_decode spread_overflow this
              securityRules repo entries)
    as (-> & ->); [| reflexivity].
  intros f Hf. destruct (skipped f) eqn:E; [reflexivity |].
  apply skipped_spec in E. destruct E as (Ht & [(stem & Hn) | (stem & Hn)]);
    destruct (H f stem Hf Ht); congruence.
Qed.

Lemma suffix_mismatch (s p : jsstring) :
  endsWith s p = false -> forall stem, s <> stem ++ p.
Proof.
  intros H stem E.
  assert (endsWith s p = true) by (apply endsWith_spec; eauto). congruence.
Qed.

Lemma listing_without_workflow_files_witness :
  scanRepository Sample.decode Sample.spread Sample2.scanner_none (js "app")
                 securityRules
  = (Normal {| repository := js "app";
               success := true;
               message := js "No security issues found in workflows";
               issues := [] |},
     securityRules).
Proof.
  apply (listing_without_workflow_files Sample.decode Sample.spread
           Sample2.scanner_none
           (js "app") Sample2.entries_none eq_refl).
  intros f stem [<- | [<- | [<- | []]]] Ht; try discriminate Ht;
    split; apply suffix_mismatch; reflexivity.
Defined.

(** ** Every finding of a scan traced to its source *)

Lemma in_provided_files decode this repo fn text : forall entries,
  In (fn, text) (provided_files decode this repo entries)
  <-> exists f raw,
        In f entries /\ skipped f = false
        /\ octokit_getContent this (file_request this repo f)
           = Normal (DataObject (Some raw))
        /\ fn = name f /\ text = decode raw.
Proof.
  induction entries as [| g rest IH]; simpl.
  - split; [intros [] | intros (f & raw & [] & _)].
  - destruct (skipped g) eqn:Hs.
    + rewrite IH. split.
      * intros (f & raw & Hf & H). exists f, raw. auto.
      * intros (f & raw & [-> | Hf] & Hk & H); [congruence |].
        exists f, raw. auto.
    + destruct (octokit_getContent this (file_request this repo g))
        as [[arr | [raw0 |]] | e] eqn:Hg.
      * rewrite IH. split.
        -- intros (f & raw & Hf & H). exists f, raw. auto.
        -- intros (f & raw & [-> | Hf] & Hk & Hq & H); [congruence |].
           exists f, raw. auto.
      * simpl. rewrite IH. split.
        -- intros [E | (f & raw & Hf & H)].
           ++ injection E as <- <-. exists g, raw0. auto.
           ++ exists f, raw. auto.
        -- intros (f & raw & [-> | Hf] & Hk & Hq & -> & ->).
           ++ left. rewrite Hg in Hq. now injection Hq as ->.
           ++ right. exists f, raw. auto.
      * rewrite IH. split.
        -- intros (f & raw & Hf & H). exists f, raw. auto.
        -- intros (f & raw & [-> | Hf] & Hk & Hq & H); [congruence |].
           exists f, raw. auto.
      * rewrite IH. split.
        -- intros (f & raw & Hf & H). exists f, raw. auto.
        -- intros (f & raw & [-> | Hf] & Hk & Hq & H); [congruence |].
           exists f, raw. auto.
Qed.

Lemma in_scan_findings rules files i :
  In i (scan_findings rules files)
  <-> exists fn text n ln r,
        In (fn, text) files
        /\ nth_error (split_lf text) n = Some ln
        /\ In r rules /\ fires r ln = true
        /\ i = finding_of fn (S n) ln r.
Proof.
  unfold scan_findings, file_findings. rewrite in_flat_map. split.
  - intros ((fn & text) & Hf & Hi). apply in_lines_findings in Hi.
    destruct Hi as (n & ln & r & H). exists fn, text, n, ln, r. auto.
  - intros (fn & text & n & ln & r & Hf & H). exists (fn, text).
    split; [exact Hf |]. apply in_lines_findings. exists n, ln, r. exact H.
Qed.

(** X15. In a successful scan a finding is reported exactly when a listed
    workflow file, whose content the provider returned, has a line that a
    rule of the table matches; the finding then carries the name (not the
    path) of that entry, the 1-based number of the line in the decoded
    content, the rule's fields and the trimmed line. *)
Theorem scan_findings_traced :
  forall base64_decode spread_overflow this repo r st' i,
    scanRepository base64_decode spread_overflow this repo securityRules
    = (Normal r, st') ->
    success r = true ->
    (In i (issues r)
     <-> exists entries f raw n ln rl,
           octokit_getContent this (listing_request this repo)
           = Normal (DataArray entries)
           /\ In f entries /\ skipped f = false
           /\ octokit_getContent this (file_request this repo f)
              = Normal (DataObject (Some raw))
           /\ nth_error (split_lf (base64_decode raw)) n = Some ln
           /\ In rl securityRules /\ fires rl ln = true
           /\ i = {| file := name f;
                     line := n + 1;
                     rule := Rule.id rl;
                     description := Rule.description rl;
                     severity := Rule.severity rl;
                     remediation := Rule.remediation rl;
                     content := trim ln |}).
Proof.
  intros base64_decode spread_overflow this repo r st' i Hscan Hok.
  rewrite scanRepository_plain in Hscan by apply securityRules_plain.
  injection Hscan as <- _. unfold scan_outcome in *.
  destruct (octokit_getContent this (listing_request this repo))
    as [[entries | c] | e]; try discriminate.
  destruct (first_failure _ _ _ _ _ entries); [discriminate |].
  cbn [issues result_scanned]. rewrite in_scan_findings. split.
  - intros (fn & text & n & ln & rl & Hf & Hn & Hr & Hfi & ->).
    apply in_provided_files in Hf.
    destruct Hf as (f & raw & Hf & Hs & Hq & -> & ->).
    exists entries, f, raw, n, ln, rl. repeat split; auto.
    unfold finding_of. f_equal. lia.
  - intros (entries' & f & raw & n & ln & rl & E & Hf & Hs & Hq & Hn & Hr
            & Hfi & ->).
    injection E as <-.
    exists (name f), (base64_decode raw), n, ln, rl. repeat split; auto.
    + apply in_provided_files. exists f, raw. auto.
    + unfold finding_of. f_equal. lia.
Qed.

Lemma scan_findings_traced_witness :
  exists r,
    fst (scanRepository Sample.decode Sample.spread Sample.scanner (js "app")
                        securityRules)
    = Normal r
    /\ In {| file := js "release.yaml";
             line := 2;
             rule := js "no-plaintext-secrets";
             description := js "Avoid hardcoded secrets in workflows";
             severity := critical;
             remediation :=
               js "Use GitHub Secrets (secrets.*) instead of hardcoded values";
             content := js "API_KEY: 'abc123'" |} (issues r).
Proof.
  destruct (scanRepository Sample.decode Sample.spread Sample.scanner (js "app")
              securityRules) as [[r | e] st'] eqn:E.
  - exists r. split; [reflexivity |].
    assert (Hok : success r = true).
    { rewrite scanRepository_plain in E by apply securityRules_plain.
      injection E as <- _. reflexivity. }
    apply (scan_findings_traced _ _ _ _ _ _ _ E Hok).
    exists Sample.entries,
      (mkEntry (js "file") (js "release.yaml")
               (js ".github/workflows/release.yaml")),
      Sample.release_yaml, 1, (js "  API_KEY: 'abc123'"),
      rule_plaintext_secrets.
    repeat split; try reflexivity; simpl; auto.
  - exfalso. rewrite scanRepository_plain in E by apply securityRules_plain.
    discriminate.
Defined.

(** ** Severities in the report *)

Lemma of_severity_permutation found :
  Permutation (of_severity critical found ++ of_severity high found
               ++ of_severity medium found ++ of_severity low found)
              found.
Proof.
  unfold of_severity. induction found as [| i found IH]; [constructor |].
  simpl. destruct (severity i); simpl.
  - now constructor.
  - symmetry. apply Permutation_cons_app. now symmetry.
  - symmetry.
    rewrite app_assoc. apply Permutation_cons_app.
    rewrite <- app_assoc. now symmetry.
  - symmetry.
    rewrite !app_assoc. apply Permutation_cons_app.
    rewrite <- !app_assoc. now symmetry.
Qed.

(** X17. The four groups [generateReport] makes of the findings are a
    partition: taken together in section order they are a rearrangement of
    the findings, each finding in exactly one group and in its original
    order inside the group, and the four counts of the summary add up to
    the number of findings. *)
Theorem report_groups_partition :
  forall found,
    Permutation
      (filter (fun i => severity_eqb (severity i) critical) found
       ++ filter (fun i => severity_eqb (severity i) high) found
       ++ filter (fun i => severity_eqb (severity i) medium) found
       ++ filter (fun i => severity_eqb (severity i) low) found)
      found
    /\ count_severity critical found + count_severity high found
       + count_severity medium found + count_severity low found
       = length found.
Proof.
  intros found. split; [apply of_severity_permutation |].
  rewrite !count_severity_length.
  rewrite <- (Permutation_length (of_severity_permutation found)).
  rewrite !length_app. lia.
Qed.

Lemma scan_never_low decode spread this repo i :
  In i (issues (scan_outcome decode spread this securityRules repo)) ->
  severity i <> low.
Proof.
  unfold scan_outcome.
  destruct (octokit_getContent this (listing_request this repo))
    as [[entries | c] | e]; try (intros []).
  destruct (first_failure _ _ _ _ _ entries); [intros [] |].
  cbn [issues result_scanned]. intros Hi. apply in_scan_findings in Hi.
  destruct Hi as (fn & text & n & ln & r & _ & _ & Hr & _ & ->).
  destruct Hr as [<- | [<- | [<- | [<- | []]]]]; discriminate.
Qed.

Lemma of_severity_none sev found :
  (forall i, In i found -> severity i <> sev) -> of_severity sev found = [].
Proof.
  unfold of_severity. induction found as [| i found IH]; intros H;
    [reflexivity |].
  simpl. destruct (severity_eqb (severity i) sev) eqn:E.
  - exfalso. apply (H i (or_introl eq_refl)).
    destruct (severity i), sev; try discriminate; reflexivity.
  - apply IH. intros j Hj. apply H. now right.
Qed.

(** X16. No rule of the table has severity low, so the report of a scan
    that found something always shows [- Low: 0] and never has a section
    of low issues: it is the title, the summary and the sections of
    critical, high and medium findings. *)
Theorem scan_report_has_no_low_section :
  forall base64_decode spread_overflow this repo r st',
    scanRepository base64_decode spread_overflow this repo securityRules
    = (Normal r, st') ->
    success r = true -> issues r <> [] ->
    (forall i, In i (issues r) -> severity i <> low)
    /\ generateReport r
       = js "# Workflow Security Scan Report for " ++ repo ++ [LF; LF]
         ++ js "## Summary" ++ [LF; LF]
         ++ concat (map (summary_line (issues r)) [critical; high; medium])
         ++ js "- Low: 0" ++ [LF] ++ [LF]
         ++ concat (map (severity_section (issues r))
                        [critical; high; medium]).
Proof.
  intros base64_decode spread_overflow this repo r st' Hscan Hok Hne.
  rewrite generateReport_findings by assumption.
  rewrite scanRepository_plain in Hscan by apply securityRules_plain.
  injection Hscan as <- _.
  assert (Hlow : forall i,
             In i (issues (scan_outcome base64_decode spread_overflow this
                             securityRules
                                        repo)) -> severity i <> low)
    by (intros i; apply scan_never_low).
  split; [exact Hlow |].
  assert (Hrepo : repository (scan_outcome base64_decode spread_overflow this
                                securityRules
                                           repo) = repo).
  { unfold scan_outcome.
    destruct (octokit_getContent this (listing_request this repo))
      as [[entries | c] | e]; try reflexivity.
    destruct (first_failure _ _ _ _ _ entries); reflexivity. }
  unfold render_findings, severities. rewrite Hrepo.
  cbn [map concat]. unfold severity_section at 4, summary_line at 4.
  rewrite count_severity_length, (of_severity_none low _ Hlow).
  rewrite !app_nil_r. repeat rewrite <- app_assoc. reflexivity.
Qed.

Lemma scan_report_has_no_low_section_witness :
  exists r,
    fst (scanRepository Sample.decode Sample.spread Sample.scanner (js "app")
                        securityRules)
    = Normal r
    /\ count_severity low (issues r) = 0
    /\ severity_section (issues r) low = [].
Proof.
  destruct (scanRepository Sample.decode Sample.spread Sample.scanner (js "app")
              securityRules) as [[r | e] st'] eqn:E.
  - exists r. split; [reflexivity |].
    assert (Hr : r = scan_outcome Sample.decode Sample.spread Sample.scanner
              securityRules
                       (js "app")).
    { rewrite scanRepository_plain in E by apply securityRules_plain.
      now injection E as <- _. }
    assert (Hok : success r = true) by (rewrite Hr; reflexivity).
    assert (Hne : issues r <> []) by (rewrite Hr; discriminate).
    destruct (scan_report_has_no_low_section _ _ _ _ _ _ E Hok Hne)
      as (Hlow & _).
    unfold severity_section. rewrite count_severity_length.
    rewrite (of_severity_none low _ Hlow). split; reflexivity.
  - exfalso. rewrite scanRepository_plain in E by apply securityRules_plain.
    discriminate.
Defined.

(** * The callers *)

(** ** Objects as string maps *)

Lemma jsstring_eqb_sym a b : jsstring_eqb a b = jsstring_eqb b a.
Proof.
  apply eq_iff_eq_true. rewrite !jsstring_eqb_eq. split; congruence.
Qed.

Lemma obj_get_put o k v k' :
  obj_get (obj_put o k v) k'
  = if jsstring_eqb k k' then Some v else obj_get o k'.
Proof.
  induction o as [| (k0 & v0) o IH]; simpl; [reflexivity |].
  destruct (jsstring_eqb k0 k) eqn:E0; simpl.
  - apply jsstring_eqb_eq in E0. subst k0.
    now destruct (jsstring_eqb k k').
  - destruct (jsstring_eqb k0 k') eqn:E1; [| exact IH].
    apply jsstring_eqb_eq in E1. subst k'.
    now rewrite jsstring_eqb_sym, E0.
Qed.

Lemma obj_get_set o k v k' :
  obj_get (obj_set o k v) k'
  = if jsstring_eqb k (js "__proto__") then obj_get o k'
    else if jsstring_eqb k k' then Some v else obj_get o k'.
Proof.
  unfold obj_set. destruct (jsstring_eqb k (js "__proto__"));
    [reflexivity | apply obj_get_put].
Qed.

Lemma obj_get_fold (f : jsstring -> jsstring) k : forall repos acc,
  obj_get (fold_left (fun o repo => obj_set o (repo_name repo)
                                            (f (repo_name repo)))
                     repos acc) k
  = if listed repos k && negb (jsstring_eqb k (js "__proto__"))
    then Some (f k) else obj_get acc k.
Proof.
  unfold listed. induction repos as [| repo repos IH]; intros acc; simpl;
    [reflexivity |].
  rewrite IH, obj_get_set.
  destruct (jsstring_eqb (repo_name repo) k) eqn:Ek.
  - apply jsstring_eqb_eq in Ek. subst k. simpl.
    destruct (jsstring_eqb (repo_name repo) (js "__proto__")); simpl.
    + now rewrite andb_false_r.
    + now destruct (existsb _ repos).
  - simpl.
    destruct (existsb _ repos && negb (jsstring_eqb k (js "__proto__")));
      [reflexivity |].
    now destruct (jsstring_eqb (repo_name repo) (js "__proto__")).
Qed.

(** ** scanAllRepositories in closed form *)

Section GuardianFacts.

Variable base64_decode : jsstring -> jsstring.
Variable spread_overflow : nat -> option Thrown.
Variable Octokit_getContent :
  option jsstring -> Request -> Completion ContentData.
Variable Octokit_listForOrg :
  option jsstring -> jsstring -> Completion (list OrgRepo).
Variable GITHUB_TOKEN : option jsstring.

Lemma scan_each_plain scanner : forall repos acc w,
  plain_store (table w) ->
  scan_each base64_decode spread_overflow scanner repos acc w
  = (Normal
       (fold_left
          (fun o repo =>
             obj_set o (repo_name repo)
               (generateReport
                  (scan_outcome base64_decode spread_overflow scanner (table w)
                                (repo_name repo))))
          repos acc),
     mkWorld (table w) (console w ++ map scanning_line repos)).
Proof.
  induction repos as [| repo repos IH]; intros acc w Hp; simpl.
  - unfold io_ret. destruct w. simpl. now rewrite app_nil_r.
  - unfold io_bind, console_log, io_scan. cbn [table console].
    rewrite scanRepository_plain by exact Hp.
    rewrite IH by exact Hp. cbn [table console].
    now rewrite <- app_assoc.
Qed.

Lemma scanAllRepositories_plain this w :
  plain_store (table w) ->
  scanAllRepositories base64_decode spread_overflow
    Octokit_listForOrg GITHUB_TOKEN this w
  = match workflowsScanner this with
    | None =>
        (Normal [(js "error",
                  js "Workflow scanner not initialized. Make sure GITHUB_TOKEN and organization are set.")],
         w)
    | Some scanner =>
        match Octokit_listForOrg GITHUB_TOKEN (organization this) with
        | Abrupt e =>
            (Normal [(js "error",
                      js "Error scanning repositories: " ++ thrown_text e)],
             w)
        | Normal repos =>
            (Normal
               (fold_left
                  (fun o repo =>
                     obj_set o (repo_name repo)
                       (generateReport
                          (scan_outcome base64_decode spread_overflow
                             scanner (table w)
                                        (repo_name repo))))
                  repos []),
             mkWorld (table w) (console w ++ map scanning_line repos))
        end
    end.
Proof.
  intros Hp. unfold scanAllRepositories.
  destruct (workflowsScanner this) as [scanner |]; [| reflexivity].
  unfold io_try, io_bind, io_await.
  destruct (Octokit_listForOrg GITHUB_TOKEN (organization this))
    as [repos | e]; [| reflexivity].
  now rewrite scan_each_plain by exact Hp.
Qed.

End GuardianFacts.

(** X18. A report shows either the message or the findings of a result,
    never both: for a failed result the findings it may carry do not reach
    the report, and for a successful result the message does not. *)
Theorem report_shows_message_or_findings :
  forall repo msg msg' found found',
    generateReport (mkResult repo false msg found)
    = generateReport (mkResult repo false msg found')
    /\ generateReport (mkResult repo true msg found)
       = generateReport (mkResult repo true msg' found)
    /\ generateReport (mkResult repo false msg found)
       = js "# Workflow Security Scan Report for " ++ repo ++ [LF; LF]
         ++ js "## Error" ++ [LF; LF] ++ msg ++ [LF; LF].
Proof.
  intros repo msg msg' found found'. split; [reflexivity |].
  split; [reflexivity |].
  unfold generateReport. cbn [success negb repository message].
  now rewrite <- !app_assoc.
Qed.

(** ** scanAllRepositories *)

(** X19. [scanAllRepositories] never throws and hands the rule table back
    unchanged.  A guardian constructed without a token, or with an empty
    token or organization, answers with the one-key record that says the
    scanner is not initialized, whatever the providers would answer, and
    prints nothing; and when the listing of the organization throws, the
    answer is the one-key record with that error and nothing is printed. *)
Theorem scanAllRepositories_error_records :
  forall base64_decode spread_overflow getContent listForOrg token this w,
    table w = securityRules ->
    (exists result w',
        scanAllRepositories base64_decode spread_overflow
          listForOrg token this w
        = (Normal result, w')
        /\ table w' = securityRules)
    /\ (forall org,
          truthy token && truthy (Some org) = false ->
          scanAllRepositories base64_decode spread_overflow listForOrg token
            (new_RepositoryGuardian getContent token org) w
          = (Normal [(js "error",
                      js "Workflow scanner not initialized. Make sure GITHUB_TOKEN and organization are set.")],
             w))
    /\ (forall scanner e,
          workflowsScanner this = Some scanner ->
          listForOrg token (organization this) = Abrupt e ->
          scanAllRepositories base64_decode spread_overflow
            listForOrg token this w
          = (Normal [(js "error",
                      js "Error scanning repositories: " ++ thrown_text e)],
             w)).
Proof.
  intros base64_decode spread_overflow getContent listForOrg token this w Hw.
  assert (Hp : plain_store (table w))
    by (rewrite Hw; apply securityRules_plain).
  split; [| split].
  - rewrite scanAllRepositories_plain by exact Hp.
    destruct (workflowsScanner this) as [scanner |]; [| eauto].
    destruct (listForOrg token (organization this)); eauto.
  - intros org Hf.
    rewrite scanAllRepositories_plain by exact Hp.
    unfold new_RepositoryGuardian. cbn [workflowsScanner].
    destruct token as [tok |]; [| reflexivity]. now rewrite Hf.
  - intros scanner e Hs Hl.
    rewrite scanAllRepositories_plain by exact Hp. now rewrite Hs, Hl.
Qed.

Lemma scanAllRepositories_error_records_witness :
  scanAllRepositories Sample.decode Sample.spread
    SampleOrg.listForOrg SampleOrg.token
    (new_RepositoryGuardian SampleOrg.getContent SampleOrg.token [])
    SampleOrg.world
  = (Normal [(js "error",
              js "Workflow scanner not initialized. Make sure GITHUB_TOKEN and organization are set.")],
     SampleOrg.world)
  /\ scanAllRepositories Sample.decode Sample.spread
    SampleOrg.listForOrg SampleOrg.token
       (new_RepositoryGuardian SampleOrg.getContent SampleOrg.token
                               (js "nobody"))
       SampleOrg.world
     = (Normal [(js "error", js "Error scanning repositories: Not Found")],
        SampleOrg.world).
Proof.
  destruct (scanAllRepositories_error_records Sample.decode Sample.spread
              SampleOrg.getContent SampleOrg.listForOrg SampleOrg.token
              (new_RepositoryGuardian SampleOrg.getContent SampleOrg.token
                                      (js "nobody"))
              SampleOrg.world eq_refl) as (_ & H1 & H2).
  split.
  - apply H1. reflexivity.
  - apply (H2 _ (ThrownError (js "Not Found")) eq_refl eq_refl).
Defined.

(** X20. When the listing of the organization succeeds,
    [scanAllRepositories] prints one line per listed repository, in listing
    order, and returns a record whose keys are the listed names (other
    than [__proto__], which an object cannot take as a key by assignment):
    each name maps to the report of that repository's own scan, whether or
    not the scan of any other repository failed. *)
Theorem scanAllRepositories_reports_each :
  forall base64_decode spread_overflow listForOrg token this scanner repos w,
    table w = securityRules ->
    workflowsScanner this = Some scanner ->
    listForOrg token (organization this) = Normal repos ->
    exists result w',
      scanAllRepositories base64_decode spread_overflow listForOrg token this w
      = (Normal result, w')
      /\ table w' = securityRules
      /\ console w' = console w ++ map scanning_line repos
      /\ (forall k,
            listed repos k = true -> k <> js "__proto__" ->
            exists r st',
              scanRepository base64_decode spread_overflow scanner k
                securityRules
              = (Normal r, st')
              /\ obj_get result k = Some (generateReport r))
      /\ (forall k,
            listed repos k = false \/ k = js "__proto__" ->
            obj_get result k = None).
Proof.
  intros base64_decode spread_overflow
    listForOrg token this scanner repos w Hw Hs Hl.
  assert (Hp : plain_store (table w))
    by (rewrite Hw; apply securityRules_plain).
  rewrite scanAllRepositories_plain by exact Hp. rewrite Hs, Hl.
  eexists _, _. split; [reflexivity |]. cbn [table console].
  split; [exact Hw |]. split; [reflexivity |]. split.
  - intros k Hk Hproto.
    exists (scan_outcome base64_decode spread_overflow scanner securityRules k),
      securityRules.
    split; [apply scanRepository_plain, securityRules_plain |].
    rewrite (obj_get_fold
               (fun name => generateReport
                    (scan_outcome base64_decode spread_overflow
                       scanner (table w) name))).
    rewrite Hk, Hw.
    destruct (jsstring_eqb k (js "__proto__")) eqn:E; [| reflexivity].
    apply jsstring_eqb_eq in E. congruence.
  - intros k Hk.
    rewrite (obj_get_fold
               (fun name => generateReport
                    (scan_outcome base64_decode spread_overflow
                       scanner (table w) name))).
    destruct Hk as [-> | ->]; [reflexivity |].
    now rewrite jsstring_eqb_refl, andb_false_r.
Qed.

Lemma scanAllRepositories_reports_each_witness :
  exists result w',
    scanAllRepositories Sample.decode Sample.spread
      SampleOrg.listForOrg SampleOrg.token
      (new_RepositoryGuardian SampleOrg.getContent SampleOrg.token
                              (js "acme"))
      SampleOrg.world
    = (Normal result, w')
    /\ length (console w') = 4
    /\ obj_get result (js "missing")
       = Some (js "# Workflow Security Scan Report for missing" ++ [LF; LF]
                  ++ js "## Error" ++ [LF; LF]
                  ++ js "Error scanning workflows: Not Found" ++ [LF; LF])
    /\ obj_get result (js "empty")
       = Some (js "# Workflow Security Scan Report for empty" ++ [LF; LF]
                  ++ js "## Summary" ++ [LF; LF]
                  ++ js "No security issues found in workflows. Good job!"
                  ++ [LF; LF])
    /\ obj_get result (js "__proto__") = None.
Proof.
  destruct (scanAllRepositories_reports_each Sample.decode Sample.spread
              SampleOrg.listForOrg SampleOrg.token
              (new_RepositoryGuardian SampleOrg.getContent SampleOrg.token
                                      (js "acme"))
              (new_WorkflowsScanner SampleOrg.getContent (js "ghp_example")
                                    (js "acme"))
              SampleOrg.repos SampleOrg.world eq_refl eq_refl eq_refl)
    as (result & w' & Hrun & _ & Hc & Hin & Hout).
  exists result, w'. split; [exact Hrun |].
  split; [rewrite Hc; reflexivity |]. split; [| split].
  - destruct (Hin (js "missing") eq_refl) as (r & st' & Hr & ->);
      [discriminate |].
    rewrite scanRepository_plain in Hr by apply securityRules_plain.
    injection Hr as <- _. reflexivity.
  - destruct (Hin (js "empty") eq_refl) as (r & st' & Hr & ->);
      [discriminate |].
    rewrite scanRepository_plain in Hr by apply securityRules_plain.
    injection Hr as <- _. reflexivity.
  - apply Hout. now right.
Defined.

(** ** listRepositories *)

Lemma print_repos_lines : forall repos index w,
  print_repos repos index w
  = (Normal tt,
     mkWorld (table w)
       (console w
        ++ map (fun p => listing_line (fst p) (snd p))
               (combine (seq index (length repos)) repos))).
Proof.
  induction repos as [| repo repos IH]; intros index w; simpl.
  - unfold io_ret. destruct w. simpl. now rewrite app_nil_r.
  - unfold io_bind, console_log. rewrite IH. cbn [table console].
    rewrite <- app_assoc. replace (S index) with (index + 1) by lia.
    reflexivity.
Qed.

(** X21. [listRepositories] never throws and leaves the rule table alone.
    When the listing succeeds it prints a header naming the organization,
    then one line per repository in listing order, numbered from 1 and
    marked Private or Public, then the total, which is the number of lines
    it printed for repositories; when the listing throws it prints the
    error on the error stream and nothing else. *)
Theorem listRepositories_output :
  forall listForOrg token org w,
    exists w',
      listRepositories listForOrg token org w = (Normal tt, w')
      /\ table w' = table w
      /\ console w'
         = console w
           ++ match listForOrg token org with
              | Normal repos =>
                  [Stdout ([LF] ++ js "Repositories in organization " ++ org
                             ++ js ":")]
                  ++ map (fun p => listing_line (fst p) (snd p))
                         (combine (seq 0 (length repos)) repos)
                  ++ [Stdout ([LF] ++ js "Total: " ++ decimal (length repos)
                                ++ js " repositories")]
              | Abrupt e =>
                  [Stderr (js "Error listing repositories: "
                              ++ thrown_text e)]
              end.
Proof.
  intros listForOrg token org w.
  unfold listRepositories, io_try, io_bind, io_await.
  destruct (listForOrg token org) as [repos | e].
  - unfold console_log at 1. rewrite print_repos_lines.
    unfold console_log. cbn [table console]. eexists. split; [reflexivity |].
    split; [reflexivity |]. cbn [console]. now rewrite <- !app_assoc.
  - unfold console_error. eexists. split; [reflexivity |].
    split; reflexivity.
Qed.

(** ** Configuration *)

Lemma first_truthy_cases a b c :
  first_truthy a b c
  = if truthy a then match a with Some s => s | None => c end
    else if truthy b then match b with Some s => s | None => c end
    else c.
Proof.
  destruct a as [[| x s] |], b as [[| y t] |]; reflexivity.
Qed.

(** X22. The organization, the default branch and the scan frequency are
    each the configured value when that is a non-empty string, otherwise
    the environment value when that is a non-empty string, otherwise the
    default: the empty string for the organization, [main] for the branch,
    [daily] for the frequency.  The branch and the frequency are never the
    empty string, and a guardian constructed for the organization has a
    workflow scanner exactly when the token is a non-empty string and one
    of the two sources names an organization. *)
Theorem config_defaults :
  forall getContent token cfg env,
    config_defaultBranch cfg env <> []
    /\ (truthy cfg = true -> Some (config_defaultBranch cfg env) = cfg)
    /\ (truthy cfg = false -> truthy env = true ->
        Some (config_defaultBranch cfg env) = env)
    /\ (truthy cfg = false -> truthy env = false ->
        config_defaultBranch cfg env = js "main")
    /\ (workflowsScanner
          (new_RepositoryGuardian getContent token
                                  (config_organization cfg env)) <> None
        <-> truthy token = true /\ (truthy cfg = true \/ truthy env = true))
    /\ (truthy cfg = true -> Some (config_organization cfg env) = cfg)
    /\ (truthy cfg = false -> truthy env = true ->
        Some (config_organization cfg env) = env)
    /\ (truthy cfg = false -> truthy env = false ->
        config_organization cfg env = [])
    /\ config_scanFrequency cfg env <> []
    /\ (truthy cfg = true -> Some (config_scanFrequency cfg env) = cfg)
    /\ (truthy cfg = false -> truthy env = true ->
        Some (config_scanFrequency cfg env) = env)
    /\ (truthy cfg = false -> truthy env = false ->
        config_scanFrequency cfg env = js "daily").
Proof.
  intros getContent token cfg env.
  unfold config_defaultBranch, config_organization, config_scanFrequency,
    new_RepositoryGuardian.
  cbn [workflowsScanner].
  destruct cfg as [[| x s] |], env as [[| y t] |], token as [[| z u] |];
    simpl; repeat split; try discriminate; try reflexivity;
    try tauto; try (intros (? & [? | ?]); discriminate);
    try (intros; split; [reflexivity | auto]).
Qed.

Lemma config_defaults_witness :
  config_defaultBranch (Some []) (Some (js "trunk")) = js "trunk"
  /\ config_defaultBranch (Some []) None = js "main"
  /\ config_organization (Some (js "acme")) (Some (js "other")) = js "acme"
  /\ config_organization None (Some (js "other")) = js "other"
  /\ config_scanFrequency None (Some []) = js "daily".
Proof.
  destruct (config_defaults SampleOrg.getContent SampleOrg.token (Some [])
              (Some (js "trunk"))) as (_ & _ & H & _).
  destruct (config_defaults SampleOrg.getContent SampleOrg.token (Some [])
              None) as (_ & _ & _ & H' & _).
  destruct (config_defaults SampleOrg.getContent SampleOrg.token
              (Some (js "acme")) (Some (js "other")))
    as (_ & _ & _ & _ & _ & Ho & _).
  destruct (config_defaults SampleOrg.getContent SampleOrg.token
              None (Some (js "other")))
    as (_ & _ & _ & _ & _ & _ & Ho' & _).
  destruct (config_defaults SampleOrg.getContent SampleOrg.token
              None (Some []))
    as (_ & _ & _ & _ & _ & _ & _ & _ & _ & _ & _ & Hf).
  split; [| split; [| split; [| split]]].
  - specialize (H eq_refl eq_refl).
    exact (f_equal (fun o => match o with Some s => s | None => [] end) H).
  - apply H'; reflexivity.
  - specialize (Ho eq_refl).
    exact (f_equal (fun o => match o with Some s => s | None => [] end) Ho).
  - specialize (Ho' eq_refl eq_refl).
    exact (f_equal (fun o => match o with Some s => s | None => [] end) Ho').
  - apply Hf; reflexivity.
Defined.

Lemma split_on_nonempty sep s : split_on sep s <> [].
Proof.
  destruct s as [| c s]; simpl; [discriminate |].
  destruct (c =? sep)%N; [discriminate |].
  destruct (split_on sep s); discriminate.
Qed.

Lemma split_on_partition sep : forall s,
  join_on sep (split_on sep s) = s
  /\ Forall (fun l => ~ In sep l) (split_on sep s).
Proof.
  induction s as [| c s (IHj & IHf)].
  - split; [reflexivity |]. constructor; [intros [] | constructor].
  - simpl split_on. destruct (N.eqb_spec c sep) as [-> | Hne].
    + split.
      * pose proof (split_on_nonempty sep s) as Hn.
        destruct (split_on sep s) as [| l ls] eqn:E; [congruence |].
        cbn [join_on app]. cbn [join_on] in IHj. now rewrite IHj.
      * constructor; [intros [] | exact IHf].
    + destruct (split_on sep s) as [| l ls] eqn:E;
        [now destruct (split_on_nonempty sep s) |].
      split.
      * rewrite <- IHj. destruct ls; reflexivity.
      * inversion IHf as [| ? ? Hl Hls]; subst.
        constructor; [| exact Hls].
        intros [H | H]; [congruence | auto].
Qed.

(** X23. The required status checks are the configured array whenever one
    is configured, even an empty one.  Taken from the environment
    variable, they are its pieces between commas: never an empty list, no
    piece with a comma in it, and joined by commas they give the variable
    back; so a variable set to the empty string gives one check with an
    empty name rather than the defaults, which apply only when neither
    source is set. *)
Theorem config_required_status_checks :
  forall cfg env,
    (forall checks, cfg = Some checks ->
                    config_requiredStatusChecks cfg env = checks)
    /\ (forall s, cfg = None -> env = Some s ->
                  config_requiredStatusChecks cfg env <> []
                  /\ join_on COMMA (config_requiredStatusChecks cfg env) = s
                  /\ Forall (fun l => ~ In COMMA l)
                            (config_requiredStatusChecks cfg env))
    /\ (cfg = None -> env = Some [] ->
        config_requiredStatusChecks cfg env = [[]])
    /\ (cfg = None -> env = None ->
        config_requiredStatusChecks cfg env = [js "tests"; js "linting"]).
Proof.
  intros cfg env. repeat split.
  - intros checks ->. reflexivity.
  - subst. apply split_on_nonempty.
  - subst. apply split_on_partition.
  - subst. apply split_on_partition.
  - intros -> ->. reflexivity.
  - intros -> ->. reflexivity.
Qed.

Lemma config_required_status_checks_witness :
  config_requiredStatusChecks None (Some (js "build,test,,lint"))
  = [js "build"; js "test"; []; js "lint"]
  /\ join_on COMMA
       (config_requiredStatusChecks None (Some (js "build,test,,lint")))
     = js "build,test,,lint".
Proof.
  split; [reflexivity |].
  destruct (config_required_status_checks None
              (Some (js "build,test,,lint"))) as (_ & H & _).
  apply (H (js "build,test,,lint") eq_refl eq_refl).
Defined.

(** ** What the report discloses *)

Lemma content_in_block i : infix_of (content i) (finding_block i).
Proof.
  unfold finding_block.
  do 19 apply infix_of_app_r. apply infix_of_app_l, infix_of_refl.
Qed.

Lemma rule_of_id r :
  In r securityRules -> Rule.id r = js "no-plaintext-secrets" ->
  r = rule_plaintext_secrets.
Proof.
  intros [<- | [<- | [<- | [<- | []]]]] H; try reflexivity;
    vm_compute in H; discriminate.
Qed.

(** X24. The report repeats the trimmed text of every finding verbatim.
    For a no-plaintext-secrets finding that text holds the keyword, the
    colon and the quoted literal, so the report of a scan that found a
    hardcoded secret contains the secret itself. *)
Theorem report_repeats_matched_text :
  forall filename text repo msg i,
    In i (fst (analyzeWorkflow filename text securityRules)) ->
    infix_of (content i)
             (generateReport
                (mkResult repo true msg
                   (fst (analyzeWorkflow filename text securityRules))))
    /\ (rule i = js "no-plaintext-secrets" ->
        exists kw ws q1 body q2,
          secret_keyword kw /\ spaces ws = true
          /\ is_quote q1 = true /\ is_quote q2 = true /\ body <> []
          /\ infix_of (kw ++ js ":" ++ ws ++ [q1] ++ body ++ [q2])
               (generateReport
                  (mkResult repo true msg
                     (fst (analyzeWorkflow filename text securityRules))))).
Proof.
  intros filename text repo msg i Hi.
  assert (Hrep : infix_of (content i)
             (generateReport
                (mkResult repo true msg
                   (fst (analyzeWorkflow filename text securityRules))))).
  { rewrite generateReport_findings; [| reflexivity |].
    - apply infix_of_trans with (finding_block i);
        [apply content_in_block |].
      apply infix_of_trans
        with (severity_section
                (fst (analyzeWorkflow filename text securityRules))
                (severity i)).
      + now apply block_in_section.
      + apply (section_in_report
                 (mkResult repo true msg
                    (fst (analyzeWorkflow filename text securityRules)))).
    - cbn [issues]. intros E. rewrite E in Hi. contradiction. }
  split; [exact Hrep |].
  intros Hrule. apply in_analyzeWorkflow in Hi.
  destruct Hi as (n & ln & r & Hn & Hr & Hf & ->).
  cbn [finding_of rule content] in *.
  rewrite (rule_of_id r Hr Hrule) in Hf.
  rewrite <- (fires_trim rule_plaintext_secrets ln) in Hf by (simpl; auto).
  apply fires_plaintext_secrets in Hf.
  destruct Hf as (pre & m & post & Hs & kw & ws & q1 & body & q2 & -> & Hkw
                  & Hws & Hq1 & Hne & _ & Hq2).
  exists kw, ws, q1, body, q2. repeat split; auto.
  apply infix_of_trans with (trim ln); [| exact Hrep].
  exists pre, post. exact Hs.
Qed.

Lemma report_repeats_matched_text_witness :
  infix_of (js "API_KEY: 'abc123'")
    (generateReport
       (mkResult (js "app") true []
          (fst (analyzeWorkflow (js "release.yaml") Sample.release_yaml
                                securityRules)))).
Proof.
  apply (report_repeats_matched_text (js "release.yaml") Sample.release_yaml
           (js "app") []
           (finding_of (js "release.yaml") 2 (js "  API_KEY: 'abc123'")
                       rule_plaintext_secrets)).
  rewrite analyzeWorkflow_plain by apply securityRules_plain.
  cbn. left. reflexivity.
Defined.
